(** * sz: a shallow embedding of [sz.go] and its verified properties

    [sz] compresses files to snappy archives, decompresses snappy archives,
    and tars directories before compressing them.  This development embeds
    the program's functions as Rocq functions over an explicit model of the
    file system and proves (or refutes) the properties stated about them.

    Layout: the embedding comes first (Go library functions the program
    calls, the file-system model, then the program function by function),
    the theorems follow. *)

From Stdlib Require Import ZArith Lia List Ascii String DecimalString.
From Stdlib.Strings Require Import Byte.
From stdpp Require Import gmap strings list fin_maps infinite.

Local Open Scope Z_scope.

(* ===================================================================== *)
(** * Part I: the embedding                                               *)
(* ===================================================================== *)

(** ** Go's [strings], [strconv] and [path/filepath] functions used by sz

    Go strings are byte strings; they are modelled by [string] (a list of
    8-bit [ascii] characters).  Slices [s[a:b]] are [String.substring]. *)

Module GoLib.

(** [s[a:b]] *)
Definition slice (s : string) (a b : nat) : string :=
  String.substring a (b - a) s.

(** [strings.HasSuffix] *)
Definition HasSuffix (s suffix : string) : bool :=
  let n := String.length s in
  let k := String.length suffix in
  (k <=? n)%nat && String.eqb (slice s (n - k) n) suffix.

(** [strings.HasPrefix] *)
Definition HasPrefix (s pre : string) : bool := String.prefix pre s.

(** [strings.TrimSuffix] *)
Definition TrimSuffix (s suffix : string) : string :=
  if HasSuffix s suffix
  then slice s 0 (String.length s - String.length suffix)
  else s.

(** [strings.Replace (s, old, new, 1)]: the first occurrence of [old] in
    [s] is replaced; an empty [old] matches at the start of [s]. *)
Fixpoint Replace1 (s old new : string) : string :=
  if String.prefix old s
  then new +:+ slice s (String.length old) (String.length s)
  else match s with
       | EmptyString => EmptyString
       | String c s' => String c (Replace1 s' old new)
       end.

(** [strconv.Itoa] *)
Definition Itoa (i : Z) : string := NilZero.string_of_int (Z.to_int i).

(** [filepath.Ext]: the suffix beginning at the final dot in the final
    element of the path.  [Ext_scan path n] is the loop
    [for i := n-1; i >= 0 && path[i] != '/'; i--]. *)
Fixpoint Ext_scan (path : string) (n : nat) : string :=
  match n with
  | O => EmptyString
  | S i =>
      match String.get i path with
      | Some c =>
          if Ascii.eqb c "/" then EmptyString
          else if Ascii.eqb c "." then slice path i (String.length path)
          else Ext_scan path i
      | None => EmptyString
      end
  end.

Definition Ext (path : string) : string :=
  Ext_scan path (String.length path).

(** Path elements: the pieces between separators. *)
Fixpoint elements (cur : string) (s : string) : list string :=
  match s with
  | EmptyString => [cur]
  | String c s' =>
      if Ascii.eqb c "/" then cur :: elements EmptyString s'
      else elements (cur +:+ String c EmptyString) s'
  end.

Fixpoint join (l : list string) : string :=
  match l with
  | [] => EmptyString
  | [x] => x
  | x :: l' => x +:+ "/" +:+ join l'
  end.

(** [filepath.Clean] on Unix, element by element: empty and [.] elements
    are dropped, an inner [..] removes the element before it, a [..] at
    the start of a rooted path is dropped, and the empty result is [.].
    [out] is the stack of emitted elements, last one first. *)
Definition Clean_step (rooted : bool) (out : list string) (e : string)
  : list string :=
  if String.eqb e "" then out
  else if String.eqb e "." then out
  else if String.eqb e ".." then
    match out with
    | [] => if rooted then [] else [".."%string]
    | top :: rest =>
        if String.eqb top ".." then e :: out else rest
    end
  else e :: out.

Definition Clean (path : string) : string :=
  if String.eqb path "" then "."%string
  else
    let rooted := String.prefix "/" path in
    let out := fold_left (Clean_step rooted) (elements EmptyString path) [] in
    let body := join (rev out) in
    if rooted then "/" +:+ body
    else if String.eqb body "" then "."%string else body.

(** [basename] of package [os], the [Name ()] of a [FileInfo]: trailing
    slashes are removed, then the leading directory name. *)
Fixpoint strip_slashes (n : nat) (name : string) : string :=
  match n with
  | O => name
  | S i =>
      match i, String.get i name with
      | S _, Some c =>
          if Ascii.eqb c "/" then strip_slashes i (slice name 0 i)
          else name
      | _, _ => name
      end
  end.

Fixpoint last_element (name : string) (n : nat) : string :=
  match n with
  | O => name
  | S i =>
      match String.get i name with
      | Some c =>
          if Ascii.eqb c "/" then slice name (S i) (String.length name)
          else last_element name i
      | None => name
      end
  end.

Definition basename (name : string) : string :=
  let name := strip_slashes (String.length name) name in
  last_element name (String.length name - 1).

End GoLib.

(** ** The file system and the [os] package

    A world is a name space ([dirents]: path to inode number) over an inode
    table, so that several names may share one inode (hard links).  Paths
    are compared as written: the kernel's resolution of [.], [..] and
    repeated or trailing separators, the existence of parent directories
    and the refusal of the empty path are outside the model.  The calls
    that follow symbolic links ([os.Stat], [os.Open], [os.OpenFile]) look
    a link's target up as it is written in the link (a working directory
    is not modelled), through at most 40 links.  Two resource limits make
    the failures the program reacts to reproducible: [readonly] (every
    call that creates or removes a name fails with [EROFS]) and [memlimit]
    (the number of bytes [ioutil.ReadAll] can buffer before it gives up
    with [bytes.ErrTooLarge]).  [umask] is the file mode creation mask of
    the process. *)

Module Os.

Inductive error : Type :=
| ENOENT | EEXIST | EROFS | EISDIR | ENOTDIR | EINVAL | ELOOP
| ErrClosed            (* os: file already closed *)
| ErrTooLarge          (* bytes.Buffer: too large *)
| ErrCorrupt           (* snappy: corrupt input *)
| ErrTar               (* an error of archive/tar *)
| ErrSocket            (* archive/tar: sockets not supported *)
| ErrWriteTooLong      (* archive/tar: write too long *)
| ErrStatT             (* cannot convert stat value to syscall.Stat_t *)
| ErrExtract (e : error) (name : string).  (* fmt.Errorf in untar *)

(** [syscall] constants. *)
Definition S_IFMT : Z := 0xf000.
Definition S_IFSOCK : Z := 0xc000.
Definition S_IFLNK : Z := 0xa000.
Definition S_IFREG : Z := 0x8000.
Definition S_IFBLK : Z := 0x6000.
Definition S_IFDIR : Z := 0x4000.
Definition S_IFCHR : Z := 0x2000.
Definition S_IFIFO : Z := 0x1000.

(** An inode: the fields of [syscall.Stat_t] the program reads
    ([Mode] is a [uint32], [Nlink] and [Rdev] are [uint64]), the file's
    bytes, a symbolic link's target and the [security.capability]
    extended attribute. *)
Record inode : Type := Inode {
  st_mode : Z;
  st_nlink : Z;
  st_rdev : Z;
  i_data : list byte;
  i_target : string;
  i_caps : option (list byte)
}.

Record world : Type := World {
  dirents : gmap string Z;
  inodes : gmap Z inode;
  readonly : bool;
  memlimit : nat;
  umask : Z
}.

Definition set_dirents (w : world) (d : gmap string Z) : world :=
  World d (inodes w) (readonly w) (memlimit w) (umask w).
Definition set_inodes (w : world) (t : gmap Z inode) : world :=
  World (dirents w) t (readonly w) (memlimit w) (umask w).

(** [os.FileMode] as computed from [st_mode] by [os.Lstat]. *)
Inductive kind : Type :=
| KRegular | KDir | KSymlink | KCharDevice | KBlockDevice | KNamedPipe
| KSocket.

Definition kind_of_mode (m : Z) : kind :=
  let t := Z.land m S_IFMT in
  if t =? S_IFBLK then KBlockDevice
  else if t =? S_IFCHR then KCharDevice
  else if t =? S_IFDIR then KDir
  else if t =? S_IFIFO then KNamedPipe
  else if t =? S_IFLNK then KSymlink
  else if t =? S_IFSOCK then KSocket
  else KRegular.

Definition IsRegular (m : Z) : bool :=
  match kind_of_mode m with KRegular => true | _ => false end.
Definition IsDir (m : Z) : bool :=
  match kind_of_mode m with KDir => true | _ => false end.
Definition IsSymlink (m : Z) : bool :=
  match kind_of_mode m with KSymlink => true | _ => false end.
(** [FileMode.Perm]: the bits [0777]. *)
Definition Perm (m : Z) : Z := Z.land m 0x1ff.
(** The permission bits a new file gets: those asked for, the bits of
    the mask cleared. *)
Definition masked (mask perm : Z) : Z := Z.ldiff (Perm perm) mask.

(** [os.FileInfo]: [Name ()], and [Sys ()] with the inode number. *)
Record FileInfo : Type := mkFileInfo {
  fi_name : string;
  fi_ino : Z;
  fi_sys : inode
}.

Definition fi_Mode (fi : FileInfo) : Z := st_mode (fi_sys fi).
Definition fi_Size (fi : FileInfo) : Z := Z.of_nat (length (i_data (fi_sys fi))).

(** [*os.File]: an open file with its read offset.  The program holds
    files by pointer, so the functions below return the updated file. *)
Record File : Type := mkFile {
  f_name : string;
  f_ino : Z;
  f_pos : nat;
  f_closed : bool
}.

Definition os_Lstat (w : world) (name : string) : error + FileInfo :=
  match dirents w !! name with
  | None => inl ENOENT
  | Some ino =>
      match inodes w !! ino with
      | None => inl ENOENT
      | Some i => inr (mkFileInfo (GoLib.basename name) ino i)
      end
  end.

(** [os.Stat]: as [os.Lstat], symbolic links followed; [fuel] is the
    number of links the call may still follow. *)
Fixpoint follow (w : world) (fuel : nat) (name : string)
  : error + FileInfo :=
  match os_Lstat w name with
  | inl e => inl e
  | inr fi =>
      if IsSymlink (fi_Mode fi) then
        match fuel with
        | O => inl ELOOP
        | S fuel' =>
            match follow w fuel' (i_target (fi_sys fi)) with
            | inl e => inl e
            | inr fi' => inr (mkFileInfo (fi_name fi) (fi_ino fi')
                                         (fi_sys fi'))
            end
        end
      else inr fi
  end.

Definition maxSymlinks : nat := 40.

Definition os_Stat (w : world) (name : string) : error + FileInfo :=
  follow w maxSymlinks name.

(** The path a call that follows links ends at: [name] itself unless
    it is a symbolic link. *)
Fixpoint resolve (w : world) (fuel : nat) (name : string)
  : error + string :=
  match os_Lstat w name with
  | inl _ => inr name
  | inr fi =>
      if IsSymlink (fi_Mode fi) then
        match fuel with
        | O => inl ELOOP
        | S fuel' => resolve w fuel' (i_target (fi_sys fi))
        end
      else inr name
  end.

Definition os_Open (w : world) (name : string) : option File * option error :=
  match os_Stat w name with
  | inl e => (None, Some e)
  | inr fi => (Some (mkFile name (fi_ino fi) 0 false), None)
  end.

Definition File_Stat (w : world) (f : File) : error + FileInfo :=
  if f_closed f then inl ErrClosed
  else match inodes w !! f_ino f with
       | None => inl ENOENT
       | Some i => inr (mkFileInfo (GoLib.basename (f_name f)) (f_ino f) i)
       end.

Definition File_Close (f : File) : File :=
  mkFile (f_name f) (f_ino f) (f_pos f) true.

(** The bytes a read can still deliver: none from a closed file or from
    anything but a regular file. *)
Definition file_bytes (w : world) (f : File) : list byte :=
  if f_closed f then []
  else match inodes w !! f_ino f with
       | Some i => if IsRegular (st_mode i) then i_data i else []
       | None => []
       end.

(** [f.ReadAt (buf, off)] with [len (buf) = n]: the buffer after the
    call and the number of bytes read. *)
Definition File_ReadAt (w : world) (f : File) (n off : nat)
  : list byte * nat :=
  let got := take n (drop off (file_bytes w f)) in
  (got ++ replicate (n - length got) x00, length got).

(** Sequential reading to the end of the file, as [io.Copy] does. *)
Definition File_ReadRest (w : world) (f : File)
  : File * list byte * option error :=
  if f_closed f then (f, [], Some ErrClosed)
  else
    let rest := drop (f_pos f) (file_bytes w f) in
    (mkFile (f_name f) (f_ino f) (f_pos f + length rest) false, rest, None).

(** [ioutil.ReadAll]: reads to the end of the file, or fills the memory
    it can get and fails with [ErrTooLarge], the bytes read so far
    consumed. *)
Definition ioutil_ReadAll (w : world) (f : File)
  : File * list byte * option error :=
  if f_closed f then (f, [], Some ErrClosed)
  else
    let rest := drop (f_pos f) (file_bytes w f) in
    if (length rest <=? memlimit w)%nat
    then (mkFile (f_name f) (f_ino f) (f_pos f + length rest) false,
          rest, None)
    else (mkFile (f_name f) (f_ino f) (f_pos f + memlimit w) false,
          take (memlimit w) rest, Some ErrTooLarge).

(** [os.OpenFile (name, O_RDWR|O_CREATE|O_APPEND, perm)]: links are
    followed, an existing file is opened as it is, a missing one is
    created with the permission bits the mask leaves. *)
Definition os_OpenFile (w : world) (name : string) (perm : Z)
  : world * option File * option error :=
  match resolve w maxSymlinks name with
  | inl e => (w, None, Some e)
  | inr target =>
      match dirents w !! target with
      | Some ino =>
          match inodes w !! ino with
          | Some i =>
              if IsDir (st_mode i) then (w, None, Some EISDIR)
              else (w, Some (mkFile name ino 0 false), None)
          | None => (w, None, Some ENOENT)
          end
      | None =>
          if readonly w then (w, None, Some EROFS)
          else
            let ino := fresh (dom (inodes w)) in
            let i := Inode (Z.lor S_IFREG (masked (umask w) perm)) 1 0 []
                           "" None in
            (World (<[target := ino]> (dirents w)) (<[ino := i]> (inodes w))
                   (readonly w) (memlimit w) (umask w),
             Some (mkFile name ino 0 false), None)
      end
  end.

(** [f.Write (b)] on a file opened with [O_APPEND]. *)
Definition File_Write (w : world) (f : File) (b : list byte)
  : world * option error :=
  if f_closed f then (w, Some ErrClosed)
  else match inodes w !! f_ino f with
       | None => (w, Some ENOENT)
       | Some i =>
           (set_inodes w
              (<[f_ino f := Inode (st_mode i) (st_nlink i) (st_rdev i)
                              (i_data i ++ b) (i_target i) (i_caps i)]>
                 (inodes w)),
            None)
       end.

Definition os_Remove (w : world) (name : string) : world * option error :=
  match dirents w !! name with
  | None => (w, Some ENOENT)
  | Some _ =>
      if readonly w then (w, Some EROFS)
      else (set_dirents w (delete name (dirents w)), None)
  end.

(** [os.MkdirAll]: nothing to do for a directory; a name that is taken
    by anything else is refused, [os.Mkdir]'s error returned. *)
Definition os_MkdirAll (w : world) (name : string) (perm : Z)
  : world * option error :=
  match os_Stat w name with
  | inr fi =>
      if IsDir (fi_Mode fi) then (w, None) else (w, Some ENOTDIR)
  | inl _ =>
      match dirents w !! name with
      | Some _ => (w, Some EEXIST)
      | None =>
          if readonly w then (w, Some EROFS)
          else
            let ino := fresh (dom (inodes w)) in
            let i := Inode (Z.lor S_IFDIR (masked (umask w) perm)) 2 0 []
                           "" None in
            (World (<[name := ino]> (dirents w)) (<[ino := i]> (inodes w))
                   (readonly w) (memlimit w) (umask w), None)
      end
  end.

Definition os_Link (w : world) (oldname newname : string)
  : world * option error :=
  match dirents w !! oldname with
  | None => (w, Some ENOENT)
  | Some ino =>
      match dirents w !! newname with
      | Some _ => (w, Some EEXIST)
      | None =>
          if readonly w then (w, Some EROFS)
          else
            let t := match inodes w !! ino with
                     | Some i =>
                         <[ino := Inode (st_mode i) (st_nlink i + 1)
                                    (st_rdev i) (i_data i) (i_target i)
                                    (i_caps i)]> (inodes w)
                     | None => inodes w
                     end in
            (World (<[newname := ino]> (dirents w)) t
                   (readonly w) (memlimit w) (umask w), None)
      end
  end.

Definition os_Symlink (w : world) (target newname : string)
  : world * option error :=
  match dirents w !! newname with
  | Some _ => (w, Some EEXIST)
  | None =>
      if readonly w then (w, Some EROFS)
      else
        let ino := fresh (dom (inodes w)) in
        let i := Inode (Z.lor S_IFLNK 0x1ff) 1 0 [] target None in
        (World (<[newname := ino]> (dirents w)) (<[ino := i]> (inodes w))
               (readonly w) (memlimit w) (umask w), None)
  end.

Definition os_Readlink (w : world) (name : string) : error + string :=
  match os_Lstat w name with
  | inl e => inl e
  | inr fi =>
      if IsSymlink (fi_Mode fi) then inr (i_target (fi_sys fi))
      else inl EINVAL
  end.

End Os.

(** ** [archive/tar]: headers and archive members *)

Module Tar.

Inductive typeflag : Type :=
| TypeReg | TypeRegA | TypeLink | TypeSymlink | TypeChar | TypeBlock
| TypeDir | TypeFifo | TypeOther (c : byte).

Record Header : Type := mkHeader {
  Name : string;
  Mode : Z;
  Size : Z;
  Typeflag : typeflag;
  Linkname : string;
  Devmajor : Z;
  Devminor : Z;
  Xattrs : gmap string (list byte)
}.

(** A member of an archive: its header and the body that follows it. *)
Record member : Type := mkMember {
  m_hdr : Header;
  m_body : list byte
}.

Definition typeflag_eqb (a b : typeflag) : bool :=
  match a, b with
  | TypeReg, TypeReg | TypeRegA, TypeRegA | TypeLink, TypeLink
  | TypeSymlink, TypeSymlink | TypeChar, TypeChar | TypeBlock, TypeBlock
  | TypeDir, TypeDir | TypeFifo, TypeFifo => true
  | TypeOther c, TypeOther d => Byte.eqb c d
  | _, _ => false
  end.

(** [tar.FileInfoHeader (fi, link)]. *)
Definition FileInfoHeader (fi : Os.FileInfo) (link : string)
  : Os.error + Header :=
  let fm := Os.fi_Mode fi in
  let h := mkHeader (Os.fi_name fi) (Z.land fm 0xfff) 0 TypeReg "" 0 0 ∅ in
  match Os.kind_of_mode fm with
  | Os.KRegular =>
      inr (mkHeader (Name h) (Mode h) (Os.fi_Size fi) TypeReg "" 0 0 ∅)
  | Os.KDir =>
      inr (mkHeader (Name h +:+ "/") (Mode h) 0 TypeDir "" 0 0 ∅)
  | Os.KSymlink =>
      inr (mkHeader (Name h) (Mode h) 0 TypeSymlink link 0 0 ∅)
  | Os.KCharDevice =>
      inr (mkHeader (Name h) (Mode h) 0 TypeChar "" 0 0 ∅)
  | Os.KBlockDevice =>
      inr (mkHeader (Name h) (Mode h) 0 TypeBlock "" 0 0 ∅)
  | Os.KNamedPipe =>
      inr (mkHeader (Name h) (Mode h) 0 TypeFifo "" 0 0 ∅)
  | Os.KSocket => inl Os.ErrSocket
  end.

End Tar.

(** ** The libraries taken as given

    The media-type table of the host ([mime.TypeByExtension]), the snappy
    stream codec ([github.com/golang/snappy]), the tar wire format and the
    order in which [filepath.Walk] visits a tree are not part of sz; the
    program is embedded over any implementation of them. *)

Class Extern : Type := {
  (** [mime.TypeByExtension]; the empty string when the extension is
      unknown. *)
  TypeByExtension : string -> string;
  (** A [snappy.Writer]: [sz_Write s p] is the state after [Write (p)] and
      the bytes the call hands to the underlying writer. *)
  sz_writer : Type;
  sz_NewWriter : sz_writer;
  sz_Write : sz_writer -> list byte -> sz_writer * list byte;
  (** A [snappy.Reader] read to its end: the decoded bytes and the error
      that stopped it, if any. *)
  sz_decode : list byte -> list byte * option Os.error;
  (** Whether [tar.Writer.WriteHeader] accepts a header. *)
  tar_header_ok : Tar.Header -> bool;
  (** The bytes a [tar.Writer] has handed to the underlying writer once
      the given members are written, before it is closed. *)
  tar_written : list Tar.member -> list byte;
  (** The bytes of an archive holding the given members, and the members
      [tar.Reader.Next] yields from a byte stream, with the error that ends
      the stream when it does not end in [io.EOF]. *)
  tar_encode : list Tar.member -> list byte;
  tar_decode : list byte -> list Tar.member * option Os.error;
  (** The paths [filepath.Walk (root, ...)] visits, in order. *)
  Walk : Os.world -> string -> list string
}.

(** The bytes a fresh [snappy.Writer] hands to the underlying writer over
    successive calls [Write (p)], [p] ranging over [ps]. *)
Fixpoint sz_stream {ext : Extern} (szw : sz_writer) (ps : list (list byte))
  : list byte :=
  match ps with
  | [] => []
  | p :: ps' =>
      let '(szw', out) := sz_Write szw p in out ++ sz_stream szw' ps'
  end.

(** The contract of the snappy stream format: a reader decodes what a
    writer wrote, whatever the sizes of the writes. *)
Definition snappy_sound (ext : Extern) : Prop :=
  forall ps : list (list byte),
    sz_decode (sz_stream sz_NewWriter ps) = (List.concat ps, None).

(** ** The program *)

Module Sz.
Import GoLib Os Tar.

(** Fixed-width integers: conversions wrap. *)
Definition uint32 (x : Z) : Z := x mod 2 ^ 32.
Definition uint64 (x : Z) : Z := x mod 2 ^ 64.
Definition int64 (x : Z) : Z := (x + 2 ^ 63) mod 2 ^ 64 - 2 ^ 63.

(** The global variables [flags] sets. *)
Record globals : Type := Globals {
  doSingleArchive : bool;
  doQuiet : bool;
  dstArchive : string;
  trgtFiles : list string
}.

(** What a call leaves behind: it returns (an error or [nil]) or the
    goroutine panics. *)
Inductive outcome : Type :=
| Returned (err : option error)
| Panicked.

(** [matchesOr] *)
Fixpoint matchesOr (s : string) (conditions : list string) : bool :=
  match conditions with
  | [] => false
  | c :: conditions' =>
      if String.eqb s c then true else matchesOr s conditions'
  end.

(** [slcHas]: the outer loop over [slc], the inner one ([matchesOr]'s
    shape) over [args]. *)
Fixpoint slcHas (slc : list string) (args : list string) : bool :=
  match slc with
  | [] => false
  | s :: slc' => if matchesOr s args then true else slcHas slc' args
  end.

(** [filter]: [rest] is what the range loop has still to visit,
    [filtered] the result so far.  The loop tests [slcHas (slc, s)]; the
    parameter [args] is not used by the source. *)
Fixpoint filter_loop (slc rest filtered : list string) : list string :=
  match rest with
  | [] => filtered
  | s :: rest' =>
      if slcHas slc [s] then filter_loop slc rest' filtered
      else filter_loop slc rest' (filtered ++ [s])
  end.

Definition filter (slc : list string) (args : list string) : list string :=
  filter_loop slc slc [].

(** [chkHelp]: whether help was requested ([help (0)] then exits). *)
Definition chkHelp (osArgs : list string) : bool :=
  match osArgs with
  | _ :: a :: _ =>
      matchesOr a ["-h"; "h"; "help"; "--help"; "-H"; "H"; "HELP";
                   "--HELP"; "-help"; "--h"; "--H"]%string
  | _ => false
  end.

(** [flags], from the point where [flag.Parse] has returned: [q] and
    [a] are the values it stored in [doQuiet] and [dstArchive].  [None]
    is [help (1)], which exits.  [flag.Parse] itself is the library's:
    the command lines it refuses, on which it ends the program, are
    not represented. *)
Definition flags (osArgs : list string) (q : bool) (a : string)
  : option globals :=
  if (length osArgs <? 2)%nat then None
  else
    let trgtFiles := tail osArgs in
    if negb q && String.eqb a "" then Some (Globals false q a trgtFiles)
    else
      let trgtFiles :=
        if q then filter trgtFiles ["-s"; "-q"]%string else trgtFiles in
      if negb (String.eqb a "")
      then Some (Globals true q a (filter trgtFiles [a]))
      else Some (Globals false q a trgtFiles).

(** [init] *)
Definition init (osArgs : list string) (q : bool) (a : string)
  : option globals :=
  if chkHelp osArgs then None else flags osArgs q a.

(** [concat]: the shared buffer is empty between calls. *)
Fixpoint concat (slc : list string) : string :=
  match slc with
  | [] => EmptyString
  | s :: slc' => s +:+ concat slc'
  end.

(** [exists] *)
Definition exists_ (w : world) (filename : string) : bool :=
  match os_Stat w filename with
  | inr _ => true
  | inl _ => false
  end.

(** [isDir] *)
Definition isDir (w : world) (file : File) : bool :=
  match File_Stat w file with
  | inl _ => false
  | inr fi => IsDir (fi_Mode fi)
  end.

(** The loop [for i, b := range bytes { if b != sig[i] { return false } }]
    of [isSz] and [isTar], from index [i] on. *)
Fixpoint sig_loop (i : nat) (bytes sig : list byte) : bool :=
  match bytes with
  | [] => true
  | b :: bytes' =>
      if negb (Byte.eqb b (nth i sig x00)) then false
      else sig_loop (S i) bytes' sig
  end.

Definition szSig : list byte :=
  [xff; x06; x00; x00; x73; x4e; x61; x50; x70; x59].
Definition tarSig : list byte := [x75; x73; x74; x61; x72].

(** [isSz] *)
Definition isSz (w : world) (file : File) : bool :=
  let total := 10%nat in
  let '(bytes, n) := File_ReadAt w file total 0 in
  if (n <? total)%nat then false else sig_loop 0 bytes szSig.

(** [isTar] *)
Definition isTar (w : world) (file : File) : bool :=
  let '(bytes, n) := File_ReadAt w file 5 257 in
  if (n <? 5)%nat then false else sig_loop 0 bytes tarSig.

(** [devmajor] and [devminor], on [uint64]. *)
Definition devmajor (device : Z) : Z :=
  Z.land (Z.shiftr device 8) 0xfff.
Definition devminor (device : Z) : Z :=
  Z.lor (Z.land device 0xff) (Z.land (Z.shiftr device 12) 0xfff00).

(** [tarSetHeader]: [stat] is [fi.Sys ()], [None] when it is not a
    [*syscall.Stat_t].  Returns the header, [nlink], [inode] and [err]. *)
Definition tarSetHeader (hdr : Header) (stat : option (Z * inode))
  : Header * Z * Z * option error :=
  match stat with
  | None => (hdr, 0, 0, Some ErrStatT)
  | Some (ino, s) =>
      let nlink := uint32 (st_nlink s) in
      let inode := uint64 ino in
      let hdr :=
        if negb (Z.land (st_mode s) S_IFBLK =? 0)
           || negb (Z.land (st_mode s) S_IFCHR =? 0)
        then mkHeader (Name hdr) (Mode hdr) (Size hdr) (Typeflag hdr)
               (Linkname hdr)
               (int64 (devmajor (uint64 (st_rdev s))))
               (int64 (devminor (uint64 (st_rdev s))))
               (Xattrs hdr)
        else hdr in
      (hdr, nlink, inode, None)
  end.

(** [fmtDir] *)
Definition fmtDir (name : string) : string :=
  let s := "/"%string in
  if negb (HasSuffix name s) then concat [name; s] else name.

(** [lgetxattr (path, "security.capability")]: [None] is the nil slice. *)
Definition lgetxattr (w : world) (path : string) : option (list byte) :=
  match os_Lstat w path with
  | inl _ => None
  | inr fi => i_caps (fi_sys fi)
  end.

(** A [tar.Writer]: the members written so far and its sticky error. *)
Record tarWriter : Type := mkTarWriter {
  tw_members : list member;
  tw_err : option error
}.

(** [tarAppender]; the buffered writer is empty between two calls of
    [add], which flushes it after each body. *)
Record tarAppender : Type := mkTarAppender {
  ta_tarWriter : tarWriter;
  hardLinks : gmap Z string
}.

Definition newAppender : tarAppender :=
  mkTarAppender (mkTarWriter [] None) ∅.

Section WithExtern.
Context {ext : Extern}.

(** [tw.WriteHeader (hdr)] *)
Definition tw_WriteHeader (tw : tarWriter) (hdr : Header)
  : tarWriter * option error :=
  match tw_err tw with
  | Some e => (tw, Some e)
  | None =>
      if tar_header_ok hdr
      then (mkTarWriter (tw_members tw ++ [mkMember hdr []]) None, None)
      else (mkTarWriter (tw_members tw) (Some ErrTar), Some ErrTar)
  end.

(** Writing a body to the member whose header was written last. *)
Definition tw_Write (tw : tarWriter) (body : list byte) : tarWriter :=
  match reverse (tw_members tw) with
  | [] => tw
  | m :: before =>
      mkTarWriter (reverse before ++ [mkMember (m_hdr m) (m_body m ++ body)])
                  (tw_err tw)
  end.

(** [tw.Close ()]: fails when the last body is shorter than its
    header says, or with the sticky error. *)
Definition tw_Close (tw : tarWriter) : option error :=
  match tw_err tw with
  | Some e => Some e
  | None =>
      match reverse (tw_members tw) with
      | m :: _ =>
          if Z.of_nat (length (m_body m)) <? Size (m_hdr m)
          then Some ErrTar else None
      | [] => None
      end
  end.

(** The allow-list of [splitExt]'s switch. *)
Definition allowed (testext : string) : bool :=
  matchesOr testext [".tar"; ".sz"; ".tar.sz"]%string.

(** [splitExt]: the loop [for { ... }], [fuel] bounding its
    iterations. *)
Fixpoint splitExt_loop (fuel : nat) (base ext : string)
  : string * string :=
  match fuel with
  | O => (base, ext)
  | S fuel' =>
      let testext := Ext base in
      if String.eqb testext "" then (base, ext)
      else if String.eqb (TypeByExtension testext) ""
              && negb (allowed testext)
      then (base, ext)
      else splitExt_loop fuel' (TrimSuffix base testext)
                         (concat [testext; ext])
  end.

Definition splitExt (filename : string) : string * string :=
  let base := Clean filename in
  splitExt_loop (S (String.length base)) base "".

Definition loopBound : Z := 20091110230000.

(** [genUnusedFilename]: the loop [for i := ...; i < loopBound; i++]
    with [n] iterations left; [filename] is returned unchanged when
    the loop runs out. *)
Fixpoint genUnusedFilename_loop (w : world) (base ext : string)
    (n : nat) (i : Z) (filename : string) : string :=
  match n with
  | O => filename
  | S n' =>
      let testname := concat [base; "("; Itoa i; ")"; ext]%string in
      if exists_ w testname
      then genUnusedFilename_loop w base ext n' (i + 1) filename
      else testname
  end.

Definition genUnusedFilename (w : world) (filename : string) : string :=
  if negb (exists_ w filename) then filename
  else
    let '(base, ext) := splitExt filename in
    genUnusedFilename_loop w base ext (Z.to_nat (loopBound - 1)) 1
                           filename.

(** [create] *)
Definition create (w : world) (filename : string) (mode : Z)
  : world * option File * option error :=
  let filename := genUnusedFilename w filename in
  os_OpenFile w filename mode.

(** Successive [Write] calls on a snappy writer over [dst] (through
    the [passthru], which forwards them). *)
Fixpoint sz_write_all (w : world) (dst : File) (szw : sz_writer)
    (ps : list (list byte)) : world * option error :=
  match ps with
  | [] => (w, None)
  | p :: ps' =>
      let '(szw', out) := sz_Write szw p in
      match File_Write w dst out with
      | (w', Some e) => (w', Some e)
      | (w', None) => sz_write_all w' dst szw' ps'
      end
  end.

(** The writes a [bufio.Writer] of [size] bytes issues for [l]: full
    buffers, then the rest on [Flush]. *)
Fixpoint chunks (fuel : nat) (size : nat) (l : list byte)
  : list (list byte) :=
  match fuel with
  | O => []
  | S fuel' =>
      match l with
      | [] => []
      | _ => take size l :: chunks fuel' size (drop size l)
      end
  end.

Definition defaultBufSize : nat := 4096.

(** [snapSafe]: returns the world, the source file as the call leaves
    it, [dst] and [err]. *)
Definition snapSafe (w : world) (src : File)
  : world * File * option File * option error :=
  match File_Stat w src with
  | inl e => (w, src, None, Some e)
  | inr srcInfo =>
      let dstName := concat [f_name src; ".sz"]%string in
      let dstName := genUnusedFilename w dstName in
      match create w dstName (fi_Mode srcInfo) with
      | (w, None, err) => (w, src, None, err)
      | (w, Some dst, _) =>
          (* io.Copy (szb, src); src.Close (); szb.Flush () *)
          let '(src, rest, rerr) := File_ReadRest w src in
          let '(w, err) :=
            match rerr with
            | Some e => (w, Some e)
            | None =>
                sz_write_all w dst sz_NewWriter
                  (chunks (length rest) defaultBufSize rest)
            end in
          let src := File_Close src in
          (* deferred: re-open the compressed file *)
          match err with
          | None =>
              let '(dst, err) := os_Open w dstName in (w, src, dst, err)
          | Some e => (w, src, Some dst, Some e)
          end
      end
  end.

(** [snap] *)
Definition snap (w : world) (src : File)
  : world * File * option File * option error :=
  match File_Stat w src with
  | inl e => (w, src, None, Some e)
  | inr srcInfo =>
      let dstName := concat [f_name src; ".sz"]%string in
      let dstName := genUnusedFilename w dstName in
      match create w dstName (fi_Mode srcInfo) with
      | (w, None, err) => (w, src, None, err)
      | (w, Some dst, _) =>
          let '(src, srcContents, rerr) := ioutil_ReadAll w src in
          let '(w, err) :=
            match rerr with
            | Some e => (w, Some e)
            | None => sz_write_all w dst sz_NewWriter [srcContents]
            end in
          (* deferred: re-open the compressed file, or run snapSafe *)
          match err with
          | None =>
              let '(dst, err) := os_Open w dstName in (w, src, dst, err)
          | Some _ => snapSafe w src
          end
      end
  end.

(** [unsnap] *)
Definition unsnap (w : world) (src : File)
  : world * File * option File * option error :=
  match File_Stat w src with
  | inl e => (w, src, None, Some e)
  | inr srcInfo =>
      let srcName := fi_name srcInfo in
      let dstName := TrimSuffix srcName ".sz" in
      let dstName :=
        if String.eqb dstName srcName
        then concat [srcName; "-uncompressed"]%string else dstName in
      let dstName := genUnusedFilename w dstName in
      match create w dstName (fi_Mode srcInfo) with
      | (w, None, err) => (w, src, None, err)
      | (w, Some dst, _) =>
          (* io.Copy (dst, szReader) *)
          let '(src, bytes, rerr) := File_ReadRest w src in
          let '(w, err) :=
            match rerr with
            | Some e => (w, Some e)
            | None =>
                let '(decoded, derr) := sz_decode bytes in
                match File_Write w dst decoded with
                | (w, Some e) => (w, Some e)
                | (w, None) => (w, derr)
                end
            end in
          match err with
          | None =>
              let '(dst, err) := os_Open w dstName in (w, src, dst, err)
          | Some e => (w, src, Some dst, Some e)
          end
      end
  end.

(** [tarAppender.add]: returns the appender as the call leaves it and
    [err]. *)
Definition add (w : world) (ta : tarAppender) (path name : string)
  : tarAppender * option error :=
  match os_Lstat w path with
  | inl e => (ta, Some e)
  | inr fi =>
      (* If the file is a symlink, find its target. *)
      match (if IsSymlink (fi_Mode fi) then os_Readlink w path
             else inr EmptyString) with
      | inl e => (ta, Some e)
      | inr link =>
          match FileInfoHeader fi link with
          | inl e => (ta, Some e)
          | inr hdr =>
              let name := if IsDir (fi_Mode fi) then fmtDir name
                          else name in
              let hdr := mkHeader name (Mode hdr) (Size hdr)
                           (Typeflag hdr) (Linkname hdr) (Devmajor hdr)
                           (Devminor hdr) (Xattrs hdr) in
              let '(hdr, nlink, inode, err) :=
                tarSetHeader hdr (Some (fi_ino fi, fi_sys fi)) in
              match err with
              | Some e => (ta, Some e)
              | None =>
                  let '(hdr, links) :=
                    if IsRegular (fi_Mode fi) && (1 <? nlink)
                    then
                      match hardLinks ta !! inode with
                      | Some oldpath =>
                          (mkHeader (Name hdr) (Mode hdr) 0 TypeLink
                             oldpath (Devmajor hdr) (Devminor hdr)
                             (Xattrs hdr),
                           hardLinks ta)
                      | None =>
                          (hdr, <[inode := name]> (hardLinks ta))
                      end
                    else (hdr, hardLinks ta) in
                  let hdr :=
                    match lgetxattr w path with
                    | Some capability =>
                        mkHeader (Name hdr) (Mode hdr) (Size hdr)
                          (Typeflag hdr) (Linkname hdr) (Devmajor hdr)
                          (Devminor hdr)
                          {[ "security.capability"%string := capability ]}
                    | None => hdr
                    end in
                  let '(tw, err) :=
                    tw_WriteHeader (ta_tarWriter ta) hdr in
                  match err with
                  | Some e => (mkTarAppender tw links, Some e)
                  | None =>
                      if typeflag_eqb (Typeflag hdr) TypeReg then
                        match os_Open w path with
                        | (None, err) => (mkTarAppender tw links, err)
                        | (Some file, _) =>
                            let '(_, body, rerr) :=
                              File_ReadRest w file in
                            (mkTarAppender (tw_Write tw body) links, rerr)
                        end
                      else (mkTarAppender tw links, None)
                  end
              end
          end
      end
  end.

(** The walk of [tarDir]: [ta.add (path, path)] for each visited path,
    stopping at the first error. *)
Fixpoint walk_add (w : world) (ta : tarAppender) (paths : list string)
  : tarAppender * option error :=
  match paths with
  | [] => (ta, None)
  | path :: paths' =>
      match add w ta path path with
      | (ta, Some e) => (ta, Some e)
      | (ta, None) => walk_add w ta paths'
      end
  end.

(** Whether [path] is a name of the open file [f]. *)
Definition names (w : world) (path : string) (f : File) : bool :=
  match dirents w !! path with
  | Some ino => ino =? f_ino f
  | None => false
  end.

(** The paths the walk visits before it reaches a name of [f]. *)
Fixpoint before (w : world) (f : File) (paths : list string)
  : list string :=
  match paths with
  | [] => []
  | path :: paths' =>
      if names w path f then [] else path :: before w f paths'
  end.

(** The world in which the open file [f] holds [data]. *)
Definition holding (w : world) (f : File) (data : list byte) : world :=
  match inodes w !! f_ino f with
  | Some i =>
      set_inodes w
        (<[f_ino f := Inode (st_mode i) (st_nlink i) (st_rdev i) data
                        (i_target i) (i_caps i)]> (inodes w))
  | None => w
  end.

(** [ta.add] on the archive that is being written.  The file holds what
    the tar writer wrote so far; its header announces that size, and
    the copy of the file into itself, which grows by at least the
    header, ends in [tar.ErrWriteTooLong] once those bytes are
    written. *)
Definition add_archive (w : world) (dst : File) (ta : tarAppender)
    (path : string) : tarAppender * option error :=
  let w := holding w dst (tar_written (tw_members (ta_tarWriter ta))) in
  match add w ta path path with
  | (ta, Some e) => (ta, Some e)
  | (ta, None) => (ta, Some ErrWriteTooLong)
  end.

(** The walk of [tarDir] over the tree, the archive [dst] growing as
    members are written: the paths before the archive itself are added
    as they are found; when the walk comes to the archive (it lies in
    the tree it archives), [add_archive] ends it. *)
Definition walk_tree (w : world) (dst : File) (paths : list string)
  : tarAppender * option error :=
  let visited := before w dst paths in
  match walk_add w newAppender visited with
  | (ta, Some e) => (ta, Some e)
  | (ta, None) =>
      match drop (length visited) paths with
      | archive :: _ => add_archive w dst ta archive
      | [] => (ta, None)
      end
  end.

(** [tarDir].  The deferred [err = ta.tarWriter.Close ()] replaces the
    error of the walk; [Close] completes the archive in [dst]. *)
Definition tarDir (w : world) (dir : File)
  : world * option File * option error :=
  match File_Stat w dir with
  | inl e => (w, None, Some e)
  | inr dirInfo =>
      let dirName := f_name dir in
      let dstName := concat [dirName; ".tar"]%string in
      let dstName := genUnusedFilename w dstName in
      match create w dstName (fi_Mode dirInfo) with
      | (w, None, err) => (w, None, err)
      | (w, Some dst, _) =>
          let '(ta, _) := walk_tree w dst (Walk w dirName) in
          let '(w, werr) :=
            File_Write w dst (tar_encode (tw_members (ta_tarWriter ta))) in
          let err := match tw_Close (ta_tarWriter ta) with
                     | Some e => Some e
                     | None => werr
                     end in
          match err with
          | None =>
              let '(dst, err) := os_Open w dstName in (w, dst, err)
          | Some e => (w, Some dst, Some e)
          end
      end
  end.

(** The calls [untar] makes to create what it extracts. *)
Inductive oscall : Type :=
| CallMkdirAll (name : string) (perm : Z)
| CallCreate (name : string) (perm : Z)
| CallLink (oldname newname : string)
| CallSymlink (oldname newname : string).

(** One iteration of [untar]'s loop after [tr.Next] returned the
    member's header: the world, the calls made, and [err] as the
    switch leaves it.  A [break] leaves the switch, not the loop. *)
Definition untar_member (w : world) (originName dstName : string)
    (m : member) : world * list oscall * option error :=
  let hdr := m_hdr m in
  let name := Name hdr in
  let name := if negb (String.eqb dstName originName)
              then Replace1 name originName dstName else name in
  match Typeflag hdr with
  | TypeDir =>
      let '(w, err) := os_MkdirAll w name (Mode hdr) in
      (w, [CallMkdirAll name (Mode hdr)], err)
  | TypeReg | TypeRegA =>
      match create w name (Mode hdr) with
      | (w, None, err) => (w, [CallCreate name (Mode hdr)], err)
      | (w, Some f, _) =>
          let '(w, err) := File_Write w f (m_body m) in
          (w, [CallCreate name (Mode hdr)], err)
      end
  | TypeLink =>
      let '(w, err) := os_Link w (Linkname hdr) name in
      (w, [CallLink (Linkname hdr) name], err)
  | TypeSymlink =>
      let '(w, err) := os_Symlink w (Linkname hdr) name in
      (w, [CallSymlink (Linkname hdr) name], err)
  | _ => (w, [], None)
  end.

(** The loop of [untar] over the members [tr.Next] yields; [final] is
    the error that ends the stream ([None] for [io.EOF]).  Each
    [tr.Next] assigns [err] anew, so what a member's extraction left
    in it is lost. *)
Fixpoint untar_loop (w : world) (originName dstName : string)
    (ms : list member) (final : option error)
  : world * list oscall * option error :=
  match ms with
  | [] => (w, [], final)
  | m :: ms' =>
      let '(w, calls, _) := untar_member w originName dstName m in
      let '(w, calls', err) :=
        untar_loop w originName dstName ms' final in
      (w, calls ++ calls', err)
  end.

(** [untar] *)
Definition untar (w : world) (file : File)
  : world * list oscall * option error :=
  match File_Stat w file with
  | inl e => (w, [], Some e)
  | inr fi =>
      let name := fi_name fi in
      let originName := TrimSuffix name ".tar" in
      let dstName := genUnusedFilename w originName in
      let '(_, bytes, rerr) := File_ReadRest w file in
      let '(members, final) := tar_decode bytes in
      let final := match rerr with Some e => Some e | None => final end in
      let '(w, calls, err) :=
        untar_loop w originName dstName members final in
      match err with
      | Some e => (w, calls, Some (ErrExtract e name))
      | None => (w, calls, None)
      end
  end.

(** The default case of [analyze]'s switch: compress [file]. *)
Definition analyze_compress (w : world) (file : File)
  : world * File * outcome :=
  let '(w, file, sz, err) := snap w file in
  match err with
  | None => (w, file, Returned None)
  | Some _ =>
      (* If snap() failed, try the safer function snapSafe(). *)
      match sz with
      | None => (w, file, Panicked)        (* sz.Name () on a nil file *)
      | Some sz =>
          let '(w, _) := os_Remove w (f_name sz) in
          let '(w, file, _, err) := snapSafe w file in
          match err with
          | Some e => (w, file, Returned (Some e))
          | None => (w, file, Returned None)
          end
      end
  end.

(** [analyze] *)
Definition analyze (w : world) (filename : string) : world * outcome :=
  match os_Open w filename with
  | (None, err) => (w, Returned err)
  | (Some file, _) =>
      if isSz w file then
        match unsnap w file with
        | (w, _, _, Some e) => (w, Returned (Some e))
        | (w, _, None, None) => (w, Returned None)
        | (w, _, Some uncompressed, None) =>
            if negb (isTar w uncompressed) then (w, Returned None)
            else
              match untar w uncompressed with
              | (w, _, Some e) => (w, Returned (Some e))
              | (w, _, None) =>
                  (* deferred: remove the uncompressed tar archive *)
                  let '(w, _) := os_Remove w (f_name uncompressed) in
                  (w, Returned None)
              end
        end
      else if isDir w file then
        match tarDir w file with
        | (w, _, Some e) => (w, Returned (Some e))
        | (w, None, None) => (w, Panicked)
        | (w, Some tarfile, None) =>
            let '(w, _, res) := analyze_compress w tarfile in
            (* deferred: close and remove the temporary tar archive;
               the [err] it tests is the one [tarDir] returned *)
            let '(w, _) := os_Remove w (f_name tarfile) in
            (w, res)
        end
      else
        let '(w, _, res) := analyze_compress w file in (w, res)
  end.

(** [main]: the world after the loop over [trgtFiles], the errors
    printed, and whether a call of [analyze] panicked. *)
Fixpoint main_loop (quiet : bool) (w : world) (files : list string)
  : world * list error * bool :=
  match files with
  | [] => (w, [], false)
  | f :: files' =>
      match analyze w f with
      | (w, Panicked) => (w, [], true)
      | (w, Returned err) =>
          let '(w, printed, crashed) := main_loop quiet w files' in
          match err with
          | Some e => (w, if quiet then printed else e :: printed, crashed)
          | None => (w, printed, crashed)
          end
      end
  end.

Definition main (g : globals) (w : world) : world * list error * bool :=
  main_loop (doQuiet g) w (trgtFiles g).

End WithExtern.
End Sz.

(** ** Terms in which the properties are stated *)

Module Terms.
Import GoLib Os Tar Sz.

(** The key under which [add] looks a path up in [hardLinks]: the
    inode number of a regular file with more than one link. *)
Definition link_key (w : world) (path : string) : option Z :=
  match os_Lstat w path with
  | inr fi =>
      if IsRegular (fi_Mode fi) && (1 <? uint32 (st_nlink (fi_sys fi)))
      then Some (uint64 (fi_ino fi)) else None
  | inl _ => None
  end.

(** [hardLinks] after a successful [add]. *)
Definition links_step (w : world) (links : gmap Z string)
    (path : string) : gmap Z string :=
  match link_key w path with
  | Some key =>
      match links !! key with
      | Some _ => links
      | None => <[key := path]> links
      end
  | None => links
  end.

(** Appending [b] to the data of an inode. *)
Definition append_data (i : inode) (b : list byte) : inode :=
  Inode (st_mode i) (st_nlink i) (st_rdev i) (i_data i ++ b) (i_target i)
        (i_caps i).

(** The world after a file [name] with bytes [data] has been created
    in [w]. *)
Definition with_new_file (w : world) (name : string) (mode : Z)
    (data : list byte) : world :=
  World (<[name := fresh (dom (inodes w))]> (dirents w))
        (<[fresh (dom (inodes w))
           := Inode (Z.lor S_IFREG (masked (umask w) mode)) 1 0 data ""
                    None]>
           (inodes w))
        false (memlimit w) (umask w).

(** The handle [os.Open] returns for it. *)
Definition new_file (w : world) (name : string) : File :=
  mkFile name (fresh (dom (inodes w))) 0 false.

(** The name [unsnap] proposes for the decompressed file. *)
Definition unsnap_name (src : File) : string :=
  let srcName := basename (f_name src) in
  if String.eqb (TrimSuffix srcName ".sz") srcName
  then concat [srcName; "-uncompressed"]%string
  else TrimSuffix srcName ".sz".

(** The packing of a Linux device number that [devmajor] and [devminor]
    undo: the major number in bits 8 to 19, the minor number in bits 0
    to 7 and 20 to 31. *)
Definition makedev (major minor : Z) : Z :=
  Z.lor (Z.lor (Z.shiftl (Z.land major 0xfff) 8) (Z.land minor 0xff))
        (Z.shiftl (Z.land minor 0xfff00) 12).

End Terms.

(** ** Sample instances and worlds used in the examples *)

Module Samples.
Import GoLib Os Tar Sz Terms.

(** A host that knows the media types of [.txt] and [.html]; a stored
    (uncompressed) codec; a tar writer that accepts every header. *)
#[local] Instance sampleExtern : Extern := {|
  TypeByExtension e :=
    if String.eqb e ".txt" then "text/plain; charset=utf-8"%string
    else if String.eqb e ".html" then "text/html; charset=utf-8"%string
    else EmptyString;
  sz_writer := unit;
  sz_NewWriter := tt;
  sz_Write _ p := (tt, p);
  sz_decode b := (b, None);
  tar_header_ok _ := true;
  tar_written _ := [];
  tar_encode _ := [];
  tar_decode _ := ([], None);
  Walk _ _ := []
|}.

Definition plainHeader : Header :=
  mkHeader "d/" 0x1ed 0 TypeDir "" 0 0 ∅.

(** A regular file with mode [0644] and the given bytes. *)
Definition fileInode (data : list byte) : inode :=
  Inode (Z.lor S_IFREG 0x1a4) 1 0 data "" None.

(** A world holding the file [f] and a symbolic link [f.sz] whose
    target, [gone], is missing. *)
Definition danglingWorld : world :=
  World {[ "f"%string := 1; "f.sz"%string := 2 ]}
        {[ 1 := fileInode [x68; x69];
           2 := Inode (Z.lor S_IFLNK 0x1ff) 1 0 [] "gone" None ]}
        false 1024 0.

(** A world holding one file, [a.sz]. *)
Definition oneFileWorld : world :=
  World {[ "a.sz"%string := 1 ]} {[ 1 := fileInode [] ]} false 0 0.

(** A world in which [d/a], [d/b] and [d/c] are three names of one file
    holding [hi]. *)
Definition threeLinksWorld : world :=
  World {[ "d/a"%string := 5; "d/b"%string := 5; "d/c"%string := 5 ]}
        {[ 5 := Inode (Z.lor S_IFREG 0x1a4) 3 0 [x68; x69] "" None ]}
        false 0 0.

(** An archive [d.tar] of a directory [d] holding [a.txt] ([hi]) and a
    hard link [b.txt] to it, as [tarDir] writes it. *)
Definition dMembers : list member :=
  [ mkMember (mkHeader "d/" 0x1ed 0 TypeDir "" 0 0 ∅) [];
    mkMember (mkHeader "d/a.txt" 0x1a4 2 TypeReg "" 0 0 ∅) [x68; x69];
    mkMember (mkHeader "d/b.txt" 0x1a4 0 TypeLink "d/a.txt" 0 0 ∅) [] ].

(** [sampleExtern] with a tar reader that yields [dMembers]. *)
#[local] Instance dTarExtern : Extern := {|
  TypeByExtension := TypeByExtension (Extern := sampleExtern);
  sz_writer := unit;
  sz_NewWriter := tt;
  sz_Write _ p := (tt, p);
  sz_decode b := (b, None);
  tar_header_ok _ := true;
  tar_written _ := [];
  tar_encode _ := [];
  tar_decode _ := (dMembers, None);
  Walk _ _ := []
|}.

(** A world that holds the archive [d.tar] and, from an earlier
    extraction, a directory [d] with a file [d/a.txt] holding [old]. *)
Definition collidingWorld : world :=
  World {[ "d.tar"%string := 1; "d"%string := 2; "d/a.txt"%string := 3 ]}
        {[ 1 := fileInode [];
           2 := Inode (Z.lor S_IFDIR 0x1ed) 2 0 [] "" None;
           3 := fileInode [x6f; x6c; x64] ]}
        false 0 0.

Definition dTarFile : File := mkFile "d.tar" 1 0 false.

(** A world holding one file [f] with the bytes of [hello], where
    [ioutil.ReadAll] can buffer [mem] bytes. *)
Definition helloWorld (mem : nat) : world :=
  World {[ "f"%string := 1 ]}
        {[ 1 := fileInode [x68; x65; x6c; x6c; x6f] ]} false mem 0.

(** The same, where nothing can be created. *)
Definition readonlyWorld : world :=
  World {[ "f"%string := 1 ]}
        {[ 1 := fileInode [x68; x65; x6c; x6c; x6f] ]} true 1024 0.

Definition fFile : File := mkFile "f" 1 0 false.

(** A world holding one file, [notes.txt]. *)
Definition notesWorld : world :=
  World {[ "notes.txt"%string := 1 ]} {[ 1 := fileInode [] ]} false 0 0.

(** A block device whose [st_rdev] packs major 259 and minor 65537. *)
Definition blockDevice : inode :=
  Inode (Z.lor S_IFBLK 0x1b0) 1 (makedev 259 65537) [] "" None.

(** A directory [d] holding a symbolic link [d/l] to [a.txt]. *)
Definition linkWorld : world :=
  World {[ "d"%string := 1; "d/l"%string := 2 ]}
        {[ 1 := Inode (Z.lor S_IFDIR 0x1ed) 2 0 [] "" None;
           2 := Inode (Z.lor S_IFLNK 0x1ff) 1 0 [] "a.txt" None ]}
        false 1024 0.

Definition dFile : File := mkFile "d" 1 0 false.

(** A directory opened as [d/], holding a file [d/a] ([hi]). *)
Definition slashWorld : world :=
  World {[ "d/"%string := 1; "d/a"%string := 2 ]}
        {[ 1 := Inode (Z.lor S_IFDIR 0x1ed) 2 0 [] "" None;
           2 := fileInode [x68; x69] ]}
        false 1024 0.

Definition dSlashFile : File := mkFile "d/" 1 0 false.

(** [sampleExtern] with a walk that visits the root, then [.tar] and
    [a] under it, and a tar writer that writes, for each member, one
    byte of header and the body, and two bytes to close the archive. *)
#[local] Instance inTreeExtern : Extern := {|
  TypeByExtension := TypeByExtension (Extern := sampleExtern);
  sz_writer := unit;
  sz_NewWriter := tt;
  sz_Write _ p := (tt, p);
  sz_decode b := (b, None);
  tar_header_ok _ := true;
  tar_written ms := flat_map (fun m => x00 :: m_body m) ms;
  tar_encode ms := flat_map (fun m => x00 :: m_body m) ms ++ [x00; x00];
  tar_decode _ := ([], None);
  Walk _ root := [root; root +:+ ".tar"; root +:+ "a"]
|}.

(** A world holding [a.sz] and [a(1).sz]. *)
Definition twoArchivesWorld : world :=
  World {[ "a.sz"%string := 1; "a(1).sz"%string := 2 ]}
        {[ 1 := fileInode []; 2 := fileInode [] ]} false 0 0.

(** A codec that frames its stream: the first write is preceded by the
    snappy signature, and the reader accepts only streams that start
    with it.  The walk visits the root only. *)
#[local] Instance framedExtern : Extern := {|
  TypeByExtension := TypeByExtension (Extern := sampleExtern);
  sz_writer := bool;
  sz_NewWriter := false;
  sz_Write started p := (true, if started then p else szSig ++ p);
  sz_decode b :=
    if (10 <=? length b)%nat && sig_loop 0 (take 10 b) szSig
    then (drop 10 b, None) else ([], Some ErrCorrupt);
  tar_header_ok _ := true;
  tar_written ms := List.concat (map m_body ms);
  tar_encode ms := List.concat (map m_body ms);
  tar_decode _ := ([], None);
  Walk _ root := [root]
|}.

(** A reader that decodes two bytes after the signature and then
    reports a corrupt stream. *)
#[local] Instance corruptExtern : Extern := {|
  TypeByExtension := TypeByExtension (Extern := sampleExtern);
  sz_writer := unit;
  sz_NewWriter := tt;
  sz_Write _ p := (tt, p);
  sz_decode b := (take 2 (drop 10 b), Some ErrCorrupt);
  tar_header_ok _ := true;
  tar_written _ := [];
  tar_encode _ := [];
  tar_decode _ := ([], None);
  Walk _ _ := []
|}.

(** A world holding [a.sz]: the snappy signature followed by [hi]. *)
Definition archiveWorld : world :=
  World {[ "a.sz"%string := 1 ]}
        {[ 1 := fileInode (szSig ++ [x68; x69]) ]} false 0 0.

(** A world holding the archive [d.tar] where nothing can be created. *)
Definition readonlyTarWorld : world :=
  World {[ "d.tar"%string := 1 ]} {[ 1 := fileInode [] ]} true 0 0.

(** A world holding [d.tar.sz], whose bytes start with the snappy
    signature and carry the tar signature at offset 257. *)
Definition tarSzWorld : world :=
  World {[ "d.tar.sz"%string := 1 ]}
        {[ 1 := fileInode (szSig ++ replicate 247 x00 ++ tarSig) ]}
        false 0 0.

End Samples.

(* ===================================================================== *)
(** * Part II: properties                                                 *)
(* ===================================================================== *)

Module SzSpec.
Import GoLib Os Tar Sz Terms.

Lemma IsRegular_not_dir m : IsRegular m = true -> IsDir m = false.
Proof. unfold IsRegular, IsDir. now destruct (kind_of_mode m). Qed.

Lemma IsRegular_not_symlink m : IsRegular m = true -> IsSymlink m = false.
Proof. unfold IsRegular, IsSymlink. now destruct (kind_of_mode m). Qed.

(** ** Following symbolic links: [os.Stat] against [os.Lstat] *)

Lemma follow_S w fuel name :
  follow w (S fuel) name
  = match os_Lstat w name with
    | inl e => inl e
    | inr fi =>
        if IsSymlink (fi_Mode fi) then
          match follow w fuel (i_target (fi_sys fi)) with
          | inl e => inl e
          | inr fi' => inr (mkFileInfo (fi_name fi) (fi_ino fi') (fi_sys fi'))
          end
        else inr fi
    end.
Proof. reflexivity. Qed.

Lemma resolve_S w fuel name :
  resolve w (S fuel) name
  = match os_Lstat w name with
    | inl _ => inr name
    | inr fi =>
        if IsSymlink (fi_Mode fi)
        then resolve w fuel (i_target (fi_sys fi)) else inr name
    end.
Proof. reflexivity. Qed.

Lemma follow_missing w fuel name :
  dirents w !! name = None -> follow w fuel name = inl ENOENT.
Proof.
  intros H. destruct fuel; simpl; unfold os_Lstat; now rewrite H.
Qed.

Lemma follow_plain w fuel name fi :
  os_Lstat w name = inr fi -> IsSymlink (fi_Mode fi) = false ->
  follow w fuel name = inr fi.
Proof. intros HL Hs. destruct fuel; simpl; now rewrite HL, Hs. Qed.

Lemma os_Stat_missing w name :
  dirents w !! name = None -> os_Stat w name = inl ENOENT.
Proof. apply follow_missing. Qed.

Lemma os_Stat_plain w name fi :
  os_Lstat w name = inr fi -> IsSymlink (fi_Mode fi) = false ->
  os_Stat w name = inr fi.
Proof. apply follow_plain. Qed.

Lemma resolve_missing w fuel name :
  dirents w !! name = None -> resolve w fuel name = inr name.
Proof.
  intros H. destruct fuel; simpl; unfold os_Lstat; now rewrite H.
Qed.

Lemma resolve_plain w fuel name fi :
  os_Lstat w name = inr fi -> IsSymlink (fi_Mode fi) = false ->
  resolve w fuel name = inr name.
Proof. intros HL Hs. destruct fuel; simpl; now rewrite HL, Hs. Qed.

(** A dangling link: [os.Lstat] finds it, [os.Stat] does not. *)
Lemma os_Stat_dangling w name fi :
  os_Lstat w name = inr fi -> IsSymlink (fi_Mode fi) = true ->
  dirents w !! i_target (fi_sys fi) = None ->
  os_Stat w name = inl ENOENT.
Proof.
  intros HL Hs Ht. unfold os_Stat, maxSymlinks.
  rewrite follow_S, HL, Hs. now rewrite (follow_missing w _ _ Ht).
Qed.

Lemma exists_missing w name :
  dirents w !! name = None -> exists_ w name = false.
Proof. intros H. unfold exists_. now rewrite os_Stat_missing. Qed.

(** ** Command line: [filter] and [flags] *)

Lemma matchesOr_In s l : matchesOr s l = true <-> In s l.
Proof.
  induction l as [|c l IH]; simpl.
  - split; [discriminate | tauto].
  - destruct (String.eqb_spec s c) as [->|Hne].
    + split; auto.
    + rewrite IH. split; [auto | intros [E|E]; [congruence | exact E]].
Qed.

Lemma slcHas_single slc s : slcHas slc [s] = true <-> In s slc.
Proof.
  induction slc as [|x slc IH]; simpl.
  - split; [discriminate | tauto].
  - destruct (String.eqb_spec x s) as [->|Hne].
    + split; auto.
    + rewrite IH. split; [auto | intros [E|E]; [congruence | exact E]].
Qed.

Lemma filter_loop_subset slc rest filtered :
  (forall s, In s rest -> In s slc) ->
  filter_loop slc rest filtered = filtered.
Proof.
  revert filtered.
  induction rest as [|s rest IH]; intros filtered Hsub; simpl.
  - reflexivity.
  - assert (Hs : slcHas slc [s] = true).
    { apply slcHas_single, Hsub. now left. }
    rewrite Hs. apply IH. intros s' Hs'. apply Hsub. now right.
Qed.

Lemma filter_nil slc args : filter slc args = [].
Proof. unfold filter. now apply filter_loop_subset. Qed.

(** C9.  [filter] returns the empty slice for every slice and every
    argument list, because it tests each element for membership in the
    slice itself.  So under quiet mode [flags] either exits with the help
    text (fewer than two arguments) or leaves [trgtFiles] empty, and
    [main] then calls [analyze] on no path: the world is unchanged,
    nothing is printed and nothing panics. *)
Theorem quiet_mode_processes_nothing {ext : Extern} :
  (forall slc args, filter slc args = []) /\
  (forall osArgs a,
      match flags osArgs true a with
      | None => (length osArgs < 2)%nat
      | Some g =>
          doQuiet g = true /\ trgtFiles g = [] /\
          forall w, main g w = (w, [], false)
      end).
Proof.
  split; [exact filter_nil|].
  intros osArgs a. unfold flags.
  destruct (Nat.ltb_spec (length osArgs) 2) as [Hlt|Hge]; [exact Hlt|].
  simpl. rewrite !filter_nil.
  destruct (negb (String.eqb a "")); simpl; auto.
Qed.

(** ** Device numbers: [devmajor], [devminor], [tarSetHeader] *)

Lemma devmajor_range d : 0 <= devmajor d < 2 ^ 12.
Proof.
  unfold devmajor. change 0xfff with (Z.ones 12).
  rewrite Z.land_ones by lia. apply Z.mod_pos_bound. lia.
Qed.

Lemma devminor_range d : 0 <= d -> 0 <= devminor d < 2 ^ 20.
Proof.
  intros Hd. unfold devminor.
  assert (Hs : 0 <= Z.shiftr d 12) by (apply Z.shiftr_nonneg; lia).
  assert (H1 : 0 <= Z.land d 0xff) by (apply Z.land_nonneg; lia).
  assert (H2 : 0 <= Z.land (Z.shiftr d 12) 0xfff00)
    by (apply Z.land_nonneg; lia).
  split; [apply Z.lor_nonneg; lia|].
  apply Z.log2_lt_cancel. rewrite Z.log2_pow2 by lia.
  rewrite Z.log2_lor by assumption.
  pose proof (Z.log2_land d 0xff Hd ltac:(lia)) as B1.
  pose proof (Z.log2_land (Z.shiftr d 12) 0xfff00 Hs ltac:(lia)) as B2.
  change (Z.log2 0xff) with 7 in B1. change (Z.log2 0xfff00) with 19 in B2.
  lia.
Qed.

Lemma int64_small x : 0 <= x < 2 ^ 63 -> int64 x = x.
Proof.
  intros H. unfold int64. rewrite Z.mod_small; lia.
Qed.

Lemma uint64_small x : 0 <= x < 2 ^ 64 -> uint64 x = x.
Proof. intros H. unfold uint64. now rewrite Z.mod_small. Qed.

(** For a character or block device the header carries the packed
    major and minor numbers of [st_rdev]. *)
Lemma tarSetHeader_device hdr ino s :
  kind_of_mode (st_mode s) = KCharDevice \/
  kind_of_mode (st_mode s) = KBlockDevice ->
  0 <= st_rdev s < 2 ^ 64 ->
  let '(hdr', _, _, err) := tarSetHeader hdr (Some (ino, s)) in
  err = None /\
  Devmajor hdr' = Z.land (Z.shiftr (st_rdev s) 8) 0xfff /\
  Devminor hdr' =
    Z.lor (Z.land (st_rdev s) 0xff)
          (Z.land (Z.shiftr (st_rdev s) 12) 0xfff00).
Proof.
  intros Hk Hd. unfold tarSetHeader.
  assert (Hbits : negb (Z.land (st_mode s) S_IFBLK =? 0)
                  || negb (Z.land (st_mode s) S_IFCHR =? 0) = true).
  { unfold kind_of_mode in Hk.
    assert (E : Z.land (Z.land (st_mode s) S_IFMT) S_IFBLK
                = Z.land (st_mode s) S_IFBLK).
    { rewrite <- Z.land_assoc. reflexivity. }
    assert (E' : Z.land (Z.land (st_mode s) S_IFMT) S_IFCHR
                 = Z.land (st_mode s) S_IFCHR).
    { rewrite <- Z.land_assoc. reflexivity. }
    destruct (Z.eqb_spec (Z.land (st_mode s) S_IFMT) S_IFBLK) as [Eb|_].
    - rewrite Eb in E. rewrite <- E. reflexivity.
    - destruct (Z.eqb_spec (Z.land (st_mode s) S_IFMT) S_IFCHR) as [Ec|_].
      + rewrite Ec in E'. rewrite <- E'. apply orb_true_r.
      + repeat match type of Hk with
               | context [if ?b then _ else _] => destruct b
               end; destruct Hk; discriminate. }
  rewrite Hbits. simpl.
  rewrite (uint64_small (st_rdev s)) by exact Hd.
  pose proof (devmajor_range (st_rdev s)).
  pose proof (devminor_range (st_rdev s) ltac:(lia)).
  rewrite !int64_small by lia.
  auto.
Qed.

(** Regular files and named pipes keep the fields [FileInfoHeader]
    left at zero. *)
Lemma tarSetHeader_regular_fifo hdr ino s :
  Z.land (st_mode s) S_IFMT = S_IFREG \/
  Z.land (st_mode s) S_IFMT = S_IFIFO ->
  tarSetHeader hdr (Some (ino, s))
  = (hdr, uint32 (st_nlink s), uint64 ino, None).
Proof.
  intros Hm. unfold tarSetHeader.
  assert (E : Z.land (Z.land (st_mode s) S_IFMT) S_IFBLK
              = Z.land (st_mode s) S_IFBLK).
  { rewrite <- Z.land_assoc. reflexivity. }
  assert (E' : Z.land (Z.land (st_mode s) S_IFMT) S_IFCHR
               = Z.land (st_mode s) S_IFCHR).
  { rewrite <- Z.land_assoc. reflexivity. }
  destruct Hm as [Hm|Hm]; rewrite Hm in E, E'; rewrite <- E, <- E';
    reflexivity.
Qed.

(** ** Format sniffing: [isSz] and [isTar] *)

Lemma sig_loop_spec bytes sig i :
  (i + length bytes = length sig)%nat ->
  sig_loop i bytes sig = true <-> bytes = drop i sig.
Proof.
  revert i. induction bytes as [|b bytes IH]; intros i Hlen; simpl in *.
  - rewrite drop_ge by lia. tauto.
  - destruct (lookup_lt_is_Some_2 sig i ltac:(lia)) as [x Hx].
    rewrite (nth_lookup_Some _ _ _ _ Hx), (drop_S _ _ _ Hx).
    destruct (Byte.eqb b x) eqn:E; simpl.
    + apply byte_dec_bl in E. subst x.
      rewrite (IH (S i)) by lia.
      split; [intros ->; reflexivity | intros [= ->]; reflexivity].
    + split; [discriminate|]. intros [= -> _].
      rewrite (byte_dec_lb eq_refl) in E. discriminate.
Qed.

Lemma sniff_spec w file (n off : nat) (sig : list byte) :
  length sig = n ->
  (let '(bytes, got) := File_ReadAt w file n off in
   if (got <? n)%nat then false else sig_loop 0 bytes sig) = true
  <-> take n (drop off (file_bytes w file)) = sig.
Proof.
  intros Hn. unfold File_ReadAt.
  set (got := take n (drop off (file_bytes w file))).
  assert (Hle : (length got <= n)%nat) by (unfold got; rewrite length_take; lia).
  destruct (Nat.ltb_spec (length got) n) as [Hlt|Hge].
  - split; [discriminate|]. intros E. rewrite E in Hlt. lia.
  - replace (n - length got)%nat with 0%nat by lia. simpl.
    rewrite app_nil_r, sig_loop_spec by (simpl; lia).
    reflexivity.
Qed.

(** C5.  [isSz] is true exactly when the first ten bytes readable from
    the file are the snappy stream identifier, and [isTar] exactly when
    the five bytes at offset 257 are [ustar].  Both are [bool]: a short
    read, or a difference at a single position, gives [false], never an
    error. *)
Theorem sniffers_match_exactly_the_signatures w file :
  (isSz w file = true <-> take 10 (file_bytes w file) = szSig) /\
  (isTar w file = true
   <-> take 5 (drop 257 (file_bytes w file)) = tarSig) /\
  ((length (file_bytes w file) < 10)%nat -> isSz w file = false) /\
  (forall i, (i < 10)%nat ->
             file_bytes w file !! i <> szSig !! i -> isSz w file = false) /\
  ((length (file_bytes w file) < 257 + 5)%nat -> isTar w file = false) /\
  (forall i, (i < 5)%nat ->
             file_bytes w file !! (257 + i)%nat <> tarSig !! i ->
             isTar w file = false).
Proof.
  assert (Hsz : isSz w file = true <-> take 10 (file_bytes w file) = szSig).
  { exact (sniff_spec w file 10 0 szSig eq_refl). }
  assert (Htar : isTar w file = true
                 <-> take 5 (drop 257 (file_bytes w file)) = tarSig).
  { exact (sniff_spec w file 5 257 tarSig eq_refl). }
  split; [exact Hsz|]. split; [exact Htar|].
  split; [|split; [|split]].
  - intros Hlen. apply not_true_is_false. intros E. apply Hsz in E.
    apply (f_equal length) in E. rewrite length_take in E.
    change (length szSig) with 10%nat in E. lia.
  - intros i Hi Hne. apply not_true_is_false. intros E. apply Hsz in E.
    apply Hne. rewrite <- E. now rewrite lookup_take_lt.
  - intros Hlen. apply not_true_is_false. intros E. apply Htar in E.
    apply (f_equal length) in E.
    rewrite length_take, length_drop in E.
    change (length tarSig) with 5%nat in E. lia.
  - intros i Hi Hne. apply not_true_is_false. intros E. apply Htar in E.
    apply Hne. rewrite <- E. now rewrite lookup_take_lt, lookup_drop.
Qed.

(** ** Strings: slices, suffixes and [filepath.Ext] *)

Abbreviation chars := list_ascii_of_string.

Lemma append_cons c a b : String c a +:+ b = String c (a +:+ b).
Proof. reflexivity. Qed.

Lemma chars_app a b : chars (a +:+ b) = chars a ++ chars b.
Proof.
  induction a as [|c a IH]; [reflexivity|].
  rewrite append_cons. simpl. f_equal. exact IH.
Qed.

Lemma chars_length s : length (chars s) = String.length s.
Proof. induction s as [|c s IH]; simpl; [reflexivity | now rewrite IH]. Qed.

Lemma chars_inj a b : chars a = chars b -> a = b.
Proof.
  intros E. rewrite <- (string_of_list_ascii_of_string a),
    <- (string_of_list_ascii_of_string b). now rewrite E.
Qed.

Lemma chars_substring s a n :
  chars (String.substring a n s) = take n (drop a (chars s)).
Proof.
  revert a n. induction s as [|c s IH]; intros a n.
  - destruct a, n; reflexivity.
  - destruct a as [|a]; simpl.
    + destruct n as [|n]; simpl; [reflexivity|].
      now rewrite (IH 0%nat n).
    + apply IH.
Qed.

Lemma chars_slice s a b : chars (slice s a b) = take (b - a) (drop a (chars s)).
Proof. apply chars_substring. Qed.

Lemma append_nil_r s : s +:+ "" = s.
Proof.
  induction s as [|c s IH]; [reflexivity|].
  rewrite append_cons. f_equal. exact IH.
Qed.

Lemma append_assoc a b c : (a +:+ b) +:+ c = a +:+ (b +:+ c).
Proof.
  induction a as [|x a IH]; [reflexivity|].
  rewrite !append_cons. f_equal. exact IH.
Qed.

Lemma length_append a b :
  String.length (a +:+ b) = (String.length a + String.length b)%nat.
Proof.
  induction a as [|x a IH]; [reflexivity|].
  rewrite append_cons. simpl. f_equal. exact IH.
Qed.

Lemma slice_split s i :
  (i <= String.length s)%nat ->
  slice s 0 i +:+ slice s i (String.length s) = s.
Proof.
  intros Hi. apply chars_inj.
  rewrite chars_app, !chars_slice, <- chars_length. simpl.
  rewrite Nat.sub_0_r, (take_ge (drop i (chars s))).
  - apply take_drop.
  - rewrite length_drop. lia.
Qed.

Lemma length_slice_suffix s i :
  (i <= String.length s)%nat ->
  String.length (slice s i (String.length s)) = (String.length s - i)%nat.
Proof.
  intros Hi. rewrite <- !chars_length, chars_slice, length_take, length_drop.
  rewrite chars_length. lia.
Qed.

(** [Ext] returns the empty string or the suffix from a dot on. *)
Lemma Ext_scan_cases path n :
  (n <= String.length path)%nat ->
  Ext_scan path n = "" \/
  exists i, (i < n)%nat /\ Ext_scan path n = slice path i (String.length path).
Proof.
  induction n as [|n IH]; intros Hn; simpl.
  - now left.
  - destruct (String.get n path) as [c|]; [|now left].
    destruct (Ascii.eqb c "/"); [now left|].
    destruct (Ascii.eqb c ".").
    + right. exists n. split; [lia | reflexivity].
    + destruct (IH ltac:(lia)) as [E|(i & Hi & E)]; [now left|].
      right. exists i. split; [lia | exact E].
Qed.

Lemma Ext_cases path :
  Ext path = "" \/
  exists i, (i < String.length path)%nat /\
            Ext path = slice path i (String.length path).
Proof. apply Ext_scan_cases. lia. Qed.

Lemma HasSuffix_slice s i :
  (i <= String.length s)%nat ->
  HasSuffix s (slice s i (String.length s)) = true.
Proof.
  intros Hi. unfold HasSuffix. rewrite length_slice_suffix by exact Hi.
  replace (String.length s - (String.length s - i))%nat with i by lia.
  rewrite String.eqb_refl, andb_true_r. apply Nat.leb_le. lia.
Qed.

Lemma TrimSuffix_slice s i :
  (i <= String.length s)%nat ->
  TrimSuffix s (slice s i (String.length s)) = slice s 0 i.
Proof.
  intros Hi. unfold TrimSuffix.
  rewrite HasSuffix_slice, length_slice_suffix by exact Hi.
  now replace (String.length s - (String.length s - i))%nat with i by lia.
Qed.

(** Stripping the extension off a name and putting it back. *)
Lemma TrimSuffix_Ext s : TrimSuffix s (Ext s) +:+ Ext s = s.
Proof.
  destruct (Ext_cases s) as [E|(i & Hi & E)]; rewrite E.
  - rewrite append_nil_r. unfold TrimSuffix, HasSuffix, slice. simpl.
    rewrite Nat.sub_0_r, Nat.sub_diag.
    destruct (String.eqb _ _); [|reflexivity].
    apply chars_inj. rewrite chars_substring. simpl.
    apply take_ge. rewrite chars_length. lia.
  - rewrite TrimSuffix_slice by lia. apply slice_split. lia.
Qed.

Lemma TrimSuffix_Ext_shorter s :
  Ext s <> "" ->
  (String.length (TrimSuffix s (Ext s)) < String.length s)%nat.
Proof.
  intros Hne.
  pose proof (f_equal String.length (TrimSuffix_Ext s)) as E.
  rewrite length_append in E.
  destruct (Ext s) as [|c e]; [congruence|]. simpl in E. lia.
Qed.

(** ** Names: [splitExt] *)

Section SplitExt.
Context {ext : Extern}.

Lemma concat_cons s l : concat (s :: l) = s +:+ concat l.
Proof. reflexivity. Qed.

Lemma concat_two a b : concat [a; b] = a +:+ b.
Proof. rewrite !concat_cons. simpl. now rewrite append_nil_r. Qed.

Lemma splitExt_loop_S fuel base e :
  splitExt_loop (S fuel) base e =
  if String.eqb (Ext base) "" then (base, e)
  else if String.eqb (TypeByExtension (Ext base)) ""
          && negb (allowed (Ext base))
  then (base, e)
  else splitExt_loop fuel (TrimSuffix base (Ext base))
                     (concat [Ext base; e]).
Proof. reflexivity. Qed.

(** The loop of [splitExt]: with fuel beyond the length of [base] the
    loop ends by itself, on a base whose extension is empty or neither
    a known media type nor allow-listed; every piece it moved to the
    extension chain was, when moved, the [Ext] of what was left, and a
    known media type or allow-listed. *)
Lemma splitExt_loop_spec fuel : forall base exts,
  (String.length base < fuel)%nat ->
  (forall k e, exts !! k = Some e ->
     e = Ext (base +:+ concat (take (S k) exts)) /\ e <> "" /\
     (TypeByExtension e <> "" \/ allowed e = true)) ->
  exists base' exts',
    splitExt_loop fuel base (concat exts) = (base', concat exts') /\
    base' +:+ concat exts' = base +:+ concat exts /\
    (forall k e, exts' !! k = Some e ->
       e = Ext (base' +:+ concat (take (S k) exts')) /\ e <> "" /\
       (TypeByExtension e <> "" \/ allowed e = true)) /\
    (Ext base' = "" \/
     (TypeByExtension (Ext base') = "" /\ allowed (Ext base') = false)).
Proof.
  induction fuel as [|fuel IH]; intros base exts Hfuel Hchain; [lia|].
  rewrite splitExt_loop_S.
  destruct (String.eqb_spec (Ext base) "") as [He|He].
  { exists base, exts. auto. }
  assert (Hstrip :
    TypeByExtension (Ext base) <> "" \/ allowed (Ext base) = true ->
    exists base' exts',
      splitExt_loop fuel (TrimSuffix base (Ext base))
        (concat [Ext base; concat exts]) = (base', concat exts') /\
      base' +:+ concat exts' = base +:+ concat exts /\
      (forall k e, exts' !! k = Some e ->
         e = Ext (base' +:+ concat (take (S k) exts')) /\ e <> "" /\
         (TypeByExtension e <> "" \/ allowed e = true)) /\
      (Ext base' = "" \/
       (TypeByExtension (Ext base') = "" /\ allowed (Ext base') = false))).
  { intros Hok. rewrite concat_two, <- concat_cons.
    destruct (IH (TrimSuffix base (Ext base)) (Ext base :: exts))
      as (b' & e' & Hrun & Hcat & Hch & Hend).
    - pose proof (TrimSuffix_Ext_shorter base He). lia.
    - intros [|k] e Hk.
      + injection Hk as <-.
        change (take 1 (Ext base :: exts)) with [Ext base].
        rewrite concat_cons. change (concat []) with ""%string.
        rewrite append_nil_r, TrimSuffix_Ext. auto.
      + change (take (S (S k)) (Ext base :: exts))
          with (Ext base :: take (S k) exts).
        rewrite concat_cons, <- append_assoc, TrimSuffix_Ext.
        apply Hchain. exact Hk.
    - exists b', e'. split; [exact Hrun|]. split; [|auto].
      rewrite Hcat, concat_cons, <- append_assoc, TrimSuffix_Ext.
      reflexivity. }
  destruct (String.eqb_spec (TypeByExtension (Ext base)) "") as [Hm|Hm].
  - destruct (allowed (Ext base)) eqn:Ha.
    + apply Hstrip. now right.
    + exists base, exts. simpl.
      split; [reflexivity|]. split; [reflexivity|].
      split; [exact Hchain|]. right. rewrite Ha. auto.
  - apply Hstrip. now left.
Qed.

(** More fuel than the length of the name changes nothing: the loop
    of the source, which has no bound, ends. *)
Lemma splitExt_loop_fuel fuel : forall fuel' base e,
  (String.length base < fuel)%nat -> (fuel <= fuel')%nat ->
  splitExt_loop fuel' base e = splitExt_loop fuel base e.
Proof.
  induction fuel as [|fuel IH]; intros fuel' base e Hlen Hle; [lia|].
  destruct fuel' as [|fuel']; [lia|]. rewrite !splitExt_loop_S.
  destruct (String.eqb_spec (Ext base) "") as [He|He]; [reflexivity|].
  destruct (_ && _); [reflexivity|].
  apply IH; [|lia].
  pose proof (TrimSuffix_Ext_shorter base He). lia.
Qed.

(** C7, as the code has it.  [splitExt] strips trailing extensions
    into the extension chain exactly while each is a known media type
    or one of [.tar], [.sz], [.tar.sz]: the base and the chain make up
    the cleaned name, every piece of the chain was the extension of
    what was left when it was stripped and was known or allow-listed,
    and the extension left on the base is empty or neither.  So
    [.tar.sz] goes to the chain as a whole on every host, a known
    media type such as [.txt] is stripped too (the number goes before
    it), and an unknown extension stays in the base. *)
Theorem splitExt_strips_known_or_allowed filename :
  (exists exts,
      splitExt filename = (fst (splitExt filename), concat exts) /\
      fst (splitExt filename) +:+ concat exts = Clean filename /\
      (forall k e, exts !! k = Some e ->
         e = Ext (fst (splitExt filename) +:+ concat (take (S k) exts))
         /\ e <> "" /\
         (TypeByExtension e <> "" \/ allowed e = true)) /\
      (Ext (fst (splitExt filename)) = "" \/
       (TypeByExtension (Ext (fst (splitExt filename))) = "" /\
        allowed (Ext (fst (splitExt filename))) = false))) /\
  splitExt "x.tar.sz" = ("x", ".tar.sz")%string /\
  (TypeByExtension ".txt" <> "" ->
   splitExt "a.txt" = ("a", ".txt")%string) /\
  (TypeByExtension ".zzz" = "" ->
   splitExt "a.zzz" = ("a.zzz", "")%string).
Proof.
  split; [|split; [|split]].
  - unfold splitExt.
    destruct (splitExt_loop_spec (S (String.length (Clean filename)))
                (Clean filename) []) as (b & e & Hrun & Hcat & Hch & Hend).
    + lia.
    + intros k x Hk. rewrite lookup_nil in Hk. discriminate.
    + change (concat []) with ""%string in Hrun, Hcat.
      rewrite append_nil_r in Hcat.
      exists e. rewrite Hrun. simpl. auto.
  - unfold splitExt. cbv [Clean]. simpl.
    change (Ext "x.tar.sz") with ".sz"%string.
    change (allowed ".sz") with true. rewrite andb_false_r. simpl.
    change (Ext (TrimSuffix "x.tar.sz" ".sz")) with ".tar"%string.
    change (allowed ".tar") with true. rewrite andb_false_r. simpl.
    reflexivity.
  - intros Hk. unfold splitExt.
    change (Clean "a.txt") with "a.txt"%string.
    rewrite splitExt_loop_S. change (Ext "a.txt") with ".txt"%string.
    change (String.eqb ".txt" "") with false. cbv iota.
    destruct (String.eqb_spec (TypeByExtension ".txt") "") as [E|_];
      [contradiction|].
    reflexivity.
  - intros Hu. unfold splitExt.
    change (Clean "a.zzz") with "a.zzz"%string.
    rewrite splitExt_loop_S. change (Ext "a.zzz") with ".zzz"%string.
    rewrite Hu. reflexivity.
Qed.

End SplitExt.

(** ** Names: [genUnusedFilename] *)

Section GenUnused.
Context {ext : Extern}.

Lemma genUnusedFilename_loop_S w base e n i filename :
  genUnusedFilename_loop w base e (S n) i filename =
  if exists_ w (concat [base; "("; Itoa i; ")"; e]%string)
  then genUnusedFilename_loop w base e n (i + 1) filename
  else concat [base; "("; Itoa i; ")"; e]%string.
Proof. reflexivity. Qed.

(** The loop returns the candidate unchanged, or a name that does not
    exist. *)
Lemma genUnusedFilename_loop_result w base e filename n : forall i,
  genUnusedFilename_loop w base e n i filename = filename \/
  exists_ w (genUnusedFilename_loop w base e n i filename) = false.
Proof.
  induction n as [|n IH]; intros i; [now left|].
  rewrite genUnusedFilename_loop_S.
  destruct (exists_ w (concat [base; "("; Itoa i; ")"; e]%string)) eqn:E.
  - apply IH.
  - now right.
Qed.

(** When some numbered variant within the loop's range is unused, the
    loop returns an unused name. *)
Lemma genUnusedFilename_loop_finds w base e filename n : forall i j,
  i <= j < i + Z.of_nat n ->
  exists_ w (concat [base; "("; Itoa j; ")"; e]%string) = false ->
  exists_ w (genUnusedFilename_loop w base e n i filename) = false.
Proof.
  induction n as [|n IH]; intros i j Hj Hfree; [lia|].
  rewrite genUnusedFilename_loop_S.
  destruct (exists_ w (concat [base; "("; Itoa i; ")"; e]%string)) eqn:E.
  - apply (IH (i + 1) j); [|exact Hfree].
    assert (j <> i) by (intros ->; congruence). lia.
  - exact E.
Qed.

(** When every numbered variant within the range exists, the loop
    runs out and the candidate comes back. *)
Lemma genUnusedFilename_loop_exhausted w base e filename n : forall i,
  (forall j, i <= j < i + Z.of_nat n ->
             exists_ w (concat [base; "("; Itoa j; ")"; e]%string) = true) ->
  genUnusedFilename_loop w base e n i filename = filename.
Proof.
  induction n as [|n IH]; intros i Hall; [reflexivity|].
  rewrite genUnusedFilename_loop_S, (Hall i) by lia.
  apply IH. intros j Hj. apply Hall. lia.
Qed.

Lemma genUnusedFilename_fresh w filename :
  exists_ w filename = false -> genUnusedFilename w filename = filename.
Proof. intros H. unfold genUnusedFilename. now rewrite H. Qed.

(** The first numbered variant is taken when it is free. *)
Lemma genUnusedFilename_first w filename :
  exists_ w filename = true ->
  exists_ w (concat [fst (splitExt filename); "("; Itoa 1; ")";
                     snd (splitExt filename)]%string) = false ->
  genUnusedFilename w filename
  = concat [fst (splitExt filename); "("; Itoa 1; ")";
            snd (splitExt filename)]%string.
Proof.
  intros He Hfree. unfold genUnusedFilename. rewrite He. cbv [negb].
  destruct (splitExt filename) as [base e]. cbv [fst snd] in *.
  replace (Z.to_nat (loopBound - 1)) with (S (Z.to_nat (loopBound - 2)))
    by (unfold loopBound; lia).
  now rewrite genUnusedFilename_loop_S, Hfree.
Qed.

Lemma genUnusedFilename_result w filename :
  genUnusedFilename w filename = filename \/
  exists_ w (genUnusedFilename w filename) = false.
Proof.
  unfold genUnusedFilename.
  destruct (exists_ w filename) eqn:E; cbv [negb]; [|now left].
  destruct (splitExt filename) as [base e].
  apply genUnusedFilename_loop_result.
Qed.

Lemma genUnusedFilename_idempotent w filename :
  genUnusedFilename w (genUnusedFilename w filename)
  = genUnusedFilename w filename.
Proof.
  destruct (genUnusedFilename_result w filename) as [E|E].
  - now rewrite !E.
  - now apply genUnusedFilename_fresh.
Qed.

(** The probe is idempotent; a candidate [os.Stat] does not find is
    returned as it is; and when it finds the candidate but not one of
    the numbered variants [base(i)ext], [1 <= i < 20091110230000], the
    result is a path [os.Stat] does not find. *)
Theorem genUnusedFilename_unused_within_bound w filename :
  genUnusedFilename w (genUnusedFilename w filename)
  = genUnusedFilename w filename /\
  (exists_ w filename = false ->
   genUnusedFilename w filename = filename) /\
  (forall i, 1 <= i < 20091110230000 ->
     exists_ w (concat [fst (splitExt filename); "("; Itoa i; ")";
                        snd (splitExt filename)]%string) = false ->
     exists_ w (genUnusedFilename w filename) = false).
Proof.
  split; [apply genUnusedFilename_idempotent|].
  split; [apply genUnusedFilename_fresh|].
  intros i Hi Hfree. unfold genUnusedFilename.
  destruct (exists_ w filename) eqn:E; cbv [negb]; [|exact E].
  destruct (splitExt filename) as [base e]. cbv [fst snd] in Hfree.
  apply (genUnusedFilename_loop_finds w base e filename _ 1 i);
    [|exact Hfree].
  rewrite Z2Nat.id by (unfold loopBound; lia). unfold loopBound. lia.
Qed.

(** C6.  A symbolic link whose target is missing is handed back as
    it is.  [exists] asks [os.Stat], which follows the link and fails,
    so [genUnusedFilename] takes the candidate for unused and returns
    it, although the path exists at the time of the call: [os.Lstat]
    finds the link under the very name returned.  Probing again gives
    the same name, and [create] then opens the path through the link,
    so that the new file appears under the name of the link's
    target. *)
Theorem genUnusedFilename_returns_a_dangling_link w name fi :
  os_Lstat w name = inr fi ->
  IsSymlink (fi_Mode fi) = true ->
  dirents w !! i_target (fi_sys fi) = None ->
  exists_ w name = false /\
  genUnusedFilename w name = name /\
  os_Lstat w (genUnusedFilename w name) = inr fi /\
  genUnusedFilename w (genUnusedFilename w name)
  = genUnusedFilename w name /\
  (readonly w = false -> forall mode,
     create w name mode
     = (with_new_file w (i_target (fi_sys fi)) mode [],
        Some (mkFile name (fresh (dom (inodes w))) 0 false), None)).
Proof.
  intros HL Hs Ht.
  assert (He : exists_ w name = false).
  { unfold exists_. now rewrite (os_Stat_dangling w name fi HL Hs Ht). }
  pose proof (genUnusedFilename_fresh w name He) as Hg.
  split; [exact He|]. split; [exact Hg|].
  split; [now rewrite Hg|]. split; [apply genUnusedFilename_idempotent|].
  intros Hrw mode. unfold create, os_OpenFile. rewrite Hg.
  unfold maxSymlinks. rewrite resolve_S, HL, Hs.
  rewrite (resolve_missing w _ _ Ht), Ht, Hrw. reflexivity.
Qed.

End GenUnused.

Lemma genUnusedFilename_returns_a_dangling_link_witness :
  genUnusedFilename (ext := Samples.sampleExtern) Samples.danglingWorld
    "f.sz" = "f.sz"%string /\
  dirents Samples.danglingWorld !! "f.sz"%string = Some 2 /\
  dirents (create (ext := Samples.sampleExtern) Samples.danglingWorld
             "f.sz" 0x1a4).1.1 !! "gone"%string = Some 3.
Proof.
  assert (HL : os_Lstat Samples.danglingWorld "f.sz"
               = inr (mkFileInfo "f.sz" 2
                        (Inode (Z.lor S_IFLNK 0x1ff) 1 0 [] "gone" None)))
    by reflexivity.
  destruct (genUnusedFilename_returns_a_dangling_link
              (ext := Samples.sampleExtern) Samples.danglingWorld "f.sz"
              (mkFileInfo "f.sz" 2
                 (Inode (Z.lor S_IFLNK 0x1ff) 1 0 [] "gone" None))
              HL eq_refl eq_refl) as (_ & Hg & _ & _ & Hc).
  split; [exact Hg|]. split; [reflexivity|].
  rewrite (Hc eq_refl 0x1a4). reflexivity.
Defined.

(** The probe moves past a name that exists. *)
Lemma genUnusedFilename_unused_witness :
  exists_ Samples.oneFileWorld "a.sz" = true /\
  exists_ Samples.oneFileWorld
    (genUnusedFilename (ext := Samples.sampleExtern)
       Samples.oneFileWorld "a.sz") = false.
Proof.
  split; [reflexivity|].
  apply (proj2 (proj2 (genUnusedFilename_unused_within_bound
                         (ext := Samples.sampleExtern)
                         Samples.oneFileWorld "a.sz")) 1);
    [lia | reflexivity].
Defined.

(** C7, the claim as stated fails: on a host that knows the media type
    of [.txt], [splitExt] strips [.txt] into the extension chain (the
    strip does not end there, and the number goes before [.txt]:
    [notes(1).txt]), while an extension the host does not know, [.zzz],
    ends the strip and stays in the base. *)
Lemma splitExt_media_type_counterexample :
  TypeByExtension (Extern := Samples.sampleExtern) ".txt" <> "" /\
  splitExt (ext := Samples.sampleExtern) "notes.txt"
  = ("notes", ".txt")%string /\
  genUnusedFilename (ext := Samples.sampleExtern) Samples.notesWorld
    "notes.txt" = "notes(1).txt"%string /\
  TypeByExtension (Extern := Samples.sampleExtern) ".zzz" = "" /\
  splitExt (ext := Samples.sampleExtern) "notes.zzz"
  = ("notes.zzz", "")%string /\
  ~ (forall (ext : Extern) filename,
        TypeByExtension (Ext (Clean filename)) <> "" ->
        allowed (Ext (Clean filename)) = false ->
        fst (splitExt filename) = Clean filename).
Proof.
  split; [discriminate|]. split; [reflexivity|].
  split; [now rewrite genUnusedFilename_first|].
  split; [reflexivity|]. split; [reflexivity|].
  intros Hclaim.
  specialize (Hclaim Samples.sampleExtern "notes.txt"%string).
  discriminate Hclaim; [discriminate | reflexivity].
Qed.

(** ** Building an archive: [tarAppender.add] *)

(** [tarSetHeader] on a [Stat_t] never fails and touches the device
    fields only. *)
Lemma tarSetHeader_some hdr ino s :
  exists hdr',
    tarSetHeader hdr (Some (ino, s))
    = (hdr', uint32 (st_nlink s), uint64 ino, None) /\
    Name hdr' = Name hdr /\ Mode hdr' = Mode hdr /\ Size hdr' = Size hdr /\
    Typeflag hdr' = Typeflag hdr /\ Linkname hdr' = Linkname hdr.
Proof.
  unfold tarSetHeader.
  destruct (_ || _); eexists; (split; [reflexivity|]); simpl; auto.
Qed.

(** [tar.FileInfoHeader] leaves the device fields at zero. *)
Lemma FileInfoHeader_no_device fi link hdr :
  FileInfoHeader fi link = inr hdr -> Devmajor hdr = 0 /\ Devminor hdr = 0.
Proof.
  unfold FileInfoHeader.
  destruct (kind_of_mode (fi_Mode fi)); intros [= <-]; now split.
Qed.

(** C8.  The device numbers in the header of a member.  [add] hands
    [tarSetHeader] the header [tar.FileInfoHeader] made, under the
    member's name, with the [Stat_t] of [os.Lstat].  For a character
    or block device with device number [d] the header comes back with
    [(d >> 8) & 0xfff] as its major and
    [(d & 0xff) | ((d >> 12) & 0xfff00)] as its minor number, whatever
    header goes in.  For any other file, whose [st_rdev] is zero, the
    header comes back as it went in, with both fields unset (zero):
    the test [s.Mode&S_IFBLK != 0 || s.Mode&S_IFCHR != 0] also holds
    for modes that are not devices, such as directories, but what is
    then assigned is the zero the fields already hold. *)
Theorem tarSetHeader_sets_device_numbers_of_devices_only fi link hdr name :
  FileInfoHeader fi link = inr hdr ->
  0 <= st_rdev (fi_sys fi) < 2 ^ 64 ->
  let s := fi_sys fi in
  let d := st_rdev s in
  let hdr0 := mkHeader name (Mode hdr) (Size hdr) (Typeflag hdr)
                (Linkname hdr) (Devmajor hdr) (Devminor hdr) (Xattrs hdr) in
  (kind_of_mode (st_mode s) = KCharDevice \/
   kind_of_mode (st_mode s) = KBlockDevice ->
   forall h, exists hdr',
     tarSetHeader h (Some (fi_ino fi, s))
     = (hdr', uint32 (st_nlink s), uint64 (fi_ino fi), None) /\
     Devmajor hdr' = Z.land (Z.shiftr d 8) 0xfff /\
     Devminor hdr' = Z.lor (Z.land d 0xff)
                           (Z.land (Z.shiftr d 12) 0xfff00) /\
     Name hdr' = Name h /\ Typeflag hdr' = Typeflag h) /\
  (kind_of_mode (st_mode s) <> KCharDevice ->
   kind_of_mode (st_mode s) <> KBlockDevice ->
   d = 0 ->
   tarSetHeader hdr0 (Some (fi_ino fi, s))
   = (hdr0, uint32 (st_nlink s), uint64 (fi_ino fi), None) /\
   Devmajor hdr0 = 0 /\ Devminor hdr0 = 0).
Proof.
  intros HF Hd s d hdr0. split.
  - intros Hk h.
    pose proof (tarSetHeader_device h (fi_ino fi) s Hk Hd) as Hdev.
    destruct (tarSetHeader_some h (fi_ino fi) s)
      as (hdr' & E & Hn & _ & _ & Ht & _).
    rewrite E in Hdev. destruct Hdev as (_ & H1 & H2).
    exists hdr'. auto 10.
  - intros _ _ Hz.
    destruct (FileInfoHeader_no_device fi link hdr HF) as [HM Hm].
    split; [|now split].
    unfold tarSetHeader. fold s. fold d. rewrite Hz.
    change (int64 (devmajor (uint64 0))) with 0.
    change (int64 (devminor (uint64 0))) with 0.
    unfold hdr0. cbn [Name Mode Size Typeflag Linkname Devmajor Devminor
                      Xattrs].
    rewrite HM, Hm. now destruct (_ || _).
Qed.

(** A directory passes the test of [tarSetHeader], and its header
    stays as it was. *)
Lemma tarSetHeader_sets_device_numbers_witness :
  negb (Z.land (Z.lor S_IFDIR 0x1ed) S_IFBLK =? 0) = true /\
  tarSetHeader (mkHeader "d/" 0x1ed 0 TypeDir "" 0 0 ∅)
    (Some (1, Inode (Z.lor S_IFDIR 0x1ed) 2 0 [] "" None))
  = (mkHeader "d/" 0x1ed 0 TypeDir "" 0 0 ∅, 2, 1, None).
Proof.
  split; [reflexivity|].
  assert (HF : FileInfoHeader
                 (mkFileInfo "d" 1 (Inode (Z.lor S_IFDIR 0x1ed) 2 0 [] ""
                                          None)) ""
               = inr (mkHeader "d/" 0x1ed 0 TypeDir "" 0 0 ∅))
    by reflexivity.
  assert (Hr : 0 <= 0 < 2 ^ 64) by lia.
  destruct (proj2 (tarSetHeader_sets_device_numbers_of_devices_only
                     (mkFileInfo "d" 1
                        (Inode (Z.lor S_IFDIR 0x1ed) 2 0 [] "" None))
                     "" (mkHeader "d/" 0x1ed 0 TypeDir "" 0 0 ∅) "d/"
                     HF Hr))
    as (E & _ & _); [discriminate | discriminate | reflexivity |].
  exact E.
Defined.

Section Add.
Context {ext : Extern}.

Lemma tw_Write_last ms hdr body :
  tw_Write (mkTarWriter (ms ++ [mkMember hdr []]) None) body
  = mkTarWriter (ms ++ [mkMember hdr body]) None.
Proof.
  unfold tw_Write. simpl. rewrite reverse_snoc. simpl.
  now rewrite reverse_involutive.
Qed.

Lemma os_Open_read w path fi :
  os_Lstat w path = inr fi ->
  IsRegular (fi_Mode fi) = true ->
  exists file, os_Open w path = (Some file, None) /\
    exists file', File_ReadRest w file = (file', i_data (fi_sys fi), None).
Proof.
  intros HL Hreg. unfold os_Open.
  rewrite (os_Stat_plain w path fi HL (IsRegular_not_symlink _ Hreg)).
  eexists. split; [reflexivity|].
  unfold File_ReadRest, file_bytes. simpl.
  unfold os_Lstat in HL.
  destruct (dirents w !! path) as [ino|]; [|discriminate].
  destruct (inodes w !! ino) as [i|] eqn:Hi; [|discriminate].
  injection HL as <-. simpl. rewrite Hi.
  unfold fi_Mode in Hreg. simpl in Hreg. rewrite Hreg.
  eexists. reflexivity.
Qed.

(** What a successful [add (path, path)] does: one member is appended,
    [hardLinks] is updated under the key of [path], and a regular file
    with more than one link becomes a [TypeReg] member with its body
    when its inode is not yet in [hardLinks], a [TypeLink] member of
    size 0 naming the recorded path otherwise. *)
Lemma add_success w ta path ta' :
  add w ta path path = (ta', None) ->
  exists m,
    tw_members (ta_tarWriter ta') = tw_members (ta_tarWriter ta) ++ [m] /\
    hardLinks ta' = links_step w (hardLinks ta) path /\
    forall key, link_key w path = Some key ->
      forall fi, os_Lstat w path = inr fi ->
      match hardLinks ta !! key with
      | None =>
          Typeflag (m_hdr m) = TypeReg /\ Name (m_hdr m) = path /\
          Size (m_hdr m) = fi_Size fi /\
          m_body m = i_data (fi_sys fi)
      | Some oldpath =>
          Typeflag (m_hdr m) = TypeLink /\ Name (m_hdr m) = path /\
          Size (m_hdr m) = 0 /\ Linkname (m_hdr m) = oldpath /\
          m_body m = []
      end.
Proof.
  unfold add, links_step, link_key.
  destruct (os_Lstat w path) as [e|fi] eqn:HL; [discriminate|].
  destruct (if IsSymlink (fi_Mode fi) then os_Readlink w path
            else inr EmptyString) as [e|link]; [discriminate|].
  destruct (FileInfoHeader fi link) as [e|hdr] eqn:HF; [discriminate|].
  set (name := if IsDir (fi_Mode fi) then fmtDir path else path).
  destruct (tarSetHeader_some
              (mkHeader name (Mode hdr) (Size hdr) (Typeflag hdr)
                 (Linkname hdr) (Devmajor hdr) (Devminor hdr) (Xattrs hdr))
              (fi_ino fi) (fi_sys fi))
    as (hdr1 & -> & HN & _ & HS & HT & HLn).
  simpl in HN, HS, HT, HLn.
  destruct (IsRegular (fi_Mode fi) && (1 <? uint32 (st_nlink (fi_sys fi))))
    eqn:Hhl.
  - (* a regular file with more than one link *)
    apply andb_true_iff in Hhl as [Hreg _].
    assert (Hname : name = path).
    { unfold name. now rewrite (IsRegular_not_dir _ Hreg). }
    assert (Hhdr : Typeflag hdr = TypeReg /\ Size hdr = fi_Size fi).
    { unfold FileInfoHeader in HF. unfold IsRegular in Hreg.
      destruct (kind_of_mode (fi_Mode fi)); try discriminate.
      injection HF as <-. auto. }
    destruct Hhdr as [HT0 HS0].
    destruct (hardLinks ta !! uint64 (fi_ino fi)) as [oldpath|] eqn:Hold.
    + (* not the first: a hard link *)
      destruct (tw_err (ta_tarWriter ta)) eqn:Herr;
        unfold tw_WriteHeader; rewrite Herr;
        [destruct (lgetxattr w path); discriminate|].
      destruct (lgetxattr w path) as [cap|];
        (destruct (tar_header_ok _); [|discriminate]);
        simpl; intros [= <-]; eexists; (split; [reflexivity|]);
        (split; [reflexivity|]);
        intros key [= <-] fi' [= <-]; rewrite Hold; simpl;
        rewrite HN, Hname; auto.
    + (* the first: a regular file with its body *)
      destruct (os_Open_read w path fi HL Hreg)
        as (file & HO & file' & HR).
      destruct (tw_err (ta_tarWriter ta)) eqn:Herr;
        unfold tw_WriteHeader; rewrite Herr;
        [destruct (lgetxattr w path); discriminate|].
      destruct (lgetxattr w path) as [cap|];
        (destruct (tar_header_ok _); [|discriminate]);
        simpl; rewrite HT, HT0; simpl; rewrite HO, HR, tw_Write_last;
        intros [= <-]; eexists; (split; [reflexivity|]);
        (split; [simpl; now rewrite Hname|]);
        intros key [= <-] fi' [= <-]; rewrite Hold; simpl;
        rewrite ?HN, ?HS, ?HT, ?Hname, ?HS0, ?HT0; auto.
  - (* anything else: one member, [hardLinks] unchanged *)
    destruct (tw_err (ta_tarWriter ta)) eqn:Herr;
      unfold tw_WriteHeader; rewrite Herr;
      [destruct (lgetxattr w path); discriminate|].
    destruct (lgetxattr w path) as [cap|];
      (destruct (tar_header_ok _); [|discriminate]); simpl;
      (destruct (typeflag_eqb _ TypeReg);
       [destruct (os_Open w path) as [[file|] oerr];
        [destruct (File_ReadRest w file) as [[file' body] rerr];
         rewrite tw_Write_last|]|]);
      intros [= <-]; try discriminate;
      eexists; (split; [reflexivity|]); (split; [reflexivity|]);
      intros key [= ].
Qed.

End Add.

Section Walk.
Context {ext : Extern}.

Lemma Lstat_inode w path fi :
  os_Lstat w path = inr fi -> inodes w !! fi_ino fi = Some (fi_sys fi).
Proof.
  unfold os_Lstat. destruct (dirents w !! path) as [ino|]; [|discriminate].
  destruct (inodes w !! ino) as [i|] eqn:Hi; [|discriminate].
  now intros [= <-].
Qed.

(** Two paths with the same inode number have the same inode. *)
Lemma Lstat_same_inode w p q fi fi' :
  os_Lstat w p = inr fi -> os_Lstat w q = inr fi' ->
  fi_ino fi' = fi_ino fi -> fi_sys fi' = fi_sys fi.
Proof.
  intros Hp Hq E. apply Lstat_inode in Hp, Hq. rewrite E in Hq. congruence.
Qed.

Lemma links_step_keep w links path key x :
  links !! key = Some x -> links_step w links path !! key = Some x.
Proof.
  intros H. unfold links_step.
  destruct (link_key w path) as [key'|]; [|exact H].
  destruct (links !! key') eqn:E; [exact H|].
  rewrite lookup_insert_ne; [exact H | congruence].
Qed.

Lemma links_fold_keep w paths : forall links key x,
  links !! key = Some x ->
  fold_left (links_step w) paths links !! key = Some x.
Proof.
  induction paths as [|p paths IH]; intros links key x H; simpl;
    [exact H|].
  apply IH. now apply links_step_keep.
Qed.

Lemma links_fold_none w paths : forall links key,
  (forall q, q ∈ paths -> link_key w q <> Some key) ->
  links !! key = None ->
  fold_left (links_step w) paths links !! key = None.
Proof.
  induction paths as [|p paths IH]; intros links key Hno H; simpl;
    [exact H|].
  apply IH.
  - intros q Hq. apply Hno. now right.
  - unfold links_step.
    destruct (link_key w p) as [key'|] eqn:Ek; [|exact H].
    destruct (links !! key'); [exact H|].
    rewrite lookup_insert_ne; [exact H|].
    intros ->. apply (Hno p); [now left | exact Ek].
Qed.

Lemma links_fold_first w pre q post links key :
  (forall q', q' ∈ pre -> link_key w q' <> Some key) ->
  link_key w q = Some key ->
  links !! key = None ->
  fold_left (links_step w) (pre ++ q :: post) links !! key = Some q.
Proof.
  intros Hno Hq H. rewrite fold_left_app. simpl.
  apply links_fold_keep.
  pose proof (links_fold_none w pre links key Hno H) as Hpre.
  unfold links_step at 1. rewrite Hq, Hpre. apply lookup_insert_eq.
Qed.

(** A successful walk appends one member per path; the member of a
    regular file with several links is decided by what [hardLinks]
    held for its inode when the path was reached. *)
Lemma walk_add_success w paths : forall ta ta',
  walk_add w ta paths = (ta', None) ->
  exists ms,
    tw_members (ta_tarWriter ta') = tw_members (ta_tarWriter ta) ++ ms /\
    length ms = length paths /\
    forall k path key fi,
      paths !! k = Some path -> link_key w path = Some key ->
      os_Lstat w path = inr fi ->
      exists m, ms !! k = Some m /\
        match fold_left (links_step w) (take k paths) (hardLinks ta) !! key
        with
        | None =>
            Typeflag (m_hdr m) = TypeReg /\ Name (m_hdr m) = path /\
            Size (m_hdr m) = fi_Size fi /\
            m_body m = i_data (fi_sys fi)
        | Some oldpath =>
            Typeflag (m_hdr m) = TypeLink /\ Name (m_hdr m) = path /\
            Size (m_hdr m) = 0 /\ Linkname (m_hdr m) = oldpath /\
            m_body m = []
        end.
Proof.
  induction paths as [|p paths IH]; intros ta ta' Hwalk.
  - injection Hwalk as <-. exists []. rewrite app_nil_r.
    split; [reflexivity|]. split; [reflexivity|].
    intros k path key fi Hk. rewrite lookup_nil in Hk. discriminate.
  - simpl in Hwalk.
    destruct (add w ta p p) as [ta1 [e|]] eqn:Hadd; [discriminate|].
    destruct (add_success w ta p ta1 Hadd) as (m & Hm & Hl & Hspec).
    destruct (IH ta1 ta' Hwalk) as (ms & Hms & Hlen & Hrest).
    exists (m :: ms). split; [|split].
    + rewrite Hms, Hm, <- app_assoc. reflexivity.
    + simpl. now rewrite Hlen.
    + intros [|k] path key fi Hk Hkey HL.
      * injection Hk as <-. exists m. split; [reflexivity|].
        simpl. now apply Hspec.
      * simpl in Hk.
        destruct (Hrest k path key fi Hk Hkey HL) as (m' & Hm' & Hcase).
        exists m'. split; [exact Hm'|].
        simpl. rewrite <- Hl. exact Hcase.
Qed.

End Walk.

Section HardLinks.
Context {ext : Extern}.

Lemma link_key_of w path fi :
  os_Lstat w path = inr fi ->
  IsRegular (fi_Mode fi) = true ->
  1 < uint32 (st_nlink (fi_sys fi)) ->
  link_key w path = Some (uint64 (fi_ino fi)).
Proof.
  intros HL Hreg Hnl. unfold link_key. rewrite HL, Hreg.
  now rewrite (proj2 (Z.ltb_lt _ _) Hnl).
Qed.

(** With inode numbers in the range of [uint64], two paths have the
    same key exactly when they name the same inode. *)
Lemma link_key_same_inode w p q fi fi' :
  os_Lstat w p = inr fi ->
  IsRegular (fi_Mode fi) = true ->
  1 < uint32 (st_nlink (fi_sys fi)) ->
  os_Lstat w q = inr fi' ->
  0 <= fi_ino fi < 2 ^ 64 -> 0 <= fi_ino fi' < 2 ^ 64 ->
  link_key w q = Some (uint64 (fi_ino fi)) <-> fi_ino fi' = fi_ino fi.
Proof.
  intros Hp Hreg Hnl Hq Hr Hr'. split.
  - unfold link_key. rewrite Hq. destruct (_ && _); [|discriminate].
    intros [= E]. rewrite !uint64_small in E by assumption. exact E.
  - intros E. pose proof (Lstat_same_inode w p q fi fi' Hp Hq E) as Es.
    rewrite <- E. apply link_key_of; [exact Hq | |].
    + unfold fi_Mode in *. now rewrite Es.
    + now rewrite Es.
Qed.

Lemma no_earlier_key w paths k key :
  (forall j q, (j < k)%nat -> paths !! j = Some q ->
               link_key w q <> Some key) ->
  fold_left (links_step w) (take k paths) (∅ : gmap Z string) !! key
  = None.
Proof.
  intros Hno. apply links_fold_none; [|apply lookup_empty].
  intros q Hq. apply list_elem_of_lookup in Hq as [j Hj].
  apply lookup_take_Some in Hj as [Hj Hlt]. now apply (Hno j).
Qed.

Lemma first_earlier_key w paths k j q key :
  (j < k)%nat -> paths !! j = Some q -> link_key w q = Some key ->
  (forall j' q', (j' < j)%nat -> paths !! j' = Some q' ->
                 link_key w q' <> Some key) ->
  fold_left (links_step w) (take k paths) (∅ : gmap Z string) !! key
  = Some q.
Proof.
  intros Hjk Hj Hq Hno.
  assert (Hj' : take k paths !! j = Some q)
    by (rewrite lookup_take_lt; assumption).
  rewrite <- (take_drop_middle _ _ _ Hj').
  apply links_fold_first; [|exact Hq|apply lookup_empty].
  intros q' Hq'. apply list_elem_of_lookup in Hq' as [j' Hj''].
  apply lookup_take_Some in Hj'' as [Hj'' Hlt'].
  apply lookup_take_Some in Hj'' as [Hj'' _].
  now apply (Hno j').
Qed.

(** A regular file is added without error when the tar writer has no
    error pending and accepts its header. *)
Lemma add_regular_runs w ta path fi :
  (forall h, tar_header_ok h = true) ->
  tw_err (ta_tarWriter ta) = None ->
  os_Lstat w path = inr fi ->
  IsRegular (fi_Mode fi) = true ->
  exists ta', add w ta path path = (ta', None) /\
              tw_err (ta_tarWriter ta') = None.
Proof.
  intros Hok Herr HL Hreg. unfold add. rewrite HL.
  rewrite (IsRegular_not_symlink _ Hreg), (IsRegular_not_dir _ Hreg).
  assert (HF : FileInfoHeader fi ""
               = inr (mkHeader (fi_name fi) (Z.land (fi_Mode fi) 0xfff)
                        (fi_Size fi) TypeReg "" 0 0 ∅)).
  { unfold FileInfoHeader. unfold IsRegular in Hreg.
    now destruct (kind_of_mode (fi_Mode fi)). }
  rewrite HF.
  destruct (tarSetHeader_some
              (mkHeader path (Z.land (fi_Mode fi) 0xfff) (fi_Size fi)
                 TypeReg "" 0 0 ∅) (fi_ino fi) (fi_sys fi))
    as (hdr1 & E & _ & _ & _ & HT & _).
  simpl in HT.
  cbn [Name Mode Size Typeflag Linkname Devmajor Devminor Xattrs].
  rewrite E.
  destruct (os_Open_read w path fi HL Hreg) as (file & HO & file' & HR).
  unfold tw_WriteHeader. rewrite Herr.
  destruct (IsRegular (fi_Mode fi) && (1 <? uint32 (st_nlink (fi_sys fi))));
    [destruct (hardLinks ta !! uint64 (fi_ino fi))|];
    destruct (lgetxattr w path); rewrite Hok; simpl;
    rewrite ?HT; simpl; rewrite ?HO, ?HR, ?tw_Write_last;
    eexists; split; reflexivity.
Qed.

(** C4.  In one build (one [tarAppender], one walk, ended without
    error, inode numbers being [uint64]) a regular file with more than
    one link is written as a [TypeReg] member with its body when no
    path visited before it has its inode, and otherwise as a
    [TypeLink] member of size 0, without body, whose [Linkname] is the
    name of the first path visited with that inode, itself a
    [TypeReg] member with the body.  In particular three paths of one
    inode are walked without error (the tar writer accepting their
    headers) into one [TypeReg] member with the body followed by two
    [TypeLink] members of size 0 naming it. *)
Theorem hardlinks_written_once :
  (forall w paths ta,
      walk_add w newAppender paths = (ta, None) ->
      (forall q fi, q ∈ paths -> os_Lstat w q = inr fi ->
                    0 <= fi_ino fi < 2 ^ 64) ->
      forall k path fi,
        paths !! k = Some path -> os_Lstat w path = inr fi ->
        IsRegular (fi_Mode fi) = true ->
        1 < uint32 (st_nlink (fi_sys fi)) ->
        exists m,
          tw_members (ta_tarWriter ta) !! k = Some m /\
          ((forall j q fi', (j < k)%nat -> paths !! j = Some q ->
                            os_Lstat w q = inr fi' ->
                            fi_ino fi' <> fi_ino fi) ->
           Typeflag (m_hdr m) = TypeReg /\ Name (m_hdr m) = path /\
           Size (m_hdr m) = Z.of_nat (length (i_data (fi_sys fi))) /\
           m_body m = i_data (fi_sys fi)) /\
          (forall j q fi', (j < k)%nat -> paths !! j = Some q ->
             os_Lstat w q = inr fi' -> fi_ino fi' = fi_ino fi ->
             (forall j' q' fi'', (j' < j)%nat -> paths !! j' = Some q' ->
                                 os_Lstat w q' = inr fi'' ->
                                 fi_ino fi'' <> fi_ino fi) ->
             Typeflag (m_hdr m) = TypeLink /\ Name (m_hdr m) = path /\
             Size (m_hdr m) = 0 /\ Linkname (m_hdr m) = q /\
             m_body m = [] /\
             exists m0,
               tw_members (ta_tarWriter ta) !! j = Some m0 /\
               Typeflag (m_hdr m0) = TypeReg /\ Name (m_hdr m0) = q /\
               m_body m0 = i_data (fi_sys fi))) /\
  (forall w p1 p2 p3 fi1 fi2 fi3,
      (forall h, tar_header_ok h = true) ->
      os_Lstat w p1 = inr fi1 -> os_Lstat w p2 = inr fi2 ->
      os_Lstat w p3 = inr fi3 ->
      fi_ino fi2 = fi_ino fi1 -> fi_ino fi3 = fi_ino fi1 ->
      0 <= fi_ino fi1 < 2 ^ 64 ->
      IsRegular (fi_Mode fi1) = true ->
      1 < uint32 (st_nlink (fi_sys fi1)) ->
      exists ta m1 m2 m3,
        walk_add w newAppender [p1; p2; p3] = (ta, None) /\
        tw_members (ta_tarWriter ta) = [m1; m2; m3] /\
        (Typeflag (m_hdr m1) = TypeReg /\ Name (m_hdr m1) = p1 /\
         m_body m1 = i_data (fi_sys fi1)) /\
        (Typeflag (m_hdr m2) = TypeLink /\ Name (m_hdr m2) = p2 /\
         Size (m_hdr m2) = 0 /\ Linkname (m_hdr m2) = p1 /\
         m_body m2 = []) /\
        (Typeflag (m_hdr m3) = TypeLink /\ Name (m_hdr m3) = p3 /\
         Size (m_hdr m3) = 0 /\ Linkname (m_hdr m3) = p1 /\
         m_body m3 = [])).
Proof.
  assert (General : forall w paths ta,
      walk_add w newAppender paths = (ta, None) ->
      (forall q fi, q ∈ paths -> os_Lstat w q = inr fi ->
                    0 <= fi_ino fi < 2 ^ 64) ->
      forall k path fi,
        paths !! k = Some path -> os_Lstat w path = inr fi ->
        IsRegular (fi_Mode fi) = true ->
        1 < uint32 (st_nlink (fi_sys fi)) ->
        exists m,
          tw_members (ta_tarWriter ta) !! k = Some m /\
          ((forall j q fi', (j < k)%nat -> paths !! j = Some q ->
                            os_Lstat w q = inr fi' ->
                            fi_ino fi' <> fi_ino fi) ->
           Typeflag (m_hdr m) = TypeReg /\ Name (m_hdr m) = path /\
           Size (m_hdr m) = Z.of_nat (length (i_data (fi_sys fi))) /\
           m_body m = i_data (fi_sys fi)) /\
          (forall j q fi', (j < k)%nat -> paths !! j = Some q ->
             os_Lstat w q = inr fi' -> fi_ino fi' = fi_ino fi ->
             (forall j' q' fi'', (j' < j)%nat -> paths !! j' = Some q' ->
                                 os_Lstat w q' = inr fi'' ->
                                 fi_ino fi'' <> fi_ino fi) ->
             Typeflag (m_hdr m) = TypeLink /\ Name (m_hdr m) = path /\
             Size (m_hdr m) = 0 /\ Linkname (m_hdr m) = q /\
             m_body m = [] /\
             exists m0,
               tw_members (ta_tarWriter ta) !! j = Some m0 /\
               Typeflag (m_hdr m0) = TypeReg /\ Name (m_hdr m0) = q /\
               m_body m0 = i_data (fi_sys fi))).
  { intros w paths ta Hwalk Hrange k path fi Hk HL Hreg Hnl.
    destruct (walk_add_success w paths newAppender ta Hwalk)
      as (ms & Hms & Hlen & Hspec).
    simpl in Hms. rewrite Hms.
    change (hardLinks newAppender) with (∅ : gmap Z string) in Hspec.
    pose proof (link_key_of w path fi HL Hreg Hnl) as Hkey.
    assert (Hin : path ∈ paths) by (apply list_elem_of_lookup; eauto).
    pose proof (Hrange path fi Hin HL) as Hr.
    (* no earlier path of that inode: no earlier path with that key *)
    assert (Hnone : forall k',
      (forall j q fi', (j < k')%nat -> paths !! j = Some q ->
                       os_Lstat w q = inr fi' ->
                       fi_ino fi' <> fi_ino fi) ->
      fold_left (links_step w) (take k' paths) (∅ : gmap Z string)
        !! uint64 (fi_ino fi) = None).
    { intros k' Hno. apply no_earlier_key. intros j q Hj Hq Hkq.
      destruct (os_Lstat w q) as [e|fi'] eqn:HLq.
      - unfold link_key in Hkq. rewrite HLq in Hkq. discriminate.
      - apply (Hno j q fi' Hj Hq HLq).
        apply (link_key_same_inode w path q fi fi' HL Hreg Hnl HLq Hr);
          [|exact Hkq].
        apply (Hrange q); [apply list_elem_of_lookup; eauto | exact HLq]. }
    destruct (Hspec k path _ fi Hk Hkey HL) as (m & Hm & Hcase).
    exists m. split; [exact Hm|]. split.
    - intros Hno. rewrite (Hnone k Hno) in Hcase. exact Hcase.
    - intros j q fi' Hj Hq HLq Hsame Hfirst.
      assert (Hrq : 0 <= fi_ino fi' < 2 ^ 64).
      { apply (Hrange q); [apply list_elem_of_lookup; eauto | exact HLq]. }
      assert (Hkq : link_key w q = Some (uint64 (fi_ino fi))).
      { now apply (link_key_same_inode w path q fi fi' HL Hreg Hnl HLq Hr). }
      rewrite (first_earlier_key w paths k j q _ Hj Hq Hkq) in Hcase.
      + destruct Hcase as (H1 & H2 & H3 & H4 & H5).
        repeat (split; [assumption|]).
        destruct (Hspec j q _ fi' Hq Hkq HLq) as (m0 & Hm0 & Hcase0).
        rewrite (Hnone j Hfirst) in Hcase0.
        destruct Hcase0 as (G1 & G2 & _ & G4).
        exists m0. repeat (split; [assumption|]).
        rewrite G4. f_equal.
        apply (Lstat_same_inode w path q fi fi' HL HLq Hsame).
      + intros j' q' Hj' Hq' Hkq'.
        destruct (os_Lstat w q') as [e|fi''] eqn:HLq'.
        * unfold link_key in Hkq'. rewrite HLq' in Hkq'. discriminate.
        * apply (Hfirst j' q' fi'' Hj' Hq' HLq').
          apply (link_key_same_inode w path q' fi fi'' HL Hreg Hnl HLq' Hr);
            [|exact Hkq'].
          apply (Hrange q'); [apply list_elem_of_lookup; eauto | exact HLq']. }
  split; [exact General|].
  intros w p1 p2 p3 fi1 fi2 fi3 Hok H1 H2 H3 E2 E3 Hr Hreg Hnl.
  pose proof (Lstat_same_inode w p1 p2 fi1 fi2 H1 H2 E2) as S2.
  pose proof (Lstat_same_inode w p1 p3 fi1 fi3 H1 H3 E3) as S3.
  assert (Hreg2 : IsRegular (fi_Mode fi2) = true)
    by (unfold fi_Mode in *; now rewrite S2).
  assert (Hreg3 : IsRegular (fi_Mode fi3) = true)
    by (unfold fi_Mode in *; now rewrite S3).
  destruct (add_regular_runs w newAppender p1 fi1 Hok eq_refl H1 Hreg)
    as (ta1 & A1 & Herr1).
  destruct (add_regular_runs w ta1 p2 fi2 Hok Herr1 H2 Hreg2)
    as (ta2 & A2 & Herr2).
  destruct (add_regular_runs w ta2 p3 fi3 Hok Herr2 H3 Hreg3)
    as (ta3 & A3 & Herr3).
  assert (Hwalk : walk_add w newAppender [p1; p2; p3] = (ta3, None)).
  { simpl. now rewrite A1, A2, A3. }
  assert (Hrange : forall q fi, q ∈ [p1; p2; p3] -> os_Lstat w q = inr fi ->
                                0 <= fi_ino fi < 2 ^ 64).
  { intros q fi Hq HLq.
    repeat (apply elem_of_cons in Hq as [->|Hq]);
      [| | |apply elem_of_nil in Hq; contradiction];
      rewrite HLq in *.
    - injection H1 as <-. exact Hr.
    - injection H2 as <-. now rewrite E2.
    - injection H3 as <-. now rewrite E3. }
  destruct (walk_add_success w _ _ _ Hwalk) as (ms & Hms & Hlen & _).
  simpl in Hms, Hlen.
  destruct ms as [|m1 [|m2 [|m3 [|? ?]]]]; try discriminate.
  exists ta3, m1, m2, m3. split; [exact Hwalk|]. split; [exact Hms|].
  assert (Hnl2 : 1 < uint32 (st_nlink (fi_sys fi2))) by now rewrite S2.
  assert (Hnl3 : 1 < uint32 (st_nlink (fi_sys fi3))) by now rewrite S3.
  destruct (General w _ _ Hwalk Hrange 0%nat p1 fi1 eq_refl H1 Hreg Hnl)
    as (m & Hm & Ha & _).
  destruct (General w _ _ Hwalk Hrange 1%nat p2 fi2 eq_refl H2 Hreg2 Hnl2)
    as (m' & Hm' & _ & Hb).
  destruct (General w _ _ Hwalk Hrange 2%nat p3 fi3 eq_refl H3 Hreg3 Hnl3)
    as (m'' & Hm'' & _ & Hc).
  rewrite Hms in Hm, Hm', Hm''. simpl in Hm, Hm', Hm''.
  injection Hm as <-. injection Hm' as <-. injection Hm'' as <-.
  split; [|split].
  - destruct Ha as (T & N & _ & B); [|auto]. intros j q fi' Hj. lia.
  - destruct (Hb 0%nat p1 fi1 ltac:(lia) eq_refl H1 (eq_sym E2))
      as (T & N & S & L & B & _); [|auto].
    intros j' q' fi'' Hj'. lia.
  - destruct (Hc 0%nat p1 fi1 ltac:(lia) eq_refl H1 (eq_sym E3))
      as (T & N & S & L & B & _); [|auto].
    intros j' q' fi'' Hj'. lia.
Qed.

End HardLinks.

(** Three names of one file holding [hi]: one body, two links. *)
Lemma hardlinks_written_once_witness :
  exists ta m1 m2 m3,
    walk_add (ext := Samples.sampleExtern) Samples.threeLinksWorld
      newAppender ["d/a"; "d/b"; "d/c"]%string = (ta, None) /\
    tw_members (ta_tarWriter ta) = [m1; m2; m3] /\
    (Typeflag (m_hdr m1) = TypeReg /\ Name (m_hdr m1) = "d/a"%string /\
     m_body m1 = [x68; x69]) /\
    (Typeflag (m_hdr m2) = TypeLink /\ Name (m_hdr m2) = "d/b"%string /\
     Size (m_hdr m2) = 0 /\ Linkname (m_hdr m2) = "d/a"%string /\
     m_body m2 = []) /\
    (Typeflag (m_hdr m3) = TypeLink /\ Name (m_hdr m3) = "d/c"%string /\
     Size (m_hdr m3) = 0 /\ Linkname (m_hdr m3) = "d/a"%string /\
     m_body m3 = []).
Proof.
  apply (proj2 (hardlinks_written_once (ext := Samples.sampleExtern))
           Samples.threeLinksWorld "d/a" "d/b" "d/c"
           (mkFileInfo "a" 5 (Inode (Z.lor S_IFREG 0x1a4) 3 0 [x68; x69]
                                "" None))
           (mkFileInfo "b" 5 (Inode (Z.lor S_IFREG 0x1a4) 3 0 [x68; x69]
                                "" None))
           (mkFileInfo "c" 5 (Inode (Z.lor S_IFREG 0x1a4) 3 0 [x68; x69]
                                "" None)));
    try reflexivity.
  simpl. lia.
Defined.

(** ** Extraction: [untar] *)

Section Untar.
Context {ext : Extern}.

Lemma untar_unfold w file fi :
  File_Stat w file = inr fi ->
  untar w file
  = let originName := TrimSuffix (fi_name fi) ".tar" in
    let dstName := genUnusedFilename w originName in
    let '(members, final) :=
      tar_decode (drop (f_pos file) (file_bytes w file)) in
    let '(w, calls, err) :=
      untar_loop w originName dstName members final in
    match err with
    | Some e => (w, calls, Some (ErrExtract e (fi_name fi)))
    | None => (w, calls, None)
    end.
Proof.
  intros HS. unfold untar. rewrite HS.
  assert (Hopen : f_closed file = false).
  { unfold File_Stat in HS. now destruct (f_closed file). }
  unfold File_ReadRest. rewrite Hopen. cbv beta iota zeta.
  now destruct (tar_decode _) as [ms [e|]].
Qed.

(** The loop ends with the error of the stream, whatever the
    extraction of the members returned. *)
Lemma untar_loop_error originName dstName final ms : forall w,
  (untar_loop w originName dstName ms final).2 = final.
Proof.
  induction ms as [|m ms IH]; intros w; [reflexivity|].
  simpl. destruct (untar_member w originName dstName m) as [[w1 c1] e1].
  specialize (IH w1).
  destruct (untar_loop w1 originName dstName ms final) as [[w2 c2] e2].
  exact IH.
Qed.

Lemma untar_error w file fi :
  File_Stat w file = inr fi ->
  (untar w file).2
  = match (tar_decode (drop (f_pos file) (file_bytes w file))).2 with
    | None => None
    | Some e => Some (ErrExtract e (fi_name fi))
    end.
Proof.
  intros HS. rewrite (untar_unfold w file fi HS). cbv zeta.
  destruct (tar_decode _) as [ms final].
  pose proof (untar_loop_error (TrimSuffix (fi_name fi) ".tar")
                (genUnusedFilename w (TrimSuffix (fi_name fi) ".tar"))
                final ms w) as He.
  destruct (untar_loop _ _ _ _ _) as [[w2 c2] e2].
  simpl in He. subst e2. now destruct final.
Qed.

(** The world [untar] leaves is the one its loop leaves. *)
Lemma untar_world w file fi :
  File_Stat w file = inr fi ->
  (untar w file).1.1
  = (untar_loop w (TrimSuffix (fi_name fi) ".tar")
       (genUnusedFilename w (TrimSuffix (fi_name fi) ".tar"))
       (tar_decode (drop (f_pos file) (file_bytes w file))).1
       (tar_decode (drop (f_pos file) (file_bytes w file))).2).1.1.
Proof.
  intros HS. rewrite (untar_unfold w file fi HS). cbv zeta.
  destruct (tar_decode _) as [ms final]. cbn [fst snd].
  now destruct (untar_loop _ _ _ _ _) as [[w2 c2] [e2|]].
Qed.

(** The world the loop leaves does not depend on how the stream
    ends. *)
Lemma untar_loop_world originName dstName ms final final' : forall w,
  (untar_loop w originName dstName ms final).1.1
  = (untar_loop w originName dstName ms final').1.1.
Proof.
  induction ms as [|m ms IH]; intros w; [reflexivity|].
  simpl. destruct (untar_member w originName dstName m) as [[w1 c1] e1].
  specialize (IH w1).
  destruct (untar_loop w1 originName dstName ms final) as [[w2 c2] e2].
  destruct (untar_loop w1 originName dstName ms final') as [[w3 c3] e3].
  exact IH.
Qed.

(** The loop over a list followed by another. *)
Lemma untar_loop_app originName dstName pre post final : forall w,
  (untar_loop w originName dstName (pre ++ post) final).1.1
  = (untar_loop (untar_loop w originName dstName pre None).1.1
       originName dstName post final).1.1.
Proof.
  induction pre as [|m pre IH]; intros w; [reflexivity|].
  simpl. destruct (untar_member w originName dstName m) as [[w1 c1] e1].
  specialize (IH w1).
  destruct (untar_loop w1 originName dstName (pre ++ post) final)
    as [[w2 c2] e2].
  destruct (untar_loop w1 originName dstName pre None) as [[w3 c3] e3].
  exact IH.
Qed.

(** *** What extraction keeps: the read-only flag and every name's
        inode *)

Lemma os_OpenFile_binds w name perm :
  readonly (os_OpenFile w name perm).1.1 = readonly w /\
  forall n ino, dirents w !! n = Some ino ->
    dirents (os_OpenFile w name perm).1.1 !! n = Some ino.
Proof.
  unfold os_OpenFile.
  destruct (resolve w maxSymlinks name) as [e|target]; [now split|].
  destruct (dirents w !! target) as [ino|] eqn:Ht.
  - destruct (inodes w !! ino) as [i|]; [destruct (IsDir _)|]; now split.
  - destruct (readonly w) eqn:E; [now split|].
    cbn [fst readonly dirents]. split; [reflexivity|].
    intros n ino H. rewrite lookup_insert_ne; [exact H|].
    intros <-. congruence.
Qed.

Lemma File_Write_keeps w f b :
  readonly (File_Write w f b).1 = readonly w /\
  dirents (File_Write w f b).1 = dirents w.
Proof.
  unfold File_Write. destruct (f_closed f); [now split|].
  now destruct (inodes w !! f_ino f).
Qed.

Lemma os_Link_binds w oldname newname :
  readonly (os_Link w oldname newname).1 = readonly w /\
  forall n ino, dirents w !! n = Some ino ->
    dirents (os_Link w oldname newname).1 !! n = Some ino.
Proof.
  unfold os_Link.
  destruct (dirents w !! oldname); [|now split].
  destruct (dirents w !! newname) eqn:E; [now split|].
  destruct (readonly w) eqn:R; [now split|].
  cbn [fst readonly dirents]. split; [reflexivity|].
  intros n ino H. rewrite lookup_insert_ne; [exact H|].
  intros <-. congruence.
Qed.

Lemma os_Symlink_binds w target newname :
  readonly (os_Symlink w target newname).1 = readonly w /\
  forall n ino, dirents w !! n = Some ino ->
    dirents (os_Symlink w target newname).1 !! n = Some ino.
Proof.
  unfold os_Symlink.
  destruct (dirents w !! newname) eqn:E; [now split|].
  destruct (readonly w) eqn:R; [now split|].
  cbn [fst readonly dirents]. split; [reflexivity|].
  intros n ino H. rewrite lookup_insert_ne; [exact H|].
  intros <-. congruence.
Qed.

Lemma os_MkdirAll_binds w name perm :
  readonly (os_MkdirAll w name perm).1 = readonly w /\
  forall n ino, dirents w !! n = Some ino ->
    dirents (os_MkdirAll w name perm).1 !! n = Some ino.
Proof.
  unfold os_MkdirAll.
  destruct (os_Stat w name) as [e|fi];
    [|destruct (IsDir (fi_Mode fi)); now split].
  destruct (dirents w !! name) eqn:E; [now split|].
  destruct (readonly w) eqn:R; [now split|].
  cbn [fst readonly dirents]. split; [reflexivity|].
  intros n ino H. rewrite lookup_insert_ne; [exact H|].
  intros <-. congruence.
Qed.

Lemma create_binds w name perm :
  readonly (create w name perm).1.1 = readonly w /\
  forall n ino, dirents w !! n = Some ino ->
    dirents (create w name perm).1.1 !! n = Some ino.
Proof. unfold create. apply os_OpenFile_binds. Qed.

Lemma untar_member_keeps w originName dstName m :
  readonly (untar_member w originName dstName m).1.1 = readonly w /\
  forall n ino, dirents w !! n = Some ino ->
    dirents (untar_member w originName dstName m).1.1 !! n = Some ino.
Proof.
  unfold untar_member.
  set (name := if negb (String.eqb dstName originName) then _ else _).
  assert (Hreg :
    readonly
      (match create w name (Mode (m_hdr m)) with
       | (w0, Some f, _) =>
           let '(w1, err) := File_Write w0 f (m_body m) in
           (w1, [CallCreate name (Mode (m_hdr m))], err)
       | (w0, None, err) => (w0, [CallCreate name (Mode (m_hdr m))], err)
       end).1.1 = readonly w /\
    forall n ino, dirents w !! n = Some ino ->
      dirents
        (match create w name (Mode (m_hdr m)) with
         | (w0, Some f, _) =>
             let '(w1, err) := File_Write w0 f (m_body m) in
             (w1, [CallCreate name (Mode (m_hdr m))], err)
         | (w0, None, err) => (w0, [CallCreate name (Mode (m_hdr m))], err)
         end).1.1 !! n = Some ino).
  { destruct (create_binds w name (Mode (m_hdr m))) as [Hr Hd].
    destruct (create w name (Mode (m_hdr m))) as [[w1 [f|]] e];
      [|now split].
    destruct (File_Write_keeps w1 f (m_body m)) as [Hr' Hd'].
    destruct (File_Write w1 f (m_body m)) as [w2 e2]. cbn [fst] in *.
    split; [congruence|]. intros n ino H. rewrite Hd'. auto. }
  destruct (Typeflag (m_hdr m)); try (now split); try exact Hreg.
  - destruct (os_Link_binds w (Linkname (m_hdr m)) name) as [Hr Hd].
    now destruct (os_Link w (Linkname (m_hdr m)) name).
  - destruct (os_Symlink_binds w (Linkname (m_hdr m)) name) as [Hr Hd].
    now destruct (os_Symlink w (Linkname (m_hdr m)) name).
  - destruct (os_MkdirAll_binds w name (Mode (m_hdr m))) as [Hr Hd].
    now destruct (os_MkdirAll w name (Mode (m_hdr m))).
Qed.

Lemma untar_loop_keeps originName dstName final ms : forall w,
  readonly (untar_loop w originName dstName ms final).1.1 = readonly w /\
  forall n ino, dirents w !! n = Some ino ->
    dirents (untar_loop w originName dstName ms final).1.1 !! n = Some ino.
Proof.
  induction ms as [|m ms IH]; intros w; [now split|].
  simpl.
  destruct (untar_member_keeps w originName dstName m) as [Hr Hd].
  destruct (untar_member w originName dstName m) as [[w1 c1] e1].
  destruct (IH w1) as [Hr' Hd'].
  destruct (untar_loop w1 originName dstName ms final) as [[w2 c2] e2].
  cbn [fst] in *. split; [congruence|auto].
Qed.

Lemma untar_keeps w file :
  readonly (untar w file).1.1 = readonly w /\
  forall n ino, dirents w !! n = Some ino ->
                dirents (untar w file).1.1 !! n = Some ino.
Proof.
  destruct (File_Stat w file) as [e|fi] eqn:HS.
  - unfold untar. rewrite HS. now split.
  - rewrite (untar_world w file fi HS). apply untar_loop_keeps.
Qed.

(** The step of the loop for a [TypeLink] member under a renamed
    root. *)
Lemma untar_member_link w originName dstName m :
  dstName <> originName ->
  Typeflag (m_hdr m) = TypeLink ->
  untar_member w originName dstName m
  = let newname := Replace1 (Name (m_hdr m)) originName dstName in
    let '(w', err) := os_Link w (Linkname (m_hdr m)) newname in
    (w', [CallLink (Linkname (m_hdr m)) newname], err).
Proof.
  intros Hne Ht. unfold untar_member. rewrite Ht.
  destruct (String.eqb_spec dstName originName) as [E|_]; [contradiction|].
  reflexivity.
Qed.

(** C10.  When the root of the archive is renamed at extraction (the
    allocated name differs from the original one), only the name of a
    member has the root replaced: for a [TypeLink] member [untar] calls
    [os.Link] with the header's [Linkname] as it stands and the renamed
    member name.  In the world the earlier members left, the link that
    is created is therefore a name of the file found at [Linkname], a
    path under the original root: after [untar] the new name and
    [Linkname] are bound to one inode, and the new name is not bound
    to the inode of the counterpart of [Linkname] under the allocated
    root when that is another file.  When nothing is at [Linkname], no
    link is made and [os.Link] fails, whatever was extracted under the
    allocated root. *)
Theorem untar_keeps_linkname_under_renamed_root
    w file fi dstName pre m post :
  File_Stat w file = inr fi ->
  genUnusedFilename w (TrimSuffix (fi_name fi) ".tar") = dstName ->
  dstName <> TrimSuffix (fi_name fi) ".tar" ->
  (tar_decode (drop (f_pos file) (file_bytes w file))).1
  = pre ++ m :: post ->
  Typeflag (m_hdr m) = TypeLink ->
  let originName := TrimSuffix (fi_name fi) ".tar" in
  let newname := Replace1 (Name (m_hdr m)) originName dstName in
  let counterpart := Replace1 (Linkname (m_hdr m)) originName dstName in
  let w_pre := (untar_loop w originName dstName pre None).1.1 in
  let w_end := (untar w file).1.1 in
  untar_member w_pre originName dstName m
  = (let '(w', err) := os_Link w_pre (Linkname (m_hdr m)) newname in
     (w', [CallLink (Linkname (m_hdr m)) newname], err)) /\
  (forall ino,
      dirents w_pre !! Linkname (m_hdr m) = Some ino ->
      dirents w_pre !! newname = None ->
      readonly w = false ->
      dirents w_end !! newname = Some ino /\
      dirents w_end !! Linkname (m_hdr m) = Some ino /\
      forall ino', dirents w_pre !! counterpart = Some ino' ->
                   ino' <> ino ->
                   dirents w_end !! counterpart = Some ino' /\
                   dirents w_end !! newname
                   <> dirents w_end !! counterpart) /\
  (dirents w_pre !! Linkname (m_hdr m) = None ->
   untar_member w_pre originName dstName m
   = (w_pre, [CallLink (Linkname (m_hdr m)) newname], Some ENOENT)).
Proof.
  intros HS Hdst Hne Hms Ht originName newname counterpart w_pre w_end.
  pose proof (untar_member_link w_pre originName dstName m Hne Ht) as Hstep.
  cbv zeta in Hstep. fold newname in Hstep.
  split; [exact Hstep|]. split.
  - intros ino Hold Hnew Hrw.
    assert (Hrw' : readonly w_pre = false).
    { unfold w_pre.
      now rewrite (proj1 (untar_loop_keeps originName dstName None pre w)). }
    set (w_m := (untar_member w_pre originName dstName m).1.1).
    assert (Hm : dirents w_m !! newname = Some ino /\
                 forall n i, dirents w_pre !! n = Some i ->
                             dirents w_m !! n = Some i).
    { unfold w_m. rewrite Hstep. unfold os_Link.
      rewrite Hold, Hnew, Hrw'. cbn [fst dirents]. split.
      - apply lookup_insert_eq.
      - intros n i H. rewrite lookup_insert_ne; [exact H|].
        intros <-. congruence. }
    destruct Hm as [Hm1 Hm2].
    assert (Hend : w_end
                   = (untar_loop w_m originName dstName post
                        (tar_decode
                           (drop (f_pos file) (file_bytes w file))).2).1.1).
    { unfold w_end. rewrite (untar_world w file fi HS), Hdst, Hms.
      fold originName.
      rewrite (untar_loop_app originName dstName pre (m :: post)).
      fold w_pre. unfold w_m. simpl.
      destruct (untar_member w_pre originName dstName m) as [[w1 c1] e1].
      cbn [fst].
      now destruct (untar_loop w1 originName dstName post _)
        as [[w2 c2] e2]. }
    destruct (untar_loop_keeps originName dstName
                (tar_decode (drop (f_pos file) (file_bytes w file))).2
                post w_m) as [_ Hpost].
    rewrite <- Hend in Hpost.
    split; [now apply Hpost|]. split; [now apply Hpost, Hm2|].
    intros ino' Hc Hdiff.
    assert (Hc' : dirents w_end !! counterpart = Some ino')
      by now apply Hpost, Hm2.
    split; [exact Hc'|].
    rewrite Hc', (Hpost _ _ Hm1). congruence.
  - intros Hmissing. rewrite Hstep. unfold os_Link. now rewrite Hmissing.
Qed.

End Untar.

Lemma collidingWorld_root_renamed :
  genUnusedFilename (ext := Samples.dTarExtern) Samples.collidingWorld "d"
  = "d(1)"%string.
Proof.
  now rewrite genUnusedFilename_first.
Qed.

(** Extracting [d.tar] where [d], holding [d/a.txt], exists: the root
    becomes [d(1)], and after [untar] the hard link [d(1)/b.txt] is a
    name of the old file [d/a.txt] (inode 3), not of the extracted
    [d(1)/a.txt]. *)
Lemma untar_keeps_linkname_witness :
  let w_end := (untar (ext := Samples.dTarExtern) Samples.collidingWorld
                      Samples.dTarFile).1.1 in
  dirents w_end !! "d(1)/b.txt"%string = Some 3 /\
  dirents w_end !! "d/a.txt"%string = Some 3 /\
  dirents w_end !! "d(1)/b.txt"%string
  <> dirents w_end !! "d(1)/a.txt"%string.
Proof.
  intros w_end.
  pose proof (untar_keeps_linkname_under_renamed_root
                (ext := Samples.dTarExtern)
                Samples.collidingWorld Samples.dTarFile
                (mkFileInfo "d.tar" 1 (Samples.fileInode [])) "d(1)"
                [mkMember (mkHeader "d/" 0x1ed 0 TypeDir "" 0 0 ∅) [];
                 mkMember (mkHeader "d/a.txt" 0x1a4 2 TypeReg "" 0 0 ∅)
                          [x68; x69]]
                (mkMember
                   (mkHeader "d/b.txt" 0x1a4 0 TypeLink "d/a.txt" 0 0 ∅) [])
                [] eq_refl collidingWorld_root_renamed
                ltac:(discriminate) eq_refl eq_refl) as H.
  cbv zeta in H.
  change (TrimSuffix (fi_name (mkFileInfo "d.tar" 1 (Samples.fileInode [])))
            ".tar") with "d"%string in H.
  cbn [Name Linkname m_hdr] in H.
  change (Replace1 "d/b.txt" "d" "d(1)") with "d(1)/b.txt"%string in H.
  change (Replace1 "d/a.txt" "d" "d(1)") with "d(1)/a.txt"%string in H.
  destruct H as (_ & Hlink & _).
  destruct (Hlink 3) as (H1 & H2 & H3);
    [vm_compute; reflexivity | vm_compute; reflexivity | reflexivity |].
  split; [exact H1|]. split; [exact H2|].
  destruct (H3 5) as [_ H4];
    [vm_compute; reflexivity | discriminate | exact H4].
Defined.

(** ** Compression and decompression: [snap], [snapSafe], [unsnap] *)

Lemma IsRegular_new_file {mask} perm :
  IsRegular (Z.lor S_IFREG (masked mask perm)) = true.
Proof.
  unfold IsRegular, kind_of_mode, masked, Perm.
  assert (E : Z.land (Z.lor S_IFREG (Z.ldiff (Z.land perm 0x1ff) mask))
                     S_IFMT = S_IFREG).
  { rewrite Z.land_lor_distr_l, Z.ldiff_land, <- !Z.land_assoc.
    rewrite (Z.land_comm (Z.lnot mask)), (Z.land_assoc 0x1ff).
    change (Z.land 0x1ff S_IFMT) with 0. now rewrite Z.land_0_l, Z.land_0_r. }
  now rewrite E.
Qed.

Lemma fresh_inode w : inodes w !! fresh (dom (inodes w)) = None.
Proof. apply not_elem_of_dom, is_fresh. Qed.

Lemma File_Write_open w f i b :
  f_closed f = false -> inodes w !! f_ino f = Some i ->
  File_Write w f b
  = (set_inodes w (<[f_ino f := append_data i b]> (inodes w)), None).
Proof. intros Hc Hi. unfold File_Write. now rewrite Hc, Hi. Qed.

Lemma append_data_app i a b :
  append_data (append_data i a) b = append_data i (a ++ b).
Proof. unfold append_data. simpl. now rewrite app_assoc. Qed.

Lemma append_data_nil i : append_data i [] = i.
Proof. destruct i. unfold append_data. simpl. now rewrite app_nil_r. Qed.

Lemma set_inodes_id w t : inodes w = t -> set_inodes w t = w.
Proof. intros <-. now destruct w. Qed.

Lemma set_inodes_twice w t t' :
  set_inodes (set_inodes w t) t' = set_inodes w t'.
Proof. reflexivity. Qed.

Lemma chunks_concat size : (0 < size)%nat -> forall fuel l,
  (length l <= fuel)%nat -> List.concat (chunks fuel size l) = l.
Proof.
  intros Hsize. induction fuel as [|fuel IH]; intros l Hlen.
  - destruct l; [reflexivity | simpl in Hlen; lia].
  - destruct l as [|x l]; [reflexivity|].
    cbn [chunks]. rewrite List.concat_cons, IH.
    + apply take_drop.
    + rewrite length_drop. simpl in *. lia.
Qed.

Section Codec.
Context {ext : Extern}.

(** Writing [ps] through a snappy writer appends the writer's stream
    to the destination. *)
Lemma sz_write_all_open ps : forall w dst szw i,
  f_closed dst = false -> inodes w !! f_ino dst = Some i ->
  sz_write_all w dst szw ps
  = (set_inodes w (<[f_ino dst := append_data i (sz_stream szw ps)]>
                     (inodes w)), None).
Proof.
  induction ps as [|p ps IH]; intros w dst szw i Hc Hi.
  - simpl. rewrite append_data_nil, set_inodes_id; [reflexivity|].
    symmetry. now apply insert_id.
  - cbn [sz_write_all sz_stream].
    destruct (sz_Write szw p) as [szw' out].
    rewrite (File_Write_open w dst i out Hc Hi).
    rewrite (IH _ dst szw' (append_data i out) Hc)
      by (simpl; apply lookup_insert_eq).
    rewrite set_inodes_twice. simpl inodes.
    now rewrite insert_insert_eq, append_data_app.
Qed.

(** [create] on a free name of a writable world makes an empty
    regular file under a fresh inode number. *)
Lemma create_free w name mode :
  dirents w !! name = None -> readonly w = false ->
  create w name mode
  = (with_new_file w name mode [], Some (new_file w name), None).
Proof.
  intros Hfree Hrw. unfold create.
  rewrite (genUnusedFilename_fresh w name (exists_missing w name Hfree)).
  unfold os_OpenFile. rewrite (resolve_missing w _ name Hfree).
  rewrite Hfree, Hrw. reflexivity.
Qed.

(** [create] fails where nothing can be created, and makes nothing. *)
Lemma create_readonly w name mode :
  dirents w !! name = None -> readonly w = true ->
  create w name mode = (w, None, Some EROFS).
Proof.
  intros Hfree Hro. unfold create.
  rewrite (genUnusedFilename_fresh w name (exists_missing w name Hfree)).
  unfold os_OpenFile. rewrite (resolve_missing w _ name Hfree).
  now rewrite Hfree, Hro.
Qed.

End Codec.

Lemma with_new_file_open w name mode data :
  os_Open (with_new_file w name mode data) name
  = (Some (new_file w name), None).
Proof.
  unfold os_Open.
  rewrite (os_Stat_plain _ name
             (mkFileInfo (basename name) (fresh (dom (inodes w)))
                (Inode (Z.lor S_IFREG (masked (umask w) mode)) 1 0 data ""
                       None))).
  - reflexivity.
  - unfold os_Lstat, with_new_file. cbn [dirents inodes].
    now rewrite !lookup_insert_eq.
  - apply IsRegular_not_symlink, IsRegular_new_file.
Qed.

Lemma with_new_file_bytes w name mode data :
  file_bytes (with_new_file w name mode data) (new_file w name) = data.
Proof.
  unfold file_bytes, with_new_file, new_file.
  cbn [f_closed f_ino inodes]. rewrite lookup_insert_eq.
  cbn [st_mode i_data]. now rewrite IsRegular_new_file.
Qed.

Lemma with_new_file_inode w name mode data :
  inodes (with_new_file w name mode data) !! f_ino (new_file w name)
  = Some (Inode (Z.lor S_IFREG (masked (umask w) mode)) 1 0 data "" None).
Proof. unfold with_new_file, new_file. simpl. apply lookup_insert_eq. Qed.

(** The inodes that were there stay as they were. *)
Lemma with_new_file_old w name mode data ino i :
  inodes w !! ino = Some i ->
  inodes (with_new_file w name mode data) !! ino = Some i.
Proof.
  intros Hi. unfold with_new_file. simpl.
  rewrite lookup_insert_ne; [exact Hi|].
  intros E. rewrite <- E, fresh_inode in Hi. discriminate.
Qed.

(** What could be opened can still be opened, and is the same file. *)
Lemma os_Lstat_with_new_file w name mode data n fi :
  dirents w !! name = None -> os_Lstat w n = inr fi ->
  os_Lstat (with_new_file w name mode data) n = inr fi.
Proof.
  intros Hfree. unfold os_Lstat, with_new_file. cbn [dirents inodes].
  destruct (dirents w !! n) as [ino|] eqn:Hd; [|discriminate].
  rewrite lookup_insert_ne by (intros <-; congruence). rewrite Hd.
  destruct (inodes w !! ino) as [j|] eqn:Hj; [|discriminate].
  rewrite lookup_insert_ne; [now rewrite Hj|].
  intros E. rewrite <- E, fresh_inode in Hj. discriminate.
Qed.

Lemma follow_with_new_file w name mode data :
  dirents w !! name = None ->
  forall fuel n fi,
    follow w fuel n = inr fi ->
    follow (with_new_file w name mode data) fuel n = inr fi.
Proof.
  intros Hfree. induction fuel as [|fuel IH]; intros n fi.
  - simpl. destruct (os_Lstat w n) as [e|fi0] eqn:HL; [discriminate|].
    rewrite (os_Lstat_with_new_file w name mode data n fi0 Hfree HL).
    now destruct (IsSymlink (fi_Mode fi0)).
  - rewrite !follow_S.
    destruct (os_Lstat w n) as [e|fi0] eqn:HL; [discriminate|].
    rewrite (os_Lstat_with_new_file w name mode data n fi0 Hfree HL).
    destruct (IsSymlink (fi_Mode fi0)); [|trivial].
    destruct (follow w fuel (i_target (fi_sys fi0))) as [e|fi1] eqn:HF;
      [discriminate|].
    now rewrite (IH _ _ HF).
Qed.

Lemma os_Open_with_new_file w name mode data n file :
  dirents w !! name = None ->
  os_Open w n = (Some file, None) ->
  os_Open (with_new_file w name mode data) n = (Some file, None).
Proof.
  intros Hfree. unfold os_Open, os_Stat.
  destruct (follow w maxSymlinks n) as [e|fi] eqn:HF; [discriminate|].
  now rewrite (follow_with_new_file w name mode data Hfree _ _ _ HF).
Qed.

Lemma file_bytes_open w f i :
  f_closed f = false -> inodes w !! f_ino f = Some i ->
  IsRegular (st_mode i) = true -> file_bytes w f = i_data i.
Proof. intros Hc Hi Hr. unfold file_bytes. now rewrite Hc, Hi, Hr. Qed.

Lemma File_Stat_open w f i :
  f_closed f = false -> inodes w !! f_ino f = Some i ->
  File_Stat w f = inr (mkFileInfo (basename (f_name f)) (f_ino f) i).
Proof. intros Hc Hi. unfold File_Stat. now rewrite Hc, Hi. Qed.

Section Snap.
Context {ext : Extern}.

(** Creating the destination and writing [ps] through a fresh snappy
    writer leaves a new file holding the writer's stream. *)
Lemma create_and_write w name mode ps :
  dirents w !! name = None -> readonly w = false ->
  exists w1,
    create w name mode = (w1, Some (new_file w name), None) /\
    w1 = with_new_file w name mode [] /\
    sz_write_all w1 (new_file w name) sz_NewWriter ps
    = (with_new_file w name mode (sz_stream sz_NewWriter ps), None).
Proof.
  intros Hfree Hrw. eexists. split; [now apply create_free|].
  split; [reflexivity|].
  rewrite (sz_write_all_open ps _ (new_file w name) sz_NewWriter
             (Inode (Z.lor S_IFREG (masked (umask w) mode)) 1 0 [] "" None) eq_refl)
    by (simpl; apply lookup_insert_eq).
  unfold set_inodes, with_new_file, append_data. simpl.
  now rewrite insert_insert_eq.
Qed.

(** [snapSafe] streams what is left to read of the source, in writes
    of at most 4096 bytes, into a new file, and returns it re-opened. *)
Lemma snapSafe_streams_rest w src i dstName :
  f_closed src = false -> inodes w !! f_ino src = Some i ->
  IsRegular (st_mode i) = true -> readonly w = false ->
  genUnusedFilename w (concat [f_name src; ".sz"]%string) = dstName ->
  dirents w !! dstName = None ->
  exists src',
    snapSafe w src
    = (with_new_file w dstName (st_mode i)
         (sz_stream sz_NewWriter
            (chunks (length (drop (f_pos src) (i_data i))) defaultBufSize
                    (drop (f_pos src) (i_data i)))),
       src', Some (new_file w dstName), None).
Proof.
  intros Hc Hi Hreg Hrw Hname Hfree. unfold snapSafe.
  rewrite (File_Stat_open w src i Hc Hi), Hname.
  destruct (create_and_write w dstName (st_mode i)
              (chunks (length (drop (f_pos src) (i_data i))) defaultBufSize
                      (drop (f_pos src) (i_data i))) Hfree Hrw)
    as (w1 & Hcreate & Hw1 & Hwrite).
  unfold fi_Mode. cbn [fi_sys]. rewrite Hcreate.
  unfold File_ReadRest. rewrite Hc.
  assert (Hbytes : file_bytes w1 src = i_data i).
  { apply file_bytes_open; [exact Hc | | exact Hreg].
    rewrite Hw1. now apply with_new_file_old. }
  rewrite Hbytes. cbv beta iota zeta. rewrite Hwrite.
  rewrite with_new_file_open. eexists. reflexivity.
Qed.

(** The fast path of [snap]: the source fits in memory; what is left
    to read goes through the snappy writer in one write. *)
Lemma snap_fast_path w src i dstName :
  f_closed src = false -> inodes w !! f_ino src = Some i ->
  IsRegular (st_mode i) = true -> readonly w = false ->
  genUnusedFilename w (concat [f_name src; ".sz"]%string) = dstName ->
  dirents w !! dstName = None ->
  (length (drop (f_pos src) (i_data i)) <= memlimit w)%nat ->
  exists src',
    snap w src
    = (with_new_file w dstName (st_mode i)
         (sz_stream sz_NewWriter [drop (f_pos src) (i_data i)]),
       src', Some (new_file w dstName), None).
Proof.
  intros Hc Hi Hreg Hrw Hname Hfree Hfit. unfold snap.
  rewrite (File_Stat_open w src i Hc Hi), Hname.
  destruct (create_and_write w dstName (st_mode i)
              [drop (f_pos src) (i_data i)] Hfree Hrw)
    as (w1 & Hcreate & Hw1 & Hwrite).
  unfold fi_Mode. cbn [fi_sys]. rewrite Hcreate.
  unfold ioutil_ReadAll. rewrite Hc.
  assert (Hbytes : file_bytes w1 src = i_data i).
  { apply file_bytes_open; [exact Hc | | exact Hreg].
    rewrite Hw1. now apply with_new_file_old. }
  assert (Hmem : memlimit w1 = memlimit w) by now rewrite Hw1.
  rewrite Hbytes, Hmem. cbv beta iota zeta.
  rewrite (proj2 (Nat.leb_le _ _) Hfit). rewrite Hwrite.
  rewrite with_new_file_open. eexists. reflexivity.
Qed.

(** The fallback of [snap]: when [ioutil.ReadAll] gives up, the
    deferred function runs [snapSafe] on the source as the failed
    read left it, in the world where the destination of the fast path
    exists, empty. *)
Lemma snap_falls_back w src i dstName :
  f_closed src = false -> inodes w !! f_ino src = Some i ->
  IsRegular (st_mode i) = true -> readonly w = false ->
  genUnusedFilename w (concat [f_name src; ".sz"]%string) = dstName ->
  dirents w !! dstName = None ->
  (memlimit w < length (drop (f_pos src) (i_data i)))%nat ->
  snap w src
  = snapSafe (with_new_file w dstName (st_mode i) [])
             (mkFile (f_name src) (f_ino src) (f_pos src + memlimit w)
                     false).
Proof.
  intros Hc Hi Hreg Hrw Hname Hfree Hbig. unfold snap.
  rewrite (File_Stat_open w src i Hc Hi), Hname.
  unfold fi_Mode. cbn [fi_sys].
  rewrite (create_free w dstName (st_mode i) Hfree Hrw).
  fold (with_new_file w dstName (st_mode i) []).
  unfold ioutil_ReadAll. rewrite Hc.
  assert (Hbytes : file_bytes (with_new_file w dstName (st_mode i) []) src
                   = i_data i).
  { apply file_bytes_open; [exact Hc | | exact Hreg].
    now apply with_new_file_old. }
  rewrite Hbytes. cbv beta iota zeta.
  change (memlimit (with_new_file w dstName (st_mode i) []))
    with (memlimit w).
  rewrite (proj2 (Nat.leb_gt _ _) Hbig). reflexivity.
Qed.

(** [unsnap] decodes what is left to read of the source into a new
    file and returns it re-opened. *)
Lemma unsnap_decodes w src i outName decoded :
  f_closed src = false -> inodes w !! f_ino src = Some i ->
  IsRegular (st_mode i) = true -> readonly w = false ->
  genUnusedFilename w (unsnap_name src) = outName ->
  dirents w !! outName = None ->
  sz_decode (drop (f_pos src) (i_data i)) = (decoded, None) ->
  exists src',
    unsnap w src
    = (with_new_file w outName (st_mode i) decoded, src',
       Some (new_file w outName), None).
Proof.
  intros Hc Hi Hreg Hrw Hname Hfree Hdec. unfold unsnap.
  rewrite (File_Stat_open w src i Hc Hi). cbn [fi_name].
  unfold unsnap_name in Hname. rewrite Hname.
  unfold fi_Mode. cbn [fi_sys].
  rewrite (create_free w outName (st_mode i) Hfree Hrw).
  fold (with_new_file w outName (st_mode i) []).
  fold (new_file w outName).
  unfold File_ReadRest. rewrite Hc.
  assert (Hbytes : file_bytes (with_new_file w outName (st_mode i) []) src
                   = i_data i).
  { apply file_bytes_open; [exact Hc | | exact Hreg].
    now apply with_new_file_old. }
  rewrite Hbytes. cbv beta iota zeta. rewrite Hdec.
  rewrite (File_Write_open _ (new_file w outName) _ decoded eq_refl
             (with_new_file_inode w outName (st_mode i) [])).
  assert (Hw : set_inodes (with_new_file w outName (st_mode i) [])
                 (<[f_ino (new_file w outName)
                    := append_data
                         (Inode (Z.lor S_IFREG (masked (umask w) (st_mode i))) 1 0 []
                                "" None) decoded]>
                    (inodes (with_new_file w outName (st_mode i) [])))
               = with_new_file w outName (st_mode i) decoded).
  { unfold set_inodes, with_new_file, append_data, new_file. simpl.
    now rewrite insert_insert_eq. }
  rewrite Hw, with_new_file_open. eexists. reflexivity.
Qed.

End Snap.

Lemma os_Open_file w filename src :
  os_Open w filename = (Some src, None) ->
  f_closed src = false /\ f_pos src = 0%nat /\ f_name src = filename.
Proof.
  unfold os_Open. destruct (os_Stat w filename); [discriminate|].
  now intros [= <-].
Qed.

Section RoundTrip.
Context {ext : Extern}.

(** Decompressing the new file [dstName] that holds the stream of a
    fresh snappy writer over the writes [ps] gives a file holding the
    bytes written. *)
Lemma unsnap_of_stream w dstName mode ps :
  snappy_sound ext ->
  dirents (with_new_file w dstName mode (sz_stream sz_NewWriter ps))
    !! genUnusedFilename
         (with_new_file w dstName mode (sz_stream sz_NewWriter ps))
         (unsnap_name (new_file w dstName)) = None ->
  exists w2 dst2 out,
    unsnap (with_new_file w dstName mode (sz_stream sz_NewWriter ps))
           (new_file w dstName) = (w2, dst2, Some out, None) /\
    file_bytes w2 out = List.concat ps.
Proof.
  intros Hsound Hfree.
  destruct (unsnap_decodes
              (with_new_file w dstName mode (sz_stream sz_NewWriter ps))
              (new_file w dstName) _ _ (List.concat ps) eq_refl
              (with_new_file_inode w dstName mode _)
              (IsRegular_new_file mode) eq_refl eq_refl Hfree
              (Hsound ps)) as (src' & Hun).
  do 3 eexists. split; [exact Hun|]. apply with_new_file_bytes.
Qed.

(** X25.  The round trip when nothing fails.  A regular file [F],
    just opened, in a world where files can be created and the probes
    for unused names find one: [snap] (when [F] fits in the memory
    [ioutil.ReadAll] can get) and [snapSafe] each return a compressed
    file without error, and [unsnap] applied to that file returns,
    without error, a file whose bytes are those of [F]. *)
Lemma roundtrip_when_nothing_fails w filename src i :
  snappy_sound ext ->
  os_Open w filename = (Some src, None) ->
  inodes w !! f_ino src = Some i ->
  IsRegular (st_mode i) = true ->
  readonly w = false ->
  dirents w !! genUnusedFilename w (concat [f_name src; ".sz"]%string)
  = None ->
  ((length (i_data i) <= memlimit w)%nat ->
   exists w1 src1 dst,
     snap w src = (w1, src1, Some dst, None) /\
     (dirents w1 !! genUnusedFilename w1 (unsnap_name dst) = None ->
      exists w2 dst2 out,
        unsnap w1 dst = (w2, dst2, Some out, None) /\
        file_bytes w2 out = i_data i)) /\
  (exists w1 src1 dst,
     snapSafe w src = (w1, src1, Some dst, None) /\
     (dirents w1 !! genUnusedFilename w1 (unsnap_name dst) = None ->
      exists w2 dst2 out,
        unsnap w1 dst = (w2, dst2, Some out, None) /\
        file_bytes w2 out = i_data i)).
Proof.
  intros Hsound Hopen Hi Hreg Hrw Hfree.
  destruct (os_Open_file w filename src Hopen) as (Hc & Hpos & _).
  split.
  - intros Hfit.
    destruct (snap_fast_path w src i _ Hc Hi Hreg Hrw eq_refl Hfree)
      as (src1 & Hsnap).
    { rewrite Hpos. exact Hfit. }
    rewrite Hpos in Hsnap. rewrite !drop_0 in Hsnap.
    do 3 eexists. split; [exact Hsnap|]. intros Hfree2.
    destruct (unsnap_of_stream w _ (st_mode i) [i_data i] Hsound Hfree2)
      as (w2 & dst2 & out & Hun & Hbytes).
    exists w2, dst2, out. split; [exact Hun|].
    rewrite Hbytes. simpl. apply app_nil_r.
  - destruct (snapSafe_streams_rest w src i _ Hc Hi Hreg Hrw eq_refl Hfree)
      as (src1 & Hsafe).
    rewrite Hpos in Hsafe. rewrite !drop_0 in Hsafe.
    do 3 eexists. split; [exact Hsafe|]. intros Hfree2.
    destruct (unsnap_of_stream w _ (st_mode i) _ Hsound Hfree2)
      as (w2 & dst2 & out & Hun & Hbytes).
    exists w2, dst2, out. split; [exact Hun|].
    rewrite Hbytes. apply chunks_concat; [unfold defaultBufSize; lia|].
    lia.
Qed.

(** The fallback.  When the source does not fit in the memory
    [ioutil.ReadAll] can get, the fast path fails after it consumed
    [memlimit] bytes and left its destination empty; the deferred function
    runs [snapSafe] on the same open file, which nothing rewinds, so that
    the file [snap] returns holds the stream of the bytes that were not
    read yet. *)
Lemma snap_after_failed_read w filename src i :
  os_Open w filename = (Some src, None) ->
  inodes w !! f_ino src = Some i ->
  IsRegular (st_mode i) = true ->
  readonly w = false ->
  dirents w !! genUnusedFilename w (concat [f_name src; ".sz"]%string)
  = None ->
  (memlimit w < length (i_data i))%nat ->
  dirents (with_new_file w
             (genUnusedFilename w (concat [f_name src; ".sz"]%string))
             (st_mode i) [])
    !! genUnusedFilename
         (with_new_file w
            (genUnusedFilename w (concat [f_name src; ".sz"]%string))
            (st_mode i) [])
         (concat [f_name src; ".sz"]%string) = None ->
  exists src1,
    snap w src
    = (with_new_file
         (with_new_file w
            (genUnusedFilename w (concat [f_name src; ".sz"]%string))
            (st_mode i) [])
         (genUnusedFilename
            (with_new_file w
               (genUnusedFilename w (concat [f_name src; ".sz"]%string))
               (st_mode i) [])
            (concat [f_name src; ".sz"]%string))
         (st_mode i)
         (sz_stream sz_NewWriter
            (chunks (length (drop (memlimit w) (i_data i))) defaultBufSize
                    (drop (memlimit w) (i_data i)))),
       src1,
       Some (new_file
               (with_new_file w
                  (genUnusedFilename w (concat [f_name src; ".sz"]%string))
                  (st_mode i) [])
               (genUnusedFilename
                  (with_new_file w
                     (genUnusedFilename w
                        (concat [f_name src; ".sz"]%string))
                     (st_mode i) [])
                  (concat [f_name src; ".sz"]%string))),
       None).
Proof.
  intros Hopen Hi Hreg Hrw Hfree Hbig Hfree1.
  destruct (os_Open_file w filename src Hopen) as (Hc & Hpos & _).
  rewrite (snap_falls_back w src i _ Hc Hi Hreg Hrw eq_refl Hfree)
    by (rewrite Hpos; exact Hbig).
  rewrite Hpos. cbn [Nat.add].
  set (w0 := with_new_file w _ (st_mode i) []) in *.
  destruct (snapSafe_streams_rest w0
              (mkFile (f_name src) (f_ino src) (memlimit w) false) i _
              eq_refl (with_new_file_old w _ _ _ _ _ Hi) Hreg eq_refl
              eq_refl Hfree1) as (src1 & Hsafe).
  cbn [f_pos] in Hsafe. exists src1. exact Hsafe.
Qed.

(** C3, what the code does.  The fast path failing because the source
    does not fit in memory, [snap] returns, without error, the file
    the fallback wrote, and that file decompresses to the source minus
    the [memlimit] bytes the fast path had read: not to the source,
    and not to what a successful fast-path run produces. *)
Theorem fallback_compresses_only_the_unread_rest w filename src i :
  snappy_sound ext ->
  os_Open w filename = (Some src, None) ->
  inodes w !! f_ino src = Some i ->
  IsRegular (st_mode i) = true ->
  readonly w = false ->
  dirents w !! genUnusedFilename w (concat [f_name src; ".sz"]%string)
  = None ->
  (memlimit w < length (i_data i))%nat ->
  dirents (with_new_file w
             (genUnusedFilename w (concat [f_name src; ".sz"]%string))
             (st_mode i) [])
    !! genUnusedFilename
         (with_new_file w
            (genUnusedFilename w (concat [f_name src; ".sz"]%string))
            (st_mode i) [])
         (concat [f_name src; ".sz"]%string) = None ->
  exists w1 src1 dst,
    snap w src = (w1, src1, Some dst, None) /\
    (dirents w1 !! genUnusedFilename w1 (unsnap_name dst) = None ->
     exists w2 dst2 out,
       unsnap w1 dst = (w2, dst2, Some out, None) /\
       file_bytes w2 out = drop (memlimit w) (i_data i)).
Proof.
  intros Hsound Hopen Hi Hreg Hrw Hfree Hbig Hfree1.
  destruct (snap_after_failed_read w filename src i Hopen Hi Hreg Hrw Hfree
              Hbig Hfree1) as (src1 & Hsnap).
  do 3 eexists. split; [exact Hsnap|]. intros Hfree2.
  destruct (unsnap_of_stream _ _ (st_mode i) _ Hsound Hfree2)
    as (w2 & dst2 & out & Hun & Hbytes).
  exists w2, dst2, out. split; [exact Hun|].
  rewrite Hbytes. apply chunks_concat; [unfold defaultBufSize; lia|].
  lia.
Qed.

(** C1, what the code does.  For a regular file that does not fit in
    the memory [ioutil.ReadAll] can get (some bytes of it do),
    compressing with [snap] succeeds and decompressing the result with
    [unsnap] succeeds, but the bytes that come out are not those of
    the file: the round trip loses what the fast path had read before
    it failed. *)
Theorem roundtrip_lost_when_fast_path_fails w filename src i :
  snappy_sound ext ->
  os_Open w filename = (Some src, None) ->
  inodes w !! f_ino src = Some i ->
  IsRegular (st_mode i) = true ->
  readonly w = false ->
  dirents w !! genUnusedFilename w (concat [f_name src; ".sz"]%string)
  = None ->
  (0 < memlimit w < length (i_data i))%nat ->
  dirents (with_new_file w
             (genUnusedFilename w (concat [f_name src; ".sz"]%string))
             (st_mode i) [])
    !! genUnusedFilename
         (with_new_file w
            (genUnusedFilename w (concat [f_name src; ".sz"]%string))
            (st_mode i) [])
         (concat [f_name src; ".sz"]%string) = None ->
  exists w1 src1 dst,
    snap w src = (w1, src1, Some dst, None) /\
    (dirents w1 !! genUnusedFilename w1 (unsnap_name dst) = None ->
     exists w2 dst2 out,
       unsnap w1 dst = (w2, dst2, Some out, None) /\
       file_bytes w2 out <> i_data i).
Proof.
  intros Hsound Hopen Hi Hreg Hrw Hfree Hbig Hfree1.
  destruct (snap_after_failed_read w filename src i Hopen Hi Hreg Hrw Hfree
              ltac:(lia) Hfree1) as (src1 & Hsnap).
  do 3 eexists. split; [exact Hsnap|]. intros Hfree2.
  destruct (unsnap_of_stream _ _ (st_mode i) _ Hsound Hfree2)
    as (w2 & dst2 & out & Hun & Hbytes).
  exists w2, dst2, out. split; [exact Hun|].
  rewrite Hbytes, chunks_concat by (unfold defaultBufSize; lia).
  intros E. apply (f_equal length) in E. rewrite length_drop in E. lia.
Qed.

End RoundTrip.

(** The stored codec of the samples is sound. *)
Lemma sample_stream ps :
  sz_stream (ext := Samples.sampleExtern) tt ps = List.concat ps.
Proof.
  induction ps as [|p ps IH]; [reflexivity|].
  change (sz_stream (ext := Samples.sampleExtern) tt (p :: ps))
    with (p ++ sz_stream (ext := Samples.sampleExtern) tt ps).
  now rewrite IH.
Qed.

Lemma sample_sound : snappy_sound Samples.sampleExtern.
Proof.
  intros ps.
  change (sz_stream (ext := Samples.sampleExtern) sz_NewWriter ps)
    with (sz_stream (ext := Samples.sampleExtern) tt ps).
  rewrite sample_stream. reflexivity.
Qed.

(** Compressing [f] (holding [hello]) makes [f.sz]; decompressing
    [f.sz] makes [f(1)], holding [hello]. *)
Example roundtrip_of_hello :
  exists w1 src1 dst w2 dst2 out,
    snap (ext := Samples.sampleExtern) (Samples.helloWorld 1024)
         Samples.fFile = (w1, src1, Some dst, None) /\
    f_name dst = "f.sz"%string /\
    unsnap (ext := Samples.sampleExtern) w1 dst
    = (w2, dst2, Some out, None) /\
    f_name out = "f(1)"%string /\
    file_bytes w2 out = [x68; x65; x6c; x6c; x6f].
Proof.
  pose proof (roundtrip_when_nothing_fails
                (ext := Samples.sampleExtern)
                (Samples.helloWorld 1024) "f" Samples.fFile
                (Samples.fileInode [x68; x65; x6c; x6c; x6f])
                sample_sound eq_refl eq_refl eq_refl eq_refl eq_refl)
    as [Hfast _].
  destruct Hfast as (w1 & src1 & dst & Hsnap & Hun); [simpl; lia|].
  destruct (snap_fast_path (ext := Samples.sampleExtern)
              (Samples.helloWorld 1024) Samples.fFile
              (Samples.fileInode [x68; x65; x6c; x6c; x6f]) "f.sz"
              eq_refl eq_refl eq_refl eq_refl eq_refl eq_refl)
    as (src' & Hs); [simpl; lia|].
  assert (Hs' : snap (ext := Samples.sampleExtern) (Samples.helloWorld 1024)
                  Samples.fFile
                = (with_new_file (Samples.helloWorld 1024) "f.sz"
                     (Z.lor S_IFREG 420) [x68; x65; x6c; x6c; x6f],
                   src', Some (new_file (Samples.helloWorld 1024) "f.sz"),
                   None)) by exact Hs.
  rewrite Hs' in Hsnap. injection Hsnap as <- <- <-.
  assert (Hname : genUnusedFilename (ext := Samples.sampleExtern)
            (with_new_file (Samples.helloWorld 1024) "f.sz"
               (Z.lor S_IFREG 420) [x68; x65; x6c; x6c; x6f])
            "f" = "f(1)"%string).
  { now rewrite genUnusedFilename_first. }
  change (unsnap_name (new_file (Samples.helloWorld 1024) "f.sz"))
    with "f"%string in Hun.
  rewrite Hname in Hun.
  destruct (Hun eq_refl) as (w2 & dst2 & out & Hunsnap & Hbytes).
  destruct (unsnap_decodes (ext := Samples.sampleExtern)
              (with_new_file (Samples.helloWorld 1024) "f.sz"
                 (Z.lor S_IFREG 420) [x68; x65; x6c; x6c; x6f])
              (new_file (Samples.helloWorld 1024) "f.sz") _ "f(1)"
              [x68; x65; x6c; x6c; x6f] eq_refl
              (with_new_file_inode _ _ _ _) (IsRegular_new_file _) eq_refl
              Hname eq_refl eq_refl) as (src'' & Hu).
  rewrite Hu in Hunsnap. injection Hunsnap as <- <- <-.
  do 6 eexists. split; [exact Hs'|]. split; [reflexivity|].
  split; [exact Hu|]. split; [reflexivity|]. exact Hbytes.
Defined.

(** With memory for two bytes, compressing [f] (holding [hello]) falls
    back to [snapSafe], which writes [f(1).sz]; [snap] returns it
    without error, and it decompresses to [llo]. *)
Lemma fallback_compresses_only_the_unread_rest_witness :
  exists w1 src1 dst w2 dst2 out,
    snap (ext := Samples.sampleExtern) (Samples.helloWorld 2)
         Samples.fFile = (w1, src1, Some dst, None) /\
    f_name dst = "f(1).sz"%string /\
    unsnap (ext := Samples.sampleExtern) w1 dst
    = (w2, dst2, Some out, None) /\
    file_bytes w2 out = [x6c; x6c; x6f].
Proof.
  set (hello := [x68; x65; x6c; x6c; x6f]).
  set (W0 := with_new_file (Samples.helloWorld 2) "f.sz"
               (Z.lor S_IFREG 420) []).
  set (W1 := with_new_file W0 "f(1).sz" (Z.lor S_IFREG 420)
               [x6c; x6c; x6f]).
  assert (N0 : genUnusedFilename (ext := Samples.sampleExtern) W0 "f.sz"
               = "f(1).sz"%string).
  { now rewrite genUnusedFilename_first. }
  assert (H8 : dirents W0
                 !! genUnusedFilename (ext := Samples.sampleExtern) W0 "f.sz"
               = None).
  { rewrite N0. reflexivity. }
  destruct (fallback_compresses_only_the_unread_rest
              (ext := Samples.sampleExtern)
              (Samples.helloWorld 2) "f" Samples.fFile
              (Samples.fileInode hello)
              sample_sound eq_refl eq_refl eq_refl eq_refl eq_refl)
    as (w1 & src1 & dst & Hsnap & Hun); [simpl; lia | exact H8 |].
  pose proof (snap_falls_back (ext := Samples.sampleExtern)
                (Samples.helloWorld 2) Samples.fFile
                (Samples.fileInode hello) "f.sz"
                eq_refl eq_refl eq_refl eq_refl eq_refl eq_refl) as Hfb.
  destruct (snapSafe_streams_rest (ext := Samples.sampleExtern)
              W0 (mkFile "f" 1 2 false) (Samples.fileInode hello)
              "f(1).sz" eq_refl eq_refl eq_refl eq_refl N0 eq_refl)
    as (src' & Hsafe).
  assert (Hs' : snap (ext := Samples.sampleExtern) (Samples.helloWorld 2)
                  Samples.fFile
                = (W1, src', Some (new_file W0 "f(1).sz"), None)).
  { rewrite Hfb by (simpl; lia). exact Hsafe. }
  rewrite Hs' in Hsnap. injection Hsnap as <- <- <-.
  assert (N1 : genUnusedFilename (ext := Samples.sampleExtern) W1 "f(1)"
               = "f(1)"%string).
  { now apply genUnusedFilename_fresh. }
  change (unsnap_name (new_file W0 "f(1).sz")) with "f(1)"%string in Hun.
  rewrite N1 in Hun.
  destruct (Hun eq_refl) as (w2 & dst2 & out & Hunsnap & Hbytes).
  exists W1, src', (new_file W0 "f(1).sz"), w2, dst2, out.
  split; [exact Hs'|]. split; [reflexivity|].
  split; [exact Hunsnap|]. exact Hbytes.
Defined.

(** ** The orchestrator: [analyze] *)

Section Analyze.
Context {ext : Extern}.

(** C2, what the code does.  When the destination cannot be created,
    [snap] returns before its deferred fallback is registered: it
    hands back a nil file and the error of the fast path, [snapSafe]
    not having run; [analyze] then evaluates [sz.Name ()] on the nil
    file and panics, so [snapSafe] is never attempted and no error is
    returned to the caller. *)
Theorem create_failure_skips_the_safe_path w filename file i :
  os_Open w filename = (Some file, None) ->
  inodes w !! f_ino file = Some i ->
  IsRegular (st_mode i) = true ->
  isSz w file = false ->
  readonly w = true ->
  dirents w !! genUnusedFilename w (concat [f_name file; ".sz"]%string)
  = None ->
  snap w file = (w, file, None, Some EROFS) /\
  analyze w filename = (w, Panicked).
Proof.
  intros Hopen Hi Hreg Hsz Hro Hfree.
  destruct (os_Open_file w filename file Hopen) as (Hc & _ & _).
  assert (Hsnap : snap w file = (w, file, None, Some EROFS)).
  { unfold snap. rewrite (File_Stat_open w file i Hc Hi).
    set (dstName := genUnusedFilename w _) in *.
    now rewrite (create_readonly w dstName _ Hfree Hro). }
  split; [exact Hsnap|].
  unfold analyze. rewrite Hopen, Hsz.
  unfold isDir. rewrite (File_Stat_open w file i Hc Hi).
  unfold fi_Mode. cbn [fi_sys]. rewrite (IsRegular_not_dir _ Hreg).
  unfold analyze_compress. now rewrite Hsnap.
Qed.

End Analyze.

(** Compressing [f] where nothing can be created. *)
Lemma create_failure_skips_the_safe_path_witness :
  snap (ext := Samples.sampleExtern) Samples.readonlyWorld Samples.fFile
  = (Samples.readonlyWorld, Samples.fFile, None, Some EROFS) /\
  analyze (ext := Samples.sampleExtern) Samples.readonlyWorld "f"
  = (Samples.readonlyWorld, Panicked).
Proof.
  apply (create_failure_skips_the_safe_path (ext := Samples.sampleExtern)
           Samples.readonlyWorld "f" Samples.fFile
           (Samples.fileInode [x68; x65; x6c; x6c; x6f]));
    reflexivity.
Defined.

(** With memory for four bytes, [f] (holding [hello]) is compressed
    without error and the result is decompressed without error, to
    bytes that are not those of [f]. *)
Lemma roundtrip_lost_when_fast_path_fails_witness :
  exists w1 src1 dst w2 dst2 out,
    snap (ext := Samples.sampleExtern) (Samples.helloWorld 4)
         Samples.fFile = (w1, src1, Some dst, None) /\
    unsnap (ext := Samples.sampleExtern) w1 dst
    = (w2, dst2, Some out, None) /\
    file_bytes w2 out <> [x68; x65; x6c; x6c; x6f].
Proof.
  set (hello := [x68; x65; x6c; x6c; x6f]).
  set (W0 := with_new_file (Samples.helloWorld 4) "f.sz"
               (Z.lor S_IFREG 420) []).
  set (W1 := with_new_file W0 "f(1).sz" (Z.lor S_IFREG 420) [x6f]).
  assert (N0 : genUnusedFilename (ext := Samples.sampleExtern) W0 "f.sz"
               = "f(1).sz"%string).
  { now rewrite genUnusedFilename_first. }
  assert (H8 : dirents W0
                 !! genUnusedFilename (ext := Samples.sampleExtern) W0 "f.sz"
               = None).
  { rewrite N0. reflexivity. }
  destruct (roundtrip_lost_when_fast_path_fails
              (ext := Samples.sampleExtern)
              (Samples.helloWorld 4) "f" Samples.fFile
              (Samples.fileInode hello)
              sample_sound eq_refl eq_refl eq_refl eq_refl eq_refl)
    as (w1 & src1 & dst & Hsnap & Hun); [simpl; lia | exact H8 |].
  pose proof (snap_falls_back (ext := Samples.sampleExtern)
                (Samples.helloWorld 4) Samples.fFile
                (Samples.fileInode hello) "f.sz"
                eq_refl eq_refl eq_refl eq_refl eq_refl eq_refl) as Hfb.
  destruct (snapSafe_streams_rest (ext := Samples.sampleExtern)
              W0 (mkFile "f" 1 4 false) (Samples.fileInode hello)
              "f(1).sz" eq_refl eq_refl eq_refl eq_refl N0 eq_refl)
    as (src' & Hsafe).
  assert (Hs' : snap (ext := Samples.sampleExtern) (Samples.helloWorld 4)
                  Samples.fFile
                = (W1, src', Some (new_file W0 "f(1).sz"), None)).
  { rewrite Hfb by (simpl; lia). exact Hsafe. }
  rewrite Hs' in Hsnap. injection Hsnap as <- <- <-.
  assert (N1 : genUnusedFilename (ext := Samples.sampleExtern) W1 "f(1)"
               = "f(1)"%string).
  { now apply genUnusedFilename_fresh. }
  change (unsnap_name (new_file W0 "f(1).sz")) with "f(1)"%string in Hun.
  rewrite N1 in Hun.
  destruct (Hun eq_refl) as (w2 & dst2 & out & Hunsnap & Hbytes).
  exists W1, src', (new_file W0 "f(1).sz"), w2, dst2, out.
  split; [exact Hs'|]. split; [exact Hunsnap|]. exact Hbytes.
Defined.

(** ** Further instances *)

(** The five bytes of [hello] are no snappy stream and no tar archive. *)
Lemma sniffers_match_exactly_the_signatures_witness :
  (length (file_bytes (Samples.helloWorld 0) Samples.fFile) < 10)%nat /\
  isSz (Samples.helloWorld 0) Samples.fFile = false /\
  isTar (Samples.helloWorld 0) Samples.fFile = false.
Proof.
  assert (E : file_bytes (Samples.helloWorld 0) Samples.fFile
              = [x68; x65; x6c; x6c; x6f]) by reflexivity.
  assert (H : (length (file_bytes (Samples.helloWorld 0) Samples.fFile)
               < 10)%nat) by (rewrite E; simpl; lia).
  split; [exact H|].
  destruct (sniffers_match_exactly_the_signatures
              (Samples.helloWorld 0) Samples.fFile)
    as (_ & _ & Hshort & _ & Hshort' & _).
  split; [apply Hshort; exact H | apply Hshort'; rewrite E; simpl; lia].
Defined.

(** On a host that knows [.txt] and not [.zzz]. *)
Lemma splitExt_strips_known_or_allowed_witness :
  splitExt (ext := Samples.sampleExtern) "a.txt" = ("a", ".txt")%string /\
  splitExt (ext := Samples.sampleExtern) "a.zzz" = ("a.zzz", "")%string.
Proof.
  destruct (splitExt_strips_known_or_allowed (ext := Samples.sampleExtern)
              "a.txt") as (_ & _ & Htxt & Hzzz).
  split; [apply Htxt; discriminate | apply Hzzz; reflexivity].
Defined.


(* --------------------------------------------------------------------- *)
(** ** Further properties, function by function                           *)
(* --------------------------------------------------------------------- *)

(** ** Further properties of the command line *)

Lemma slcHas_any slc args :
  slcHas slc args = true <-> exists s, In s slc /\ In s args.
Proof.
  induction slc as [|x slc IH]; simpl.
  - split; [discriminate|]. intros (s & [] & _).
  - destruct (matchesOr x args) eqn:E.
    + split; [|reflexivity]. intros _. exists x. split; [now left|].
      now apply matchesOr_In.
    + rewrite IH. split.
      * intros (s & Hs & Ha). exists s. split; [now right|exact Ha].
      * intros (s & [<-|Hs] & Ha).
        -- apply matchesOr_In in Ha. congruence.
        -- exists s. split; assumption.
Qed.

(** X1.  [matchesOr] is true exactly when the string is one of the
    conditions, and [slcHas] exactly when some element of the slice is
    one of the arguments. *)
Theorem membership_tests_are_exact :
  (forall s conditions, matchesOr s conditions = true <-> In s conditions) /\
  (forall slc args,
      slcHas slc args = true <-> exists s, In s slc /\ In s args).
Proof.
  split; [exact matchesOr_In | exact slcHas_any].
Qed.

(** ** Device numbers *)

Lemma testbit_ones_shift k s n :
  0 <= k -> 0 <= s -> 0 <= n ->
  Z.testbit (Z.shiftl (Z.ones k) s) n = (s <=? n) && (n <? s + k).
Proof.
  intros Hk Hs Hn. rewrite Z.shiftl_spec by lia.
  destruct (Z.leb_spec s n).
  - rewrite Z.testbit_ones_nonneg by lia.
    destruct (Z.ltb_spec (n - s) k), (Z.ltb_spec n (s + k)); simpl;
      try lia; reflexivity.
  - rewrite Z.testbit_neg_r by lia. reflexivity.
Qed.

Lemma small_testbit x k n :
  0 <= x < 2 ^ k -> k <= n -> Z.testbit x n = false.
Proof.
  intros Hx Hn. destruct (Z.eq_dec x 0) as [->|Hnz]; [apply Z.bits_0|].
  apply Z.bits_above_log2; [lia|].
  assert (0 <= k).
  { destruct (Z.le_gt_cases 0 k); [lia|].
    rewrite Z.pow_neg_r in Hx by lia. lia. }
  assert (Z.log2 x < k) by (apply Z.log2_lt_pow2; lia). lia.
Qed.

Ltac decide_cmp :=
  repeat match goal with
    | |- context [?a <=? ?b] =>
        first [ replace (a <=? b) with true
                  by (symmetry; apply Z.leb_le; lia)
              | replace (a <=? b) with false
                  by (symmetry; apply Z.leb_gt; lia) ]
    | |- context [?a <? ?b] =>
        first [ replace (a <? b) with true
                  by (symmetry; apply Z.ltb_lt; lia)
              | replace (a <? b) with false
                  by (symmetry; apply Z.ltb_ge; lia) ]
    end.

Lemma devmajor_makedev major minor :
  0 <= major < 2 ^ 12 -> 0 <= minor < 2 ^ 20 ->
  devmajor (makedev major minor) = major.
Proof.
  intros HM Hm. unfold devmajor, makedev.
  change 0xfff with (Z.shiftl (Z.ones 12) 0).
  change 0xff with (Z.shiftl (Z.ones 8) 0).
  change 0xfff00 with (Z.shiftl (Z.ones 12) 8).
  apply Z.bits_inj'; intros n Hn.
  rewrite Z.land_spec, Z.shiftr_spec, !Z.lor_spec by lia.
  rewrite (Z.shiftl_spec (Z.land major _)), (Z.shiftl_spec (Z.land minor _))
    by lia.
  replace (n + 8 - 8) with n by lia.
  assert (Hhigh : Z.testbit (Z.land minor (Z.shiftl (Z.ones 12) 8))
                    (n + 8 - 12) && (n <? 12) = false).
  { destruct (Z.ltb_spec n 12); [|apply andb_false_r].
    destruct (Z.ltb_spec n 4); [now rewrite Z.testbit_neg_r by lia|].
    rewrite Z.land_spec, testbit_ones_shift by lia. decide_cmp.
    simpl. now rewrite !andb_false_r. }
  rewrite !Z.land_spec, !(testbit_ones_shift _ 0) by lia.
  rewrite <- Z.land_spec.
  destruct (Z.ltb_spec n 12).
  - rewrite andb_true_r in Hhigh. rewrite Hhigh. decide_cmp.
    simpl. rewrite !andb_true_r, !andb_false_r, !orb_false_r. reflexivity.
  - rewrite (small_testbit major 12 n) by lia. decide_cmp.
    simpl. now rewrite !andb_false_r.
Qed.

Lemma devminor_makedev major minor :
  0 <= major < 2 ^ 12 -> 0 <= minor < 2 ^ 20 ->
  devminor (makedev major minor) = minor.
Proof.
  intros HM Hm. unfold devminor, makedev.
  change 0xfff with (Z.shiftl (Z.ones 12) 0).
  change 0xff with (Z.shiftl (Z.ones 8) 0).
  change 0xfff00 with (Z.shiftl (Z.ones 12) 8).
  apply Z.bits_inj'; intros n Hn.
  rewrite Z.lor_spec, !Z.land_spec, Z.shiftr_spec by lia.
  rewrite !Z.lor_spec.
  rewrite !(Z.shiftl_spec (Z.land _ _)) by lia.
  repeat (rewrite testbit_ones_shift by lia).
  destruct (Z.ltb_spec n 8).
  - rewrite (Z.testbit_neg_r _ (n - 8)), (Z.testbit_neg_r _ (n - 12)) by lia.
    rewrite Z.land_spec, testbit_ones_shift by lia. decide_cmp.
    simpl. rewrite !andb_true_r, !andb_false_r, !orb_false_r. reflexivity.
  - decide_cmp. rewrite andb_false_r, orb_false_l, !Z.land_spec.
    repeat (rewrite testbit_ones_shift by lia).
    replace (n + 12 - 12) with n by lia.
    destruct (Z.ltb_spec n 20).
    + decide_cmp. simpl. rewrite !andb_true_r, !andb_false_r. reflexivity.
    + rewrite (small_testbit minor 20 n) by lia. decide_cmp.
      simpl. rewrite !andb_false_r. reflexivity.
Qed.

Lemma makedev_range major minor :
  0 <= major < 2 ^ 12 -> 0 <= minor < 2 ^ 20 ->
  0 <= makedev major minor < 2 ^ 32.
Proof.
  intros HM Hm. unfold makedev.
  assert (H1 : 0 <= Z.land major 0xfff) by (apply Z.land_nonneg; lia).
  assert (H2 : 0 <= Z.land minor 0xff) by (apply Z.land_nonneg; lia).
  assert (H3 : 0 <= Z.land minor 0xfff00) by (apply Z.land_nonneg; lia).
  assert (H4 : 0 <= Z.shiftl (Z.land major 0xfff) 8)
    by (apply Z.shiftl_nonneg; lia).
  assert (H5 : 0 <= Z.shiftl (Z.land minor 0xfff00) 12)
    by (apply Z.shiftl_nonneg; lia).
  split; [repeat (apply Z.lor_nonneg; split); assumption|].
  set (x := Z.lor _ _).
  assert (Hx : 0 <= x) by (repeat (apply Z.lor_nonneg; split); assumption).
  destruct (Z.eq_dec x 0) as [->|Hnz]; [reflexivity|].
  apply Z.log2_lt_cancel. rewrite Z.log2_pow2 by lia.
  subst x. rewrite !Z.log2_lor by (try apply Z.lor_nonneg; auto).
  assert (L1 : Z.log2 (Z.shiftl (Z.land major 4095) 8) < 32).
  { destruct (Z.eq_dec (Z.land major 4095) 0) as [->|N]; [simpl; lia|].
    rewrite Z.log2_shiftl by lia.
    pose proof (Z.log2_land major 4095 ltac:(lia) ltac:(lia)) as L.
    change (Z.log2 4095) with 11 in L. lia. }
  assert (L2 : Z.log2 (Z.land minor 255) < 32).
  { pose proof (Z.log2_land minor 255 ltac:(lia) ltac:(lia)) as L.
    change (Z.log2 255) with 7 in L. lia. }
  assert (L3 : Z.log2 (Z.shiftl (Z.land minor 1048320) 12) < 32).
  { destruct (Z.eq_dec (Z.land minor 1048320) 0) as [->|N]; [simpl; lia|].
    rewrite Z.log2_shiftl by lia.
    pose proof (Z.log2_land minor 1048320 ltac:(lia) ltac:(lia)) as L.
    change (Z.log2 1048320) with 19 in L. lia. }
  lia.
Qed.

(** X3.  The device numbers [devmajor] and [devminor] extract fit the
    fields they are stored in: a major number below [2^12] and a minor
    number below [2^20]. *)
Theorem device_numbers_in_range device :
  0 <= device ->
  0 <= devmajor device < 2 ^ 12 /\ 0 <= devminor device < 2 ^ 20.
Proof.
  intros H. split; [apply devmajor_range | now apply devminor_range].
Qed.

Lemma device_numbers_in_range_witness :
  0 <= devmajor 0x801 < 2 ^ 12 /\ 0 <= devminor 0x801 < 2 ^ 20.
Proof.
  apply (device_numbers_in_range 0x801). lia.
Defined.

(** X4.  [devmajor] and [devminor] undo the packing of a Linux device
    number, and [tarSetHeader] stores what they yield: the header of a
    character or block device whose [Rdev] packs [major] and [minor]
    carries [Devmajor = major] and [Devminor = minor], and the call
    returns the link count and the inode number without error. *)
Theorem tarSetHeader_unpacks_device_numbers hdr ino s major minor :
  kind_of_mode (st_mode s) = KCharDevice \/
  kind_of_mode (st_mode s) = KBlockDevice ->
  0 <= major < 2 ^ 12 -> 0 <= minor < 2 ^ 20 ->
  st_rdev s = makedev major minor ->
  devmajor (makedev major minor) = major /\
  devminor (makedev major minor) = minor /\
  exists hdr',
    tarSetHeader hdr (Some (ino, s))
    = (hdr', uint32 (st_nlink s), uint64 ino, None) /\
    Devmajor hdr' = major /\ Devminor hdr' = minor /\
    Name hdr' = Name hdr /\ Typeflag hdr' = Typeflag hdr.
Proof.
  intros Hk HM Hm Hr.
  pose proof (devmajor_makedev major minor HM Hm) as EM.
  pose proof (devminor_makedev major minor HM Hm) as Em.
  split; [exact EM|]. split; [exact Em|].
  pose proof (makedev_range major minor HM Hm) as Hrange.
  pose proof (tarSetHeader_device hdr ino s Hk ltac:(rewrite Hr; lia)) as Hd.
  destruct (tarSetHeader_some hdr ino s) as (hdr' & E & Hn & _ & _ & Ht & _).
  rewrite E in Hd. destruct Hd as (_ & H1 & H2).
  exists hdr'. split; [exact E|].
  rewrite Hr in H1, H2. fold (devmajor (makedev major minor)) in H1.
  fold (devminor (makedev major minor)) in H2.
  rewrite EM in H1. rewrite Em in H2. auto.
Qed.

(** ** Further string facts *)

Lemma prefix_append a b : String.prefix a (a +:+ b) = true.
Proof.
  induction a as [|c a IH]; [now destruct b|].
  rewrite append_cons. simpl. now destruct (ascii_dec c c).
Qed.

Lemma slice_append_suffix a b :
  slice (a +:+ b) (String.length a) (String.length (a +:+ b)) = b.
Proof.
  apply chars_inj. rewrite chars_slice, chars_app, length_append.
  rewrite <- (chars_length a), <- (chars_length b).
  rewrite drop_app_length. apply take_ge. lia.
Qed.

Lemma prefix_split a s :
  String.prefix a s = true ->
  a +:+ slice s (String.length a) (String.length s) = s.
Proof.
  intros H. apply prefix_correct in H.
  assert (E : s = a +:+ slice s (String.length a) (String.length s)).
  { rewrite <- (slice_split s (String.length a)) at 1.
    - unfold slice at 1. rewrite Nat.sub_0_r, H. reflexivity.
    - assert (L : String.length (String.substring 0 (String.length a) s)
                  = String.length a) by now rewrite H.
      rewrite <- chars_length, chars_substring, drop_0, length_take,
        chars_length in L. lia. }
  now rewrite <- E.
Qed.

Lemma Replace1_unfold s old new :
  Replace1 s old new =
  if String.prefix old s
  then new +:+ slice s (String.length old) (String.length s)
  else match s with
       | EmptyString => EmptyString
       | String c s' => String c (Replace1 s' old new)
       end.
Proof. now destruct s. Qed.

Lemma Replace1_prefix old rest new :
  Replace1 (old +:+ rest) old new = new +:+ rest.
Proof.
  now rewrite Replace1_unfold, prefix_append, slice_append_suffix.
Qed.

Lemma Replace1_same s old : Replace1 s old old = s.
Proof.
  induction s as [|c s IH]; rewrite Replace1_unfold.
  - destruct (String.prefix old "") eqn:E; [|reflexivity].
    now apply prefix_split.
  - destruct (String.prefix old (String c s)) eqn:E.
    + now apply prefix_split.
    + now rewrite IH.
Qed.

Lemma HasSuffix_append a b : HasSuffix (a +:+ b) b = true.
Proof.
  rewrite <- (slice_append_suffix a b) at 2.
  apply HasSuffix_slice. rewrite length_append. lia.
Qed.

(** X5.  [fmtDir] leaves a name that ends in the separator as it is and
    appends one separator to any other name: its result always ends in
    the separator, and applying it twice adds nothing more. *)
Theorem fmtDir_adds_one_separator name :
  HasSuffix (fmtDir name) "/" = true /\
  fmtDir (fmtDir name) = fmtDir name /\
  fmtDir name = (if HasSuffix name "/" then name else name +:+ "/").
Proof.
  assert (E : fmtDir name = if HasSuffix name "/" then name else name +:+ "/").
  { unfold fmtDir. destruct (HasSuffix name "/"); [reflexivity|].
    cbn [negb]. now rewrite concat_two. }
  assert (Hs : HasSuffix (fmtDir name) "/" = true).
  { rewrite E. destruct (HasSuffix name "/") eqn:H; [exact H|].
    apply HasSuffix_append. }
  split; [exact Hs|]. split; [|exact E].
  unfold fmtDir at 1. now rewrite Hs.
Qed.

Lemma write_new_file w name mode data :
  File_Write (with_new_file w name mode []) (new_file w name) data
  = (with_new_file w name mode data, None).
Proof.
  rewrite (File_Write_open _ (new_file w name) _ data eq_refl
             (with_new_file_inode w name mode [])).
  unfold set_inodes, with_new_file, append_data, new_file. simpl.
  now rewrite insert_insert_eq.
Qed.

Section Extraction.
Context {ext : Extern}.

(** [create] when the name it allocates is free. *)
Lemma create_allocated w name mode :
  dirents w !! genUnusedFilename w name = None -> readonly w = false ->
  create w name mode
  = (with_new_file w (genUnusedFilename w name) mode [],
     Some (new_file w (genUnusedFilename w name)), None).
Proof.
  intros Hfree Hrw. unfold create, os_OpenFile.
  rewrite (resolve_missing w _ _ Hfree), Hfree, Hrw. reflexivity.
Qed.

(** The step of the loop for a regular member named under the root. *)
Lemma untar_member_regular w originName dstName m rest :
  Typeflag (m_hdr m) = TypeReg ->
  Name (m_hdr m) = originName +:+ rest ->
  dirents w !! genUnusedFilename w (dstName +:+ rest) = None ->
  readonly w = false ->
  untar_member w originName dstName m
  = (with_new_file w (genUnusedFilename w (dstName +:+ rest))
       (Mode (m_hdr m)) (m_body m),
     [CallCreate (dstName +:+ rest) (Mode (m_hdr m))], None).
Proof.
  intros Ht Hn Hfree Hrw. unfold untar_member. rewrite Ht, Hn.
  assert (E : (if negb (String.eqb dstName originName)
               then Replace1 (originName +:+ rest) originName dstName
               else originName +:+ rest) = dstName +:+ rest).
  { destruct (String.eqb_spec dstName originName) as [->|_];
      [reflexivity | apply Replace1_prefix]. }
  cbv zeta. rewrite E.
  rewrite (create_allocated w _ _ Hfree Hrw), write_new_file. reflexivity.
Qed.

(** X6.  [untar] creates a regular member named [root ++ rest] under
    the allocated root: in the world the earlier members left, the
    file is created under the name [create] allocates for
    [allocated ++ rest] (that name itself when it is not taken), with
    the member's body as its contents and the mode of the header less
    the bits of the mask, and after [untar] that name is still bound
    to the file. *)
Theorem untar_creates_members_under_the_allocated_root
    w file fi dstName pre m post rest :
  File_Stat w file = inr fi ->
  genUnusedFilename w (TrimSuffix (fi_name fi) ".tar") = dstName ->
  (tar_decode (drop (f_pos file) (file_bytes w file))).1
  = pre ++ m :: post ->
  Typeflag (m_hdr m) = TypeReg ->
  Name (m_hdr m) = TrimSuffix (fi_name fi) ".tar" +:+ rest ->
  let originName := TrimSuffix (fi_name fi) ".tar" in
  let w_pre := (untar_loop w originName dstName pre None).1.1 in
  let target := genUnusedFilename w_pre (dstName +:+ rest) in
  dirents w_pre !! target = None -> target <> "" -> readonly w = false ->
  (untar_loop w originName dstName (pre ++ [m]) None).1.1
  = with_new_file w_pre target (Mode (m_hdr m)) (m_body m) /\
  dirents (untar w file).1.1 !! target = Some (fresh (dom (inodes w_pre))) /\
  (exists_ w_pre (dstName +:+ rest) = false -> target = dstName +:+ rest).
Proof.
  intros HS Hdst Hms Ht Hn originName w_pre target Hfree _ Hrw.
  assert (Hrw' : readonly w_pre = false).
  { unfold w_pre.
    now rewrite (proj1 (untar_loop_keeps originName dstName None pre w)). }
  pose proof (untar_member_regular w_pre originName dstName m rest Ht Hn
                Hfree Hrw') as Hstep.
  fold target in Hstep.
  split; [|split].
  - rewrite (untar_loop_app originName dstName pre [m]). fold w_pre.
    simpl. now rewrite Hstep.
  - rewrite (untar_world w file fi HS), Hdst, Hms. fold originName.
    rewrite (untar_loop_app originName dstName pre (m :: post)).
    fold w_pre. simpl. rewrite Hstep.
    pose proof (proj2 (untar_loop_keeps originName dstName
                         (tar_decode
                            (drop (f_pos file) (file_bytes w file))).2 post
                         (with_new_file w_pre target (Mode (m_hdr m))
                            (m_body m)))
                  target (fresh (dom (inodes w_pre)))) as Hkeep.
    destruct (untar_loop _ originName dstName post _) as [[w2 c2] e2].
    cbn [fst] in *. apply Hkeep.
    unfold with_new_file. cbn [dirents]. apply lookup_insert_eq.
  - intros He. unfold target. now apply genUnusedFilename_fresh.
Qed.

(** X7.  [untar] returns an error only for the file's status and for
    the archive stream: the error of [Stat] as it is, and otherwise
    [nil] when the reader ends in [io.EOF], or the reader's error
    wrapped with the archive's name.  What [os.MkdirAll], [create],
    [io.Copy], [os.Link] or [os.Symlink] return for a member never
    reaches the caller. *)
Theorem untar_reports_only_the_stream_error w file :
  match File_Stat w file with
  | inl e => untar w file = (w, [], Some e)
  | inr fi =>
      (untar w file).2
      = match (tar_decode (drop (f_pos file) (file_bytes w file))).2 with
        | None => None
        | Some e => Some (ErrExtract e (fi_name fi))
        end
  end.
Proof.
  destruct (File_Stat w file) as [e|fi] eqn:HS.
  - unfold untar. now rewrite HS.
  - now apply untar_error.
Qed.

End Extraction.

Section Archive.
Context {ext : Extern}.

Lemma tarSetHeader_xattrs hdr ino s :
  Xattrs (tarSetHeader hdr (Some (ino, s))).1.1.1 = Xattrs hdr.
Proof. unfold tarSetHeader. now destruct (_ || _). Qed.

Ltac add_special Hadd :=
  match type of Hadd with
  | context [tarSetHeader ?h (Some (?ino, ?s))] =>
      let hdr1 := fresh "hdr1" in
      let E := fresh "E" in
      let HN := fresh "HN" in
      let HT := fresh "HT" in
      let HL := fresh "HLn" in
      let HX := fresh "HX" in
      pose proof (tarSetHeader_xattrs h ino s) as HX;
      destruct (tarSetHeader_some h ino s)
        as (hdr1 & E & HN & _ & _ & HT & HL);
      rewrite E in Hadd, HX;
      cbn [Name Typeflag Linkname Xattrs fst] in HN, HT, HL, HX;
      unfold tw_WriteHeader in Hadd;
      destruct (tw_err (ta_tarWriter _));
        [destruct (i_caps _); discriminate Hadd|];
      destruct (i_caps _);
        (destruct (tar_header_ok _); [|discriminate Hadd]);
        cbn [Typeflag Name Linkname Xattrs] in Hadd; rewrite HT in Hadd;
        cbn [typeflag_eqb] in Hadd; injection Hadd as <-;
        eexists; (split; [reflexivity|]); cbn;
        rewrite ?HN, ?HL, ?HT, ?HX; auto 10
  end.

(** X8.  What a successful [add] writes for a file that is not a
    regular one: one member without a body, [hardLinks] untouched.  A
    directory becomes a [TypeDir] member whose name ends in the
    separator, a symbolic link a [TypeSymlink] member whose [Linkname]
    is the link's target (the link is not followed), devices and named
    pipes members of their type; a socket is never written.  The
    header's [Xattrs] holds [security.capability] exactly when the file
    has that attribute. *)
Theorem add_writes_special_files_without_body w ta path name ta' fi :
  add w ta path name = (ta', None) ->
  os_Lstat w path = inr fi ->
  IsRegular (fi_Mode fi) = false ->
  exists m,
    tw_members (ta_tarWriter ta') = tw_members (ta_tarWriter ta) ++ [m] /\
    hardLinks ta' = hardLinks ta /\ m_body m = [] /\
    Xattrs (m_hdr m)
    = match i_caps (fi_sys fi) with
      | Some capability => {[ "security.capability"%string := capability ]}
      | None => ∅
      end /\
    match kind_of_mode (fi_Mode fi) with
    | KDir => Typeflag (m_hdr m) = TypeDir /\ Name (m_hdr m) = fmtDir name
    | KSymlink =>
        Typeflag (m_hdr m) = TypeSymlink /\ Name (m_hdr m) = name /\
        Linkname (m_hdr m) = i_target (fi_sys fi)
    | KCharDevice => Typeflag (m_hdr m) = TypeChar /\ Name (m_hdr m) = name
    | KBlockDevice => Typeflag (m_hdr m) = TypeBlock /\ Name (m_hdr m) = name
    | KNamedPipe => Typeflag (m_hdr m) = TypeFifo /\ Name (m_hdr m) = name
    | KSocket | KRegular => False
    end.
Proof.
  intros Hadd HL Hreg. unfold add in Hadd. rewrite HL in Hadd.
  unfold os_Readlink, lgetxattr in Hadd. rewrite HL in Hadd.
  rewrite Hreg in Hadd. cbn [andb] in Hadd.
  unfold IsSymlink, IsDir, FileInfoHeader in Hadd. unfold IsRegular in Hreg.
  destruct (kind_of_mode (fi_Mode fi)) eqn:K; try discriminate;
    add_special Hadd.
Qed.

Lemma walk_add_app w ps : forall ta qs,
  walk_add w ta (ps ++ qs)
  = match walk_add w ta ps with
    | (ta', Some e) => (ta', Some e)
    | (ta', None) => walk_add w ta' qs
    end.
Proof.
  induction ps as [|p ps IH]; intros ta qs; [reflexivity|].
  simpl. destruct (add w ta p p) as [ta1 [e|]]; [reflexivity|]. apply IH.
Qed.

(** X9.  The walk stops at the first path [add] fails for: the paths
    before it are written, the appender is left as the failing [add]
    leaves it, and the paths after it are never visited. *)
Theorem walk_stops_at_the_first_error w ta pre path post ta1 ta2 e :
  walk_add w ta pre = (ta1, None) ->
  add w ta1 path path = (ta2, Some e) ->
  walk_add w ta (pre ++ path :: post) = (ta2, Some e).
Proof.
  intros Hpre Hadd. rewrite walk_add_app, Hpre. simpl. now rewrite Hadd.
Qed.

Lemma before_outside w f paths :
  Forall (fun p => names w p f = false) paths -> before w f paths = paths.
Proof.
  induction 1 as [|p paths Hp _ IH]; [reflexivity|].
  simpl. now rewrite Hp, IH.
Qed.

Lemma before_inside w f pre p post :
  Forall (fun q => names w q f = false) pre -> names w p f = true ->
  before w f (pre ++ p :: post) = pre.
Proof.
  intros Hpre Hp. induction Hpre as [|q pre Hq _ IH]; simpl.
  - now rewrite Hp.
  - now rewrite Hq, IH.
Qed.

(** A walk that does not come to the archive adds every path. *)
Lemma walk_tree_outside w dst paths :
  Forall (fun p => names w p dst = false) paths ->
  walk_tree w dst paths = walk_add w newAppender paths.
Proof.
  intros H. unfold walk_tree. rewrite (before_outside w dst paths H).
  rewrite drop_all. now destruct (walk_add w newAppender paths) as [ta [e|]].
Qed.

(** A walk that comes to the archive ends there. *)
Lemma walk_tree_inside w dst pre p post ta :
  Forall (fun q => names w q dst = false) pre -> names w p dst = true ->
  walk_add w newAppender pre = (ta, None) ->
  walk_tree w dst (pre ++ p :: post) = add_archive w dst ta p.
Proof.
  intros Hpre Hp Hwalk. unfold walk_tree.
  rewrite (before_inside w dst pre p post Hpre Hp), Hwalk.
  now rewrite drop_app_length.
Qed.

Lemma add_archive_fails w dst ta p : (add_archive w dst ta p).2 <> None.
Proof.
  unfold add_archive. now destruct (add _ ta p p) as [ta' [e|]].
Qed.

(** The result of [tarDir] on an open file in a world where the
    archive can be created. *)
Lemma tarDir_result w dir i dstName :
  f_closed dir = false -> inodes w !! f_ino dir = Some i ->
  readonly w = false ->
  genUnusedFilename w (concat [f_name dir; ".tar"]%string) = dstName ->
  dirents w !! dstName = None ->
  tarDir w dir
  = (with_new_file w dstName (st_mode i)
       (tar_encode
          (tw_members
             (ta_tarWriter
                (walk_tree (with_new_file w dstName (st_mode i) [])
                   (new_file w dstName)
                   (Walk (with_new_file w dstName (st_mode i) [])
                         (f_name dir))).1))),
     Some (new_file w dstName),
     tw_Close
       (ta_tarWriter
          (walk_tree (with_new_file w dstName (st_mode i) [])
             (new_file w dstName)
             (Walk (with_new_file w dstName (st_mode i) [])
                   (f_name dir))).1)).
Proof.
  intros Hc Hi Hrw Hname Hfree. unfold tarDir.
  rewrite (File_Stat_open w dir i Hc Hi). rewrite Hname.
  unfold fi_Mode. cbn [fi_sys].
  rewrite (create_free w dstName (st_mode i) Hfree Hrw).
  destruct (walk_tree _ _ _) as [ta werr]. cbn [fst].
  rewrite write_new_file.
  destruct (tw_Close (ta_tarWriter ta)); [reflexivity|].
  now rewrite with_new_file_open.
Qed.

(** X10.  [tarDir] returns what closing the tar writer returns, not
    what the walk returned: in a world where the archive can be
    created, the file it returns is the new archive, holding the
    members written before the walk ended, and its error is that of
    [tarWriter.Close].  A walk that does not come to the archive adds
    every path until [add] fails.  A walk that comes to the archive
    (the archive lies in the tree it archives) ends there with an
    error, the paths after it left out, and that error is dropped like
    any other. *)
Theorem tarDir_returns_the_error_of_Close w dir i dstName :
  f_closed dir = false -> inodes w !! f_ino dir = Some i ->
  readonly w = false ->
  genUnusedFilename w (concat [f_name dir; ".tar"]%string) = dstName ->
  dirents w !! dstName = None ->
  let w1 := with_new_file w dstName (st_mode i) [] in
  let dst := new_file w dstName in
  let paths := Walk w1 (f_name dir) in
  exists ta,
    (tarDir w dir).2 = tw_Close (ta_tarWriter ta) /\
    (tarDir w dir).1.2 = Some dst /\
    file_bytes (tarDir w dir).1.1 dst
    = tar_encode (tw_members (ta_tarWriter ta)) /\
    (Forall (fun p => names w1 p dst = false) paths ->
     ta = (walk_add w1 newAppender paths).1) /\
    (forall pre p post ta0,
        paths = pre ++ p :: post ->
        Forall (fun q => names w1 q dst = false) pre ->
        names w1 p dst = true ->
        walk_add w1 newAppender pre = (ta0, None) ->
        ta = (add_archive w1 dst ta0 p).1 /\
        (add_archive w1 dst ta0 p).2 <> None).
Proof.
  intros Hc Hi Hrw Hname Hfree w1 dst paths.
  exists (walk_tree w1 dst paths).1.
  rewrite (tarDir_result w dir i dstName Hc Hi Hrw Hname Hfree).
  cbn [fst snd]. split; [reflexivity|]. split; [reflexivity|].
  split; [apply with_new_file_bytes|]. split.
  - intros H. now rewrite (walk_tree_outside w1 dst paths H).
  - intros pre p post ta0 E Hpre Hp Hwalk. split.
    + now rewrite E, (walk_tree_inside w1 dst pre p post ta0 Hpre Hp Hwalk).
    + apply add_archive_fails.
Qed.

End Archive.

Lemma add_writes_special_files_without_body_witness :
  exists ta' m,
    add (ext := Samples.sampleExtern) Samples.linkWorld newAppender
        "d/l" "d/l" = (ta', None) /\
    tw_members (ta_tarWriter ta') = [m] /\ m_body m = [] /\
    Typeflag (m_hdr m) = TypeSymlink /\ Name (m_hdr m) = "d/l"%string /\
    Linkname (m_hdr m) = "a.txt"%string.
Proof.
  assert (Hadd : add (ext := Samples.sampleExtern) Samples.linkWorld
                   newAppender "d/l" "d/l"
                 = ((add (ext := Samples.sampleExtern) Samples.linkWorld
                       newAppender "d/l" "d/l").1, None))
    by (vm_compute; reflexivity).
  destruct (add_writes_special_files_without_body
              (ext := Samples.sampleExtern) Samples.linkWorld newAppender
              "d/l" "d/l" _
              (mkFileInfo "l" 2 (Inode (Z.lor S_IFLNK 0x1ff) 1 0 [] "a.txt"
                                       None))
              Hadd eq_refl eq_refl)
    as (m & Hm & _ & Hb & _ & Hk).
  exists (add (ext := Samples.sampleExtern) Samples.linkWorld
            newAppender "d/l" "d/l").1, m.
  split; [exact Hadd|]. split; [exact Hm|]. split; [exact Hb|]. exact Hk.
Defined.

Lemma walk_stops_at_the_first_error_witness :
  exists ta,
    walk_add (ext := Samples.sampleExtern) Samples.linkWorld newAppender
      ["d"; "d/gone"; "d/l"]%string = (ta, Some ENOENT) /\
    length (tw_members (ta_tarWriter ta)) = 1%nat.
Proof.
  exists (add (ext := Samples.sampleExtern) Samples.linkWorld newAppender
            "d" "d").1.
  split; [|vm_compute; reflexivity].
  apply (walk_stops_at_the_first_error (ext := Samples.sampleExtern)
           Samples.linkWorld newAppender ["d"%string] "d/gone"
           ["d/l"%string]
           (add (ext := Samples.sampleExtern) Samples.linkWorld newAppender
              "d" "d").1);
    vm_compute; reflexivity.
Defined.

Lemma tarDir_returns_the_error_of_Close_witness :
  exists ta,
    (tarDir (ext := Samples.inTreeExtern) Samples.slashWorld
            Samples.dSlashFile).2 = tw_Close (ta_tarWriter ta) /\
    tw_Close (ta_tarWriter ta) = None /\
    map (fun m => Name (m_hdr m)) (tw_members (ta_tarWriter ta))
    = ["d/"; "d/.tar"]%string.
Proof.
  destruct (tarDir_returns_the_error_of_Close
              (ext := Samples.inTreeExtern) Samples.slashWorld
              Samples.dSlashFile (Inode (Z.lor S_IFDIR 0x1ed) 2 0 [] "" None)
              "d/.tar" eq_refl eq_refl eq_refl
              (genUnusedFilename_fresh (ext := Samples.inTreeExtern)
                 Samples.slashWorld "d/.tar" eq_refl) eq_refl)
    as (ta & Herr & _ & _ & _ & Hin).
  destruct (Hin ["d/"%string] "d/.tar"%string ["d/a"%string]
              (add (ext := Samples.inTreeExtern)
                 (with_new_file Samples.slashWorld "d/.tar"
                    (Z.lor S_IFDIR 0x1ed) [])
                 newAppender "d/" "d/").1) as [-> _].
  - reflexivity.
  - repeat constructor.
  - vm_compute. reflexivity.
  - vm_compute. reflexivity.
  - eexists. split; [exact Herr|]. split; vm_compute; reflexivity.
Defined.

Section Naming.
Context {ext : Extern}.

Lemma genUnusedFilename_loop_least w base e filename n : forall i j,
  i <= j < i + Z.of_nat n ->
  (forall k, i <= k < j ->
     exists_ w (concat [base; "("; Itoa k; ")"; e]%string) = true) ->
  exists_ w (concat [base; "("; Itoa j; ")"; e]%string) = false ->
  genUnusedFilename_loop w base e n i filename
  = concat [base; "("; Itoa j; ")"; e]%string.
Proof.
  induction n as [|n IH]; intros i j Hj Hused Hfree; [lia|].
  rewrite genUnusedFilename_loop_S.
  destruct (Z.eq_dec i j) as [->|Hne]; [now rewrite Hfree|].
  rewrite (Hused i) by lia.
  apply IH; [lia | | exact Hfree].
  intros k Hk. apply Hused. lia.
Qed.

(** X11.  [genUnusedFilename] numbers upwards from 1: when the
    candidate exists, the variants numbered below [j] exist and the
    variant numbered [j] (within the loop's bound) does not, the
    result is the variant numbered [j]. *)
Theorem genUnusedFilename_takes_the_least_free_number w filename j :
  exists_ w filename = true ->
  1 <= j < 20091110230000 ->
  (forall k, 1 <= k < j ->
     exists_ w (concat [fst (splitExt filename); "("; Itoa k; ")";
                        snd (splitExt filename)]%string) = true) ->
  exists_ w (concat [fst (splitExt filename); "("; Itoa j; ")";
                     snd (splitExt filename)]%string) = false ->
  genUnusedFilename w filename
  = concat [fst (splitExt filename); "("; Itoa j; ")";
            snd (splitExt filename)]%string.
Proof.
  intros He Hj Hused Hfree. unfold genUnusedFilename. rewrite He.
  cbv [negb]. destruct (splitExt filename) as [base e].
  cbv [fst snd] in *.
  apply genUnusedFilename_loop_least; [|exact Hused|exact Hfree].
  rewrite Z2Nat.id by (unfold loopBound; lia). unfold loopBound. lia.
Qed.

(** [os.OpenFile] keeps every name bound to its inode, every inode as
    it is, and the read-only flag. *)
Lemma os_OpenFile_keeps w name perm :
  readonly (os_OpenFile w name perm).1.1 = readonly w /\
  (forall n ino, dirents w !! n = Some ino ->
     dirents (os_OpenFile w name perm).1.1 !! n = Some ino) /\
  (forall ino i, inodes w !! ino = Some i ->
     inodes (os_OpenFile w name perm).1.1 !! ino = Some i).
Proof.
  unfold os_OpenFile.
  destruct (resolve w maxSymlinks name) as [e|target]; [now repeat split|].
  destruct (dirents w !! target) as [ino|] eqn:Ht.
  - destruct (inodes w !! ino) as [i|]; [destruct (IsDir _)|];
      now repeat split.
  - destruct (readonly w) eqn:E; [now repeat split|].
    cbn [fst readonly dirents inodes]. split; [reflexivity|]. split.
    + intros n ino H. rewrite lookup_insert_ne; [exact H|].
      intros <-. congruence.
    + intros ino i H. rewrite lookup_insert_ne; [exact H|].
      intros E'. rewrite <- E', fresh_inode in H. discriminate.
Qed.

(** X12.  [create] never replaces or truncates what exists: every name
    keeps its inode and every inode its contents.  Either the world is
    left as it was (the call failed, or it opened an existing file for
    appending), or a file was created under a path that was free (the
    name allocated, or the path a dangling link under that name leads
    to), empty and with the permission bits asked for less those of
    the mask. *)
Theorem create_keeps_what_exists w name mode :
  let '(w', file, err) := create w name mode in
  (forall n ino, dirents w !! n = Some ino -> dirents w' !! n = Some ino) /\
  (forall ino i, inodes w !! ino = Some i -> inodes w' !! ino = Some i) /\
  (file = None <-> err <> None) /\
  (w' = w \/
   exists f target,
     file = Some f /\
     resolve w maxSymlinks (genUnusedFilename w name) = inr target /\
     dirents w !! target = None /\
     dirents w' !! target = Some (f_ino f) /\
     inodes w' !! f_ino f
     = Some (Inode (Z.lor S_IFREG (masked (umask w) mode)) 1 0 [] ""
                   None)).
Proof.
  unfold create.
  set (n := genUnusedFilename w name).
  destruct (os_OpenFile_keeps w n mode) as (_ & Hd & Hi).
  assert (Hiff : forall (f : option File) (e : option error),
             (f = None /\ e <> None) \/ (f <> None /\ e = None) ->
             f = None <-> e <> None).
  { intros f e [[-> H]|[H ->]]; split; congruence. }
  revert Hd Hi. unfold os_OpenFile.
  destruct (resolve w maxSymlinks n) as [e|target] eqn:R.
  { intros Hd Hi. split; [exact Hd|]. split; [exact Hi|].
    split; [apply Hiff; left; split; congruence|now left]. }
  destruct (dirents w !! target) as [ino|] eqn:Hn.
  - destruct (inodes w !! ino) as [i|];
      [destruct (IsDir (st_mode i))|];
      intros Hd Hi; (split; [exact Hd|]); (split; [exact Hi|]);
      (split; [apply Hiff; (left + right); split; congruence|now left]).
  - destruct (readonly w).
    + intros Hd Hi. split; [exact Hd|]. split; [exact Hi|].
      split; [apply Hiff; left; split; congruence|now left].
    + intros Hd Hi. split; [exact Hd|]. split; [exact Hi|].
      split; [apply Hiff; right; split; congruence|].
      right. eexists _, target. split; [reflexivity|].
      cbn [f_ino dirents inodes]. split; [reflexivity|].
      split; [exact Hn|]. now rewrite !lookup_insert_eq.
Qed.

Lemma snapSafe_closes w src w' src' dst err :
  snapSafe w src = (w', src', Some dst, err) -> f_closed src' = true.
Proof.
  unfold snapSafe. destruct (File_Stat w src); [discriminate|].
  destruct (create _ _ _) as [[w1 [d|]] e]; [|discriminate].
  destruct (File_ReadRest w1 src) as [[s r] [re|]].
  - now intros [= _ <- _ _].
  - destruct (sz_write_all _ _ _ _) as [w2 [e2|]].
    + now intros [= _ <- _ _].
    + destruct (os_Open w2 _) as [d' e']. now intros [= _ <- _ _].
Qed.

Lemma snapSafe_closed w src :
  f_closed src = true -> snapSafe w src = (w, src, None, Some ErrClosed).
Proof. intros H. unfold snapSafe, File_Stat. now rewrite H. Qed.

(** X13.  [snapSafe] closes its source: whenever it returns a
    destination, the source it leaves is closed, and a second
    [snapSafe] on that source fails at [Stat] with the
    already-closed error, creating nothing. *)
Theorem snapSafe_cannot_run_twice w src w1 src1 dst err :
  snapSafe w src = (w1, src1, Some dst, err) ->
  f_closed src1 = true /\
  snapSafe w1 src1 = (w1, src1, None, Some ErrClosed).
Proof.
  intros H. pose proof (snapSafe_closes _ _ _ _ _ _ H) as Hc.
  split; [exact Hc|]. now apply snapSafe_closed.
Qed.

(** X14.  When [ioutil.ReadAll] fails after the destination was
    created, the result of [snap] is the result of [snapSafe] run in
    the world that holds the empty destination, on the source as the
    failed read left it. *)
Theorem snap_hands_over_to_snapSafe w src i dstName :
  f_closed src = false -> inodes w !! f_ino src = Some i ->
  IsRegular (st_mode i) = true -> readonly w = false ->
  genUnusedFilename w (concat [f_name src; ".sz"]%string) = dstName ->
  dirents w !! dstName = None ->
  (memlimit w < length (drop (f_pos src) (i_data i)))%nat ->
  ioutil_ReadAll (with_new_file w dstName (st_mode i) []) src
  = (mkFile (f_name src) (f_ino src) (f_pos src + memlimit w) false,
     take (memlimit w) (drop (f_pos src) (i_data i)), Some ErrTooLarge) /\
  snap w src
  = snapSafe (with_new_file w dstName (st_mode i) [])
             (mkFile (f_name src) (f_ino src) (f_pos src + memlimit w)
                     false).
Proof.
  intros Hc Hi Hreg Hrw Hname Hfree Hbig.
  split; [|now apply snap_falls_back].
  unfold ioutil_ReadAll. rewrite Hc.
  rewrite (file_bytes_open _ src i Hc (with_new_file_old w _ _ _ _ _ Hi)
             Hreg).
  change (memlimit (with_new_file w dstName (st_mode i) []))
    with (memlimit w).
  now rewrite (proj2 (Nat.leb_gt _ _) Hbig).
Qed.

End Naming.

Section Fallback.
Context {ext : Extern}.

(** X15.  After a fallback the destination of the fast path stays
    behind: when [ioutil.ReadAll] fails, [snap] returns without error
    the file [snapSafe] wrote under a second name, [analyze] returns
    [nil], and the first name still exists, holding no bytes. *)
Theorem fallback_leaves_the_first_destination_behind w filename src i :
  os_Open w filename = (Some src, None) ->
  inodes w !! f_ino src = Some i ->
  IsRegular (st_mode i) = true ->
  isSz w src = false ->
  readonly w = false ->
  dirents w !! genUnusedFilename w (concat [f_name src; ".sz"]%string)
  = None ->
  (memlimit w < length (i_data i))%nat ->
  dirents (with_new_file w
             (genUnusedFilename w (concat [f_name src; ".sz"]%string))
             (st_mode i) [])
    !! genUnusedFilename
         (with_new_file w
            (genUnusedFilename w (concat [f_name src; ".sz"]%string))
            (st_mode i) [])
         (concat [f_name src; ".sz"]%string) = None ->
  exists w1 src1 dst ino,
    snap w src = (w1, src1, Some dst, None) /\
    analyze w filename = (w1, Returned None) /\
    f_name dst
    <> genUnusedFilename w (concat [f_name src; ".sz"]%string) /\
    dirents w1 !! genUnusedFilename w (concat [f_name src; ".sz"]%string)
    = Some ino /\
    i_data <$> inodes w1 !! ino = Some [].
Proof.
  intros Hopen Hi Hreg Hsz Hrw Hfree Hbig Hfree1.
  destruct (snap_after_failed_read w filename src i Hopen Hi Hreg Hrw
              Hfree Hbig Hfree1) as (src1 & Hs).
  destruct (os_Open_file w filename src Hopen) as (Hc & _ & _).
  set (first := genUnusedFilename w (concat [f_name src; ".sz"]%string))
    in *.
  set (w0 := with_new_file w first (st_mode i) []) in *.
  set (second := genUnusedFilename w0 (concat [f_name src; ".sz"]%string))
    in *.
  assert (Hne : second <> first).
  { intros E. rewrite E in Hfree1. unfold w0, with_new_file in Hfree1.
    cbn [dirents] in Hfree1. now rewrite lookup_insert_eq in Hfree1. }
  do 3 eexists. exists (fresh (dom (inodes w))).
  split; [exact Hs|]. split; [|split; [exact Hne|split]].
  - unfold analyze. rewrite Hopen, Hsz.
    unfold isDir. rewrite (File_Stat_open w src i Hc Hi).
    unfold fi_Mode. cbn [fi_sys]. rewrite (IsRegular_not_dir _ Hreg).
    unfold analyze_compress. now rewrite Hs.
  - unfold with_new_file at 1. cbn [dirents].
    rewrite lookup_insert_ne by exact Hne.
    unfold w0, with_new_file. cbn [dirents]. apply lookup_insert_eq.
  - rewrite (with_new_file_old w0 second _ _ (fresh (dom (inodes w)))
               (Inode (Z.lor S_IFREG (masked (umask w) (st_mode i))) 1 0 [] "" None));
      [reflexivity|].
    apply (with_new_file_inode w first (st_mode i) []).
Qed.

End Fallback.

Lemma genUnusedFilename_takes_the_least_free_number_witness :
  genUnusedFilename (ext := Samples.sampleExtern)
    Samples.twoArchivesWorld "a.sz" = "a(2).sz"%string.
Proof.
  apply (genUnusedFilename_takes_the_least_free_number
           (ext := Samples.sampleExtern) Samples.twoArchivesWorld "a.sz" 2);
    [reflexivity | lia | | reflexivity].
  intros k Hk. assert (k = 1) as -> by lia. reflexivity.
Defined.

Lemma snapSafe_cannot_run_twice_witness :
  exists w1 src1 dst,
    snapSafe (ext := Samples.sampleExtern) (Samples.helloWorld 1024)
             Samples.fFile = (w1, src1, Some dst, None) /\
    f_closed src1 = true /\
    snapSafe (ext := Samples.sampleExtern) w1 src1
    = (w1, src1, None, Some ErrClosed).
Proof.
  destruct (snapSafe_streams_rest (ext := Samples.sampleExtern)
              (Samples.helloWorld 1024) Samples.fFile
              (Samples.fileInode [x68; x65; x6c; x6c; x6f]) "f.sz"
              eq_refl eq_refl eq_refl eq_refl eq_refl eq_refl)
    as (src' & Hs).
  do 3 eexists. split; [exact Hs|].
  exact (snapSafe_cannot_run_twice (ext := Samples.sampleExtern)
           _ _ _ _ _ _ Hs).
Defined.

Lemma snap_hands_over_to_snapSafe_witness :
  snap (ext := Samples.sampleExtern) (Samples.helloWorld 2) Samples.fFile
  = snapSafe (ext := Samples.sampleExtern)
      (with_new_file (Samples.helloWorld 2) "f.sz" (Z.lor S_IFREG 0x1a4) [])
      (mkFile "f" 1 2 false).
Proof.
  apply (snap_hands_over_to_snapSafe (ext := Samples.sampleExtern)
           (Samples.helloWorld 2) Samples.fFile
           (Samples.fileInode [x68; x65; x6c; x6c; x6f]) "f.sz");
    try reflexivity.
  simpl. lia.
Defined.

Lemma fallback_leaves_the_first_destination_behind_witness :
  exists w1 src1 dst ino,
    snap (ext := Samples.sampleExtern) (Samples.helloWorld 2) Samples.fFile
    = (w1, src1, Some dst, None) /\
    analyze (ext := Samples.sampleExtern) (Samples.helloWorld 2) "f"
    = (w1, Returned None) /\
    f_name dst <> "f.sz"%string /\
    dirents w1 !! "f.sz"%string = Some ino /\
    i_data <$> inodes w1 !! ino = Some [].
Proof.
  set (W0 := with_new_file (Samples.helloWorld 2) "f.sz"
               (Z.lor S_IFREG 420) []).
  assert (N0 : genUnusedFilename (ext := Samples.sampleExtern) W0 "f.sz"
               = "f(1).sz"%string).
  { now rewrite genUnusedFilename_first. }
  assert (H8 : dirents W0
                 !! genUnusedFilename (ext := Samples.sampleExtern) W0 "f.sz"
               = None).
  { rewrite N0. reflexivity. }
  apply (fallback_leaves_the_first_destination_behind
           (ext := Samples.sampleExtern) (Samples.helloWorld 2) "f"
           Samples.fFile (Samples.fileInode [x68; x65; x6c; x6c; x6f])
           eq_refl eq_refl eq_refl eq_refl eq_refl eq_refl);
    [simpl; lia | exact H8].
Defined.

Section Orchestration.
Context {ext : Extern}.

Lemma analyze_missing w filename :
  dirents w !! filename = None ->
  analyze w filename = (w, Returned (Some ENOENT)).
Proof.
  intros H. unfold analyze, os_Open. now rewrite (os_Stat_missing w _ H).
Qed.

(** X16.  [main] goes on after an error: the loop over a list of
    targets followed by another is the loop over the first, then over
    the second in the world the first left, the errors printed being
    those of the first followed by those of the second.  Only a panic
    in [analyze] ends the loop early. *)
Theorem main_loop_continues_after_errors quiet fs1 : forall w fs2,
  main_loop quiet w (fs1 ++ fs2)
  = match main_loop quiet w fs1 with
    | (w1, printed1, true) => (w1, printed1, true)
    | (w1, printed1, false) =>
        let '(w2, printed2, crashed) := main_loop quiet w1 fs2 in
        (w2, printed1 ++ printed2, crashed)
    end.
Proof.
  induction fs1 as [|f fs1 IH]; intros w fs2.
  - simpl. now destruct (main_loop quiet w fs2) as [[w2 p2] c].
  - simpl. destruct (analyze w f) as [w' [err|]]; [|reflexivity].
    rewrite IH.
    destruct (main_loop quiet w' fs1) as [[w1 p1] [|]].
    + now destruct err.
    + destruct err as [e|]; simpl;
        destruct (main_loop quiet w1 fs2) as [[w2 p2] c];
        [now destruct quiet | reflexivity].
Qed.

(** X17.  Targets that do not exist are reported one by one and leave
    the world as it was: [analyze] returns the error of [os.Open], and
    [main] prints one error per target unless [-q] was given, in which
    case it prints nothing. *)
Theorem main_reports_each_missing_target quiet w files :
  (forall f, In f files -> dirents w !! f = None) ->
  (forall f, In f files -> analyze w f = (w, Returned (Some ENOENT))) /\
  main_loop quiet w files
  = (w, if quiet then [] else map (fun _ => ENOENT) files, false).
Proof.
  intros Hall. split; [intros f Hf; apply analyze_missing; auto|].
  induction files as [|f files IH]; [now destruct quiet|].
  simpl. rewrite analyze_missing by (apply Hall; now left).
  rewrite IH by (intros g Hg; apply Hall; now right).
  now destruct quiet.
Qed.

Lemma isDir_regular w file i :
  f_closed file = false -> inodes w !! f_ino file = Some i ->
  IsRegular (st_mode i) = true -> isDir w file = false.
Proof.
  intros Hc Hi Hreg. unfold isDir. rewrite (File_Stat_open w file i Hc Hi).
  unfold fi_Mode. cbn [fi_sys]. now apply IsRegular_not_dir.
Qed.

Lemma isTar_spec w file :
  isTar w file = true <-> take 5 (drop 257 (file_bytes w file)) = tarSig.
Proof. exact (sniff_spec w file 5 257 tarSig eq_refl). Qed.

Lemma isSz_spec w file :
  isSz w file = true <-> take 10 (file_bytes w file) = szSig.
Proof.
  rewrite <- (drop_0 (file_bytes w file)).
  exact (sniff_spec w file 10 0 szSig eq_refl).
Qed.

(** [analyze] on a regular file that is not a snappy archive, when
    the fast path succeeds. *)
Lemma analyze_compress_result w filename file i dstName :
  os_Open w filename = (Some file, None) ->
  inodes w !! f_ino file = Some i ->
  IsRegular (st_mode i) = true ->
  isSz w file = false ->
  readonly w = false ->
  genUnusedFilename w (concat [filename; ".sz"]%string) = dstName ->
  dirents w !! dstName = None ->
  (length (i_data i) <= memlimit w)%nat ->
  analyze w filename
  = (with_new_file w dstName (st_mode i) (sz_stream sz_NewWriter [i_data i]),
     Returned None).
Proof.
  intros Hopen Hi Hreg Hsz Hrw Hname Hfree Hfit.
  destruct (os_Open_file w filename file Hopen) as (Hc & Hpos & Hn).
  unfold analyze. rewrite Hopen, Hsz, (isDir_regular w file i Hc Hi Hreg).
  unfold analyze_compress.
  destruct (snap_fast_path w file i dstName Hc Hi Hreg Hrw
              ltac:(now rewrite Hn) Hfree
              ltac:(now rewrite Hpos, drop_0)) as (src' & Hs).
  rewrite Hs, Hpos, drop_0. reflexivity.
Qed.

(** [analyze] on a snappy archive whose contents are not a tar
    archive. *)
Lemma analyze_decompress_result w filename file i outName decoded :
  os_Open w filename = (Some file, None) ->
  inodes w !! f_ino file = Some i ->
  IsRegular (st_mode i) = true ->
  isSz w file = true ->
  readonly w = false ->
  genUnusedFilename w (unsnap_name file) = outName ->
  dirents w !! outName = None ->
  sz_decode (i_data i) = (decoded, None) ->
  take 5 (drop 257 decoded) <> tarSig ->
  analyze w filename
  = (with_new_file w outName (st_mode i) decoded, Returned None).
Proof.
  intros Hopen Hi Hreg Hsz Hrw Hname Hfree Hdec Hnotar.
  destruct (os_Open_file w filename file Hopen) as (Hc & Hpos & Hn).
  unfold analyze. rewrite Hopen, Hsz.
  destruct (unsnap_decodes w file i outName decoded Hc Hi Hreg Hrw Hname
              Hfree ltac:(now rewrite Hpos, drop_0)) as (src' & Hu).
  rewrite Hu.
  destruct (isTar _ (new_file w outName)) eqn:E; [|reflexivity].
  apply isTar_spec in E. rewrite with_new_file_bytes in E. contradiction.
Qed.

(** X18.  Compressing a regular file: when the file is not a snappy
    archive, fits in memory and the archive's name can be allocated,
    [analyze] returns [nil]; afterwards the new name opens a file
    holding the snappy stream of the source's bytes, written in one
    piece, and the source is as it was. *)
Theorem analyze_compresses_a_regular_file w filename file i dstName :
  os_Open w filename = (Some file, None) ->
  inodes w !! f_ino file = Some i ->
  IsRegular (st_mode i) = true ->
  isSz w file = false ->
  readonly w = false ->
  genUnusedFilename w (concat [filename; ".sz"]%string) = dstName ->
  dirents w !! dstName = None ->
  (length (i_data i) <= memlimit w)%nat ->
  exists w1 dst,
    analyze w filename = (w1, Returned None) /\
    os_Open w1 dstName = (Some dst, None) /\
    file_bytes w1 dst = sz_stream sz_NewWriter [i_data i] /\
    os_Open w1 filename = (Some file, None) /\
    inodes w1 !! f_ino file = Some i.
Proof.
  intros Hopen Hi Hreg Hsz Hrw Hname Hfree Hfit.
  do 2 eexists.
  split; [exact (analyze_compress_result w filename file i dstName Hopen Hi
                   Hreg Hsz Hrw Hname Hfree Hfit)|].
  split; [apply with_new_file_open|].
  split; [apply with_new_file_bytes|].
  split; [|now apply with_new_file_old].
  now apply os_Open_with_new_file.
Qed.

(** X19.  Decompressing: on a snappy archive whose decoded contents
    are not a tar archive, [analyze] returns [nil] and leaves a new
    file, under the name [unsnap] allocates, that holds the decoded
    bytes.  The name allocated is not the empty one (that of an
    archive named [.sz]), which [os.OpenFile] refuses. *)
Theorem analyze_decompresses_an_archive w filename file i outName decoded :
  os_Open w filename = (Some file, None) ->
  inodes w !! f_ino file = Some i ->
  IsRegular (st_mode i) = true ->
  isSz w file = true ->
  readonly w = false ->
  genUnusedFilename w (unsnap_name file) = outName ->
  outName <> ""%string ->
  dirents w !! outName = None ->
  sz_decode (i_data i) = (decoded, None) ->
  take 5 (drop 257 decoded) <> tarSig ->
  exists w1 out,
    analyze w filename = (w1, Returned None) /\
    os_Open w1 outName = (Some out, None) /\
    file_bytes w1 out = decoded /\
    inodes w1 !! f_ino file = Some i.
Proof.
  intros Hopen Hi Hreg Hsz Hrw Hname _ Hfree Hdec Hnotar.
  do 2 eexists.
  split; [exact (analyze_decompress_result w filename file i outName decoded
                   Hopen Hi Hreg Hsz Hrw Hname Hfree Hdec Hnotar)|].
  split; [apply with_new_file_open|].
  split; [apply with_new_file_bytes|]. now apply with_new_file_old.
Qed.

(** X20.  Running the program on a file and then on the archive it
    wrote gives the file's bytes back: when the written stream starts
    with the snappy signature, decodes to the source's bytes, and these
    are not a tar archive, the second [analyze] returns [nil] and
    leaves a file that holds the bytes of the source. *)
Theorem analyze_twice_restores_the_bytes w filename file i szName outName :
  os_Open w filename = (Some file, None) ->
  inodes w !! f_ino file = Some i ->
  IsRegular (st_mode i) = true ->
  isSz w file = false ->
  readonly w = false ->
  genUnusedFilename w (concat [filename; ".sz"]%string) = szName ->
  dirents w !! szName = None ->
  (length (i_data i) <= memlimit w)%nat ->
  take 10 (sz_stream sz_NewWriter [i_data i]) = szSig ->
  sz_decode (sz_stream sz_NewWriter [i_data i]) = (i_data i, None) ->
  take 5 (drop 257 (i_data i)) <> tarSig ->
  genUnusedFilename
    (with_new_file w szName (st_mode i) (sz_stream sz_NewWriter [i_data i]))
    (unsnap_name (new_file w szName)) = outName ->
  dirents
    (with_new_file w szName (st_mode i) (sz_stream sz_NewWriter [i_data i]))
    !! outName = None ->
  exists w1 w2 out,
    analyze w filename = (w1, Returned None) /\
    analyze w1 szName = (w2, Returned None) /\
    os_Open w2 outName = (Some out, None) /\
    file_bytes w2 out = i_data i.
Proof.
  intros Hopen Hi Hreg Hsz Hrw Hname Hfree Hfit Hmagic Hdec Hnotar
    Hout Hfree2.
  set (stream := sz_stream sz_NewWriter [i_data i]) in *.
  set (w1 := with_new_file w szName (st_mode i) stream) in *.
  exists w1. do 2 eexists.
  split; [exact (analyze_compress_result w filename file i szName Hopen Hi
                   Hreg Hsz Hrw Hname Hfree Hfit)|].
  split.
  - apply (analyze_decompress_result w1 szName (new_file w szName)
             (Inode (Z.lor S_IFREG (masked (umask w) (st_mode i))) 1 0 stream "" None)
             outName (i_data i)).
    + apply with_new_file_open.
    + apply with_new_file_inode.
    + apply IsRegular_new_file.
    + apply isSz_spec. unfold w1. now rewrite with_new_file_bytes.
    + reflexivity.
    + exact Hout.
    + exact Hfree2.
    + exact Hdec.
    + exact Hnotar.
  - split; [apply with_new_file_open | apply with_new_file_bytes].
Qed.

End Orchestration.

Lemma main_reports_each_missing_target_witness :
  main_loop (ext := Samples.sampleExtern) false (Samples.helloWorld 0)
    ["x"; "y"]%string
  = (Samples.helloWorld 0, [ENOENT; ENOENT], false).
Proof.
  apply (main_reports_each_missing_target (ext := Samples.sampleExtern)
           false (Samples.helloWorld 0) ["x"; "y"]%string).
  intros f [<-|[<-|[]]]; reflexivity.
Defined.

Lemma analyze_compresses_a_regular_file_witness :
  exists w1 dst,
    analyze (ext := Samples.framedExtern) (Samples.helloWorld 1024) "f"
    = (w1, Returned None) /\
    os_Open w1 "f.sz" = (Some dst, None) /\
    file_bytes w1 dst = szSig ++ [x68; x65; x6c; x6c; x6f].
Proof.
  destruct (analyze_compresses_a_regular_file (ext := Samples.framedExtern)
              (Samples.helloWorld 1024) "f" Samples.fFile
              (Samples.fileInode [x68; x65; x6c; x6c; x6f]) "f.sz"
              eq_refl eq_refl eq_refl eq_refl eq_refl eq_refl eq_refl)
    as (w1 & dst & Ha & Ho & Hb & _); [simpl; lia|].
  exists w1, dst. split; [exact Ha|]. split; [exact Ho|]. exact Hb.
Defined.

Lemma analyze_decompresses_an_archive_witness :
  exists w1 out,
    analyze (ext := Samples.framedExtern) Samples.archiveWorld "a.sz"
    = (w1, Returned None) /\
    os_Open w1 "a" = (Some out, None) /\
    file_bytes w1 out = [x68; x69].
Proof.
  assert (Hopen : os_Open Samples.archiveWorld "a.sz"
                  = (Some (mkFile "a.sz" 1 0 false), None))
    by reflexivity.
  assert (Hsz : isSz Samples.archiveWorld (mkFile "a.sz" 1 0 false) = true)
    by reflexivity.
  assert (Hname : genUnusedFilename (ext := Samples.framedExtern)
                    Samples.archiveWorld
                    (unsnap_name (mkFile "a.sz" 1 0 false)) = "a"%string)
    by reflexivity.
  destruct (analyze_decompresses_an_archive (ext := Samples.framedExtern)
              Samples.archiveWorld "a.sz" (mkFile "a.sz" 1 0 false)
              (Samples.fileInode (szSig ++ [x68; x69])) "a" [x68; x69]
              Hopen eq_refl eq_refl Hsz eq_refl Hname ltac:(discriminate)
              eq_refl eq_refl)
    as (w1 & out & Ha & Ho & Hb & _); [discriminate|].
  exists w1, out. split; [exact Ha|]. split; [exact Ho|]. exact Hb.
Defined.

Lemma analyze_twice_restores_the_bytes_witness :
  exists w1 w2 out,
    analyze (ext := Samples.framedExtern) (Samples.helloWorld 1024) "f"
    = (w1, Returned None) /\
    analyze (ext := Samples.framedExtern) w1 "f.sz"
    = (w2, Returned None) /\
    os_Open w2 "f(1)" = (Some out, None) /\
    file_bytes w2 out = [x68; x65; x6c; x6c; x6f].
Proof.
  assert (N : genUnusedFilename (ext := Samples.framedExtern)
                (with_new_file (Samples.helloWorld 1024) "f.sz"
                   (Z.lor S_IFREG 420)
                   (szSig ++ [x68; x65; x6c; x6c; x6f]))
                "f" = "f(1)"%string).
  { now rewrite genUnusedFilename_first. }
  apply (analyze_twice_restores_the_bytes (ext := Samples.framedExtern)
           (Samples.helloWorld 1024) "f" Samples.fFile
           (Samples.fileInode [x68; x65; x6c; x6c; x6f]) "f.sz" "f(1)"
           eq_refl eq_refl eq_refl eq_refl eq_refl eq_refl eq_refl);
    [simpl; lia | reflexivity | reflexivity | discriminate | exact N
    | reflexivity].
Defined.

Section Invariants.
Context {ext : Extern}.

(** X21.  [untar] only adds: every name that existed before the call
    exists after it, whatever the archive holds and whatever fails,
    and a closed file is refused with the world left as it was. *)
Theorem untar_removes_no_name w file :
  (forall n, is_Some (dirents w !! n) ->
             is_Some (dirents (untar w file).1.1 !! n)) /\
  (f_closed file = true -> untar w file = (w, [], Some ErrClosed)).
Proof.
  destruct (untar_keeps w file) as [_ Hd]. split.
  - intros n [ino H]. exists ino. now apply Hd.
  - intros Hc. unfold untar, File_Stat. now rewrite Hc.
Qed.

Lemma IsDir_not_regular m : IsDir m = true -> IsRegular m = false.
Proof. unfold IsRegular, IsDir. now destruct (kind_of_mode m). Qed.

Lemma isSz_directory w file i :
  inodes w !! f_ino file = Some i -> IsDir (st_mode i) = true ->
  isSz w file = false.
Proof.
  intros Hi Hd. destruct (isSz w file) eqn:E; [|reflexivity].
  apply isSz_spec in E. unfold file_bytes in E.
  rewrite Hi, (IsDir_not_regular _ Hd) in E.
  destruct (f_closed file); discriminate.
Qed.

(** X22.  Compressing a directory: [analyze] writes the tar archive of
    the walk, compresses it, and removes it again.  When the archive
    and its compressed form can be created, the tar writer closes
    without error and the archive fits in memory, [analyze] returns
    [nil]; afterwards the name of the tar archive is gone and the
    compressed name opens a file holding the snappy stream of the
    archive's bytes.  The archive lies outside the tree: no path of
    the walk names it. *)
Theorem analyze_compresses_a_directory w filename dir i tarName szName :
  os_Open w filename = (Some dir, None) ->
  inodes w !! f_ino dir = Some i ->
  IsDir (st_mode i) = true ->
  readonly w = false ->
  genUnusedFilename w (concat [filename; ".tar"]%string) = tarName ->
  dirents w !! tarName = None ->
  let w1 := with_new_file w tarName (st_mode i) [] in
  Forall (fun p => names w1 p (new_file w tarName) = false)
         (Walk w1 filename) ->
  let ta := (walk_add w1 newAppender (Walk w1 filename)).1 in
  let bytes := tar_encode (tw_members (ta_tarWriter ta)) in
  let w2 := with_new_file w tarName (st_mode i) bytes in
  tw_Close (ta_tarWriter ta) = None ->
  genUnusedFilename w2 (concat [tarName; ".sz"]%string) = szName ->
  dirents w2 !! szName = None ->
  (length bytes <= memlimit w)%nat ->
  exists w3 dst,
    analyze w filename = (w3, Returned None) /\
    dirents w3 !! tarName = None /\
    os_Open w3 szName = (Some dst, None) /\
    file_bytes w3 dst = sz_stream sz_NewWriter [bytes].
Proof.
  intros Hopen Hi Hdir Hrw Htar Hfree w1 Hout ta bytes w2 Hclose Hsz Hfree2
         Hfit.
  destruct (os_Open_file w filename dir Hopen) as (Hc & Hpos & Hn).
  assert (Hne : szName <> tarName).
  { intros E. rewrite E in Hfree2. unfold w2, with_new_file in Hfree2.
    cbn [dirents] in Hfree2. now rewrite lookup_insert_eq in Hfree2. }
  assert (HtarDir : tarDir w dir = (w2, Some (new_file w tarName), None)).
  { rewrite (tarDir_result w dir i tarName Hc Hi Hrw
               ltac:(now rewrite Hn) Hfree).
    rewrite Hn. fold w1. rewrite (walk_tree_outside w1 _ _ Hout).
    fold ta. now rewrite Hclose. }
  destruct (snap_fast_path w2 (new_file w tarName)
              (Inode (Z.lor S_IFREG (masked (umask w) (st_mode i))) 1 0 bytes "" None)
              szName eq_refl (with_new_file_inode w tarName (st_mode i) bytes)
              (IsRegular_new_file _) eq_refl Hsz Hfree2
              ltac:(cbn [f_pos new_file i_data]; rewrite drop_0; exact Hfit))
    as (src' & Hs).
  cbn [f_pos new_file i_data st_mode] in Hs. rewrite drop_0 in Hs.
  set (w3 := with_new_file w2 szName (Z.lor S_IFREG (masked (umask w) (st_mode i)))
               (sz_stream sz_NewWriter [bytes])) in *.
  assert (Hthere : dirents w3 !! tarName
                   = Some (fresh (dom (inodes w)))).
  { unfold w3, with_new_file at 1. cbn [dirents].
    rewrite lookup_insert_ne by exact Hne.
    unfold w2, with_new_file. cbn [dirents]. apply lookup_insert_eq. }
  exists (set_dirents w3 (delete tarName (dirents w3))),
         (new_file w2 szName).
  split; [|split; [|split]].
  - unfold analyze. rewrite Hopen.
    rewrite (isSz_directory w dir i Hi Hdir).
    unfold isDir. rewrite (File_Stat_open w dir i Hc Hi).
    unfold fi_Mode. cbn [fi_sys]. rewrite Hdir, HtarDir.
    unfold analyze_compress. rewrite Hs.
    unfold os_Remove. cbn [f_name new_file]. rewrite Hthere.
    reflexivity.
  - cbn [set_dirents dirents]. apply lookup_delete_eq.
  - unfold os_Open.
    rewrite (os_Stat_plain _ szName
               (mkFileInfo (basename szName) (fresh (dom (inodes w2)))
                  (Inode (Z.lor S_IFREG
                            (masked (umask w2)
                               (Z.lor S_IFREG
                                  (masked (umask w) (st_mode i)))))
                         1 0 (sz_stream sz_NewWriter [bytes]) "" None))).
    + reflexivity.
    + unfold os_Lstat. cbn [set_dirents dirents inodes].
      rewrite lookup_delete_ne by (intros E; now apply Hne).
      unfold w3, with_new_file. cbn [dirents inodes].
      now rewrite !lookup_insert_eq.
    + apply IsRegular_not_symlink, IsRegular_new_file.
  - unfold file_bytes. cbn [f_closed f_ino new_file set_dirents inodes].
    unfold w3, with_new_file. cbn [inodes]. rewrite lookup_insert_eq.
    cbn [st_mode i_data]. now rewrite IsRegular_new_file.
Qed.

(** X23.  Extracting a compressed tar archive: [analyze] decompresses
    the archive into a new file and extracts that file.  When the
    reader ends in [io.EOF], [analyze] returns [nil] and the
    decompressed tar archive has been removed; when the reader ends in
    an error, [analyze] returns that error wrapped with the archive's
    name and the decompressed file stays.  The name allocated for the
    decompressed file is not the empty one. *)
Theorem analyze_extracts_and_removes_the_archive
    w filename file i outName decoded :
  os_Open w filename = (Some file, None) ->
  inodes w !! f_ino file = Some i ->
  IsRegular (st_mode i) = true ->
  isSz w file = true ->
  readonly w = false ->
  genUnusedFilename w (unsnap_name file) = outName ->
  outName <> ""%string ->
  dirents w !! outName = None ->
  sz_decode (i_data i) = (decoded, None) ->
  take 5 (drop 257 decoded) = tarSig ->
  match (tar_decode decoded).2 with
  | None =>
      exists w1, analyze w filename = (w1, Returned None) /\
                 dirents w1 !! outName = None
  | Some e =>
      exists w1,
        analyze w filename
        = (w1, Returned (Some (ErrExtract e (basename outName)))) /\
        is_Some (dirents w1 !! outName)
  end.
Proof.
  intros Hopen Hi Hreg Hsz Hrw Hname _ Hfree Hdec Htar.
  destruct (os_Open_file w filename file Hopen) as (Hc & Hpos & Hn).
  destruct (unsnap_decodes w file i outName decoded Hc Hi Hreg Hrw Hname
              Hfree ltac:(now rewrite Hpos, drop_0)) as (src' & Hu).
  set (w2 := with_new_file w outName (st_mode i) decoded) in *.
  set (out := new_file w outName) in *.
  assert (HisTar : isTar w2 out = true).
  { apply isTar_spec. unfold w2, out. now rewrite with_new_file_bytes. }
  assert (HS : File_Stat w2 out
               = inr (mkFileInfo (basename outName) (f_ino out)
                        (Inode (Z.lor S_IFREG (masked (umask w) (st_mode i))) 1 0
                               decoded "" None))).
  { apply (File_Stat_open w2 out _ eq_refl).
    apply with_new_file_inode. }
  pose proof (untar_error w2 out _ HS) as Herr.
  destruct (untar_keeps w2 out) as [Hr Hd].
  assert (Hb : drop (f_pos out) (file_bytes w2 out) = decoded).
  { unfold w2, out. now rewrite with_new_file_bytes. }
  rewrite Hb in Herr. cbn [fi_name] in Herr.
  assert (Hout : dirents w2 !! outName = Some (fresh (dom (inodes w)))).
  { unfold w2, with_new_file. cbn [dirents]. apply lookup_insert_eq. }
  unfold analyze. rewrite Hopen, Hsz, Hu, HisTar. cbn [negb].
  destruct (untar w2 out) as [[w3 calls] err]. cbn [fst snd] in *.
  destruct ((tar_decode decoded).2) as [e|]; subst err.
  - exists w3. split; [reflexivity|]. eexists. apply Hd, Hout.
  - unfold os_Remove. cbn [f_name out new_file].
    destruct (dirents w3 !! outName) as [ino|] eqn:E.
    + rewrite Hr. cbn [readonly w2 with_new_file].
      eexists. split; [reflexivity|]. apply lookup_delete_eq.
    + exists w3. split; [reflexivity|exact E].
Qed.

(** [unsnap] on a stream the reader gives up on. *)
Lemma unsnap_corrupt w src i outName decoded e :
  f_closed src = false -> inodes w !! f_ino src = Some i ->
  IsRegular (st_mode i) = true -> readonly w = false ->
  genUnusedFilename w (unsnap_name src) = outName ->
  dirents w !! outName = None ->
  sz_decode (drop (f_pos src) (i_data i)) = (decoded, Some e) ->
  exists src',
    unsnap w src
    = (with_new_file w outName (st_mode i) decoded, src',
       Some (new_file w outName), Some e).
Proof.
  intros Hc Hi Hreg Hrw Hname Hfree Hdec. unfold unsnap.
  rewrite (File_Stat_open w src i Hc Hi). cbn [fi_name].
  unfold unsnap_name in Hname. rewrite Hname.
  unfold fi_Mode. cbn [fi_sys].
  rewrite (create_free w outName (st_mode i) Hfree Hrw).
  fold (with_new_file w outName (st_mode i) []).
  fold (new_file w outName).
  unfold File_ReadRest. rewrite Hc.
  rewrite (file_bytes_open _ src i Hc (with_new_file_old w _ _ _ _ _ Hi)
             Hreg).
  cbv beta iota zeta. rewrite Hdec, write_new_file.
  eexists. reflexivity.
Qed.

(** X24.  A corrupt archive leaves its partial output: when the snappy
    reader stops with an error, [analyze] returns that error, and the
    file created for the output stays, holding the bytes decoded
    before the error.  The name allocated for the output is not the
    empty one. *)
Theorem analyze_keeps_partial_output_of_a_corrupt_archive
    w filename file i outName decoded e :
  os_Open w filename = (Some file, None) ->
  inodes w !! f_ino file = Some i ->
  IsRegular (st_mode i) = true ->
  isSz w file = true ->
  readonly w = false ->
  genUnusedFilename w (unsnap_name file) = outName ->
  outName <> ""%string ->
  dirents w !! outName = None ->
  sz_decode (i_data i) = (decoded, Some e) ->
  exists w1 out,
    analyze w filename = (w1, Returned (Some e)) /\
    os_Open w1 outName = (Some out, None) /\
    file_bytes w1 out = decoded.
Proof.
  intros Hopen Hi Hreg Hsz Hrw Hname _ Hfree Hdec.
  destruct (os_Open_file w filename file Hopen) as (Hc & Hpos & Hn).
  destruct (unsnap_corrupt w file i outName decoded e Hc Hi Hreg Hrw Hname
              Hfree ltac:(now rewrite Hpos, drop_0)) as (src' & Hu).
  do 2 eexists. split; [unfold analyze; now rewrite Hopen, Hsz, Hu|].
  split; [apply with_new_file_open | apply with_new_file_bytes].
Qed.

End Invariants.

Lemma tarSetHeader_unpacks_device_numbers_witness :
  exists hdr',
    tarSetHeader Samples.plainHeader (Some (9, Samples.blockDevice))
    = (hdr', 1, 9, None) /\
    Devmajor hdr' = 259 /\ Devminor hdr' = 65537.
Proof.
  destruct (tarSetHeader_unpacks_device_numbers Samples.plainHeader 9
              Samples.blockDevice 259 65537 (or_intror eq_refl)
              ltac:(lia) ltac:(lia) eq_refl)
    as (_ & _ & hdr' & E & HM & Hm & _).
  exists hdr'. split; [exact E|]. split; [exact HM | exact Hm].
Defined.

Lemma untar_creates_members_under_the_allocated_root_witness :
  dirents (untar (ext := Samples.dTarExtern) Samples.collidingWorld
                 Samples.dTarFile).1.1 !! "d(1)/a.txt"%string = Some 5.
Proof.
  pose proof (untar_creates_members_under_the_allocated_root
                (ext := Samples.dTarExtern)
                Samples.collidingWorld Samples.dTarFile
                (mkFileInfo "d.tar" 1 (Samples.fileInode [])) "d(1)"
                [mkMember (mkHeader "d/" 0x1ed 0 TypeDir "" 0 0 ∅) []]
                (mkMember (mkHeader "d/a.txt" 0x1a4 2 TypeReg "" 0 0 ∅)
                          [x68; x69])
                [mkMember
                   (mkHeader "d/b.txt" 0x1a4 0 TypeLink "d/a.txt" 0 0 ∅) []]
                "/a.txt" eq_refl collidingWorld_root_renamed eq_refl
                eq_refl eq_refl) as H.
  cbv zeta in H.
  change (TrimSuffix (fi_name (mkFileInfo "d.tar" 1 (Samples.fileInode [])))
            ".tar") with "d"%string in H.
  assert (N : genUnusedFilename (ext := Samples.dTarExtern)
                (untar_loop (ext := Samples.dTarExtern)
                   Samples.collidingWorld "d" "d(1)"
                   [mkMember (mkHeader "d/" 0x1ed 0 TypeDir "" 0 0 ∅) []]
                   None).1.1 ("d(1)" +:+ "/a.txt")
              = "d(1)/a.txt"%string)
    by (vm_compute; reflexivity).
  rewrite N in H.
  destruct H as (_ & H & _);
    [vm_compute; reflexivity | discriminate | reflexivity |].
  rewrite H. vm_compute. reflexivity.
Defined.

Lemma untar_reports_only_the_stream_error_witness :
  (untar (ext := Samples.dTarExtern) Samples.readonlyTarWorld
         Samples.dTarFile).2 = None /\
  Forall (fun m => (untar_member (ext := Samples.dTarExtern)
                      Samples.readonlyTarWorld "d" "d" m).2 <> None)
         Samples.dMembers.
Proof.
  split.
  - exact (untar_reports_only_the_stream_error (ext := Samples.dTarExtern)
             Samples.readonlyTarWorld Samples.dTarFile).
  - repeat (constructor; [vm_compute; discriminate|]). constructor.
Defined.

Lemma analyze_compresses_a_directory_witness :
  exists w3 dst,
    analyze (ext := Samples.framedExtern) Samples.linkWorld "d"
    = (w3, Returned None) /\
    dirents w3 !! "d.tar"%string = None /\
    os_Open w3 "d.tar.sz" = (Some dst, None) /\
    file_bytes w3 dst = szSig.
Proof.
  assert (Hopen : os_Open Samples.linkWorld "d"
                  = (Some Samples.dFile, None)) by reflexivity.
  assert (Hclose : tw_Close
            (ta_tarWriter
               (walk_add (ext := Samples.framedExtern)
                  (with_new_file Samples.linkWorld "d.tar"
                     (Z.lor S_IFDIR 0x1ed) [])
                  newAppender ["d"%string]).1) = None)
    by (vm_compute; reflexivity).
  destruct (analyze_compresses_a_directory (ext := Samples.framedExtern)
              Samples.linkWorld "d" Samples.dFile
              (Inode (Z.lor S_IFDIR 0x1ed) 2 0 [] "" None)
              "d.tar" "d.tar.sz" Hopen eq_refl eq_refl eq_refl
              (genUnusedFilename_fresh (ext := Samples.framedExtern)
                 Samples.linkWorld "d.tar" eq_refl)
              eq_refl
              ltac:(repeat constructor) Hclose)
    as (w3 & dst & Ha & Hgone & Ho & Hb).
  - now apply genUnusedFilename_fresh.
  - reflexivity.
  - vm_compute. lia.
  - exists w3, dst. split; [exact Ha|]. split; [exact Hgone|].
    split; [exact Ho|]. rewrite Hb. vm_compute. reflexivity.
Defined.

Lemma analyze_extracts_and_removes_the_archive_witness :
  exists w1,
    analyze (ext := Samples.dTarExtern) Samples.tarSzWorld "d.tar.sz"
    = (w1, Returned None) /\
    dirents w1 !! "d.tar"%string = None.
Proof.
  assert (Hopen : os_Open Samples.tarSzWorld "d.tar.sz"
                  = (Some (mkFile "d.tar.sz" 1 0 false), None))
    by reflexivity.
  assert (Hsz : isSz Samples.tarSzWorld (mkFile "d.tar.sz" 1 0 false)
                = true) by reflexivity.
  assert (Hname : genUnusedFilename (ext := Samples.dTarExtern)
                    Samples.tarSzWorld
                    (unsnap_name (mkFile "d.tar.sz" 1 0 false))
                  = "d.tar"%string) by reflexivity.
  exact (analyze_extracts_and_removes_the_archive
           (ext := Samples.dTarExtern) Samples.tarSzWorld "d.tar.sz"
           (mkFile "d.tar.sz" 1 0 false)
           (Samples.fileInode (szSig ++ replicate 247 x00 ++ tarSig))
           "d.tar" (szSig ++ replicate 247 x00 ++ tarSig)
           Hopen eq_refl eq_refl Hsz eq_refl Hname ltac:(discriminate)
           eq_refl eq_refl eq_refl).
Defined.

Lemma analyze_keeps_partial_output_of_a_corrupt_archive_witness :
  exists w1 out,
    analyze (ext := Samples.corruptExtern) Samples.archiveWorld "a.sz"
    = (w1, Returned (Some ErrCorrupt)) /\
    os_Open w1 "a" = (Some out, None) /\
    file_bytes w1 out = [x68; x69].
Proof.
  assert (Hopen : os_Open Samples.archiveWorld "a.sz"
                  = (Some (mkFile "a.sz" 1 0 false), None))
    by reflexivity.
  assert (Hsz : isSz Samples.archiveWorld (mkFile "a.sz" 1 0 false) = true)
    by reflexivity.
  assert (Hname : genUnusedFilename (ext := Samples.corruptExtern)
                    Samples.archiveWorld
                    (unsnap_name (mkFile "a.sz" 1 0 false)) = "a"%string)
    by reflexivity.
  exact (analyze_keeps_partial_output_of_a_corrupt_archive
           (ext := Samples.corruptExtern) Samples.archiveWorld "a.sz"
           (mkFile "a.sz" 1 0 false)
           (Samples.fileInode (szSig ++ [x68; x69])) "a" [x68; x69]
           ErrCorrupt Hopen eq_refl eq_refl Hsz eq_refl Hname
           ltac:(discriminate) eq_refl eq_refl).
Defined.

End SzSpec.
